(** * The Alpha Vantage edge proxy of [functions/api/alpha/index.js]

    A shallow embedding of the Cloudflare Pages function that sits between
    the ratio builder and the Alpha Vantage API: the problem classifier
    [avProblem], the upstream client [fetchOnce], the single-flight
    coordinator [singleFlight], the response builders and the request
    handler [onRequestGet] with its bundle and per-function paths.

    The source file carries three successive revisions of the handler.  The
    last one (single-flight, bundle mode, one retry) is the program that is
    verified here; it lives at top level.  The second revision, which
    answered upstream failures differently, is embedded in [Module Rev2]
    for comparison, and the first, which stored the provider's answers
    unexamined, in [Module Rev1].

    Conventions of the embedding:
    - a JavaScript value obtained from [JSON.parse] is a [JSON] term; the
      [undefined] that a missing property reads as is [None];
    - the text produced by [JSON.stringify v] is represented by [v];
    - [caches.default] is a finite map from the key URL to the stored
      response, the in-flight registry is the set of its pending keys;
      [cache.match] gives back the response that was put (what a runtime
      adds to the headers of a hit is left out), and a run of the handler
      is taken on its own: nothing else writes the cache between its
      [match] and its [put];
    - the key is the text handed to [new Request]; for a plain symbol
      ([plain]) that text is the URL of the key, for other text the URL
      parser may change it, which is not modelled;
    - the provider is an oracle that answers the n-th fetch of a URL;
    - a rejected promise is the result [Thrown]. *)

From Stdlib Require Import ZArith QArith Qround Ascii String Lia.
From stdpp Require Import base gmap strings list pretty.

#[local] Set Warnings "-register-all".
Local Open Scope string_scope.
Local Open Scope Z_scope.
Local Open Scope list_scope.

(** ** JSON values and the JavaScript operators the handler applies to them *)

Inductive JSON : Type :=
| JNull
| JBool (b : bool)
| JNum (n : Z)
| JStr (s : string)
| JArr (items : list JSON)
| JObj (props : list (string * JSON)).

(** [ToBoolean]: what [if (v)], [!v] and [&& v] look at.  A JSON number is
    falsy exactly when it is zero, which is all that an integer keeps of it. *)
Definition truthy (v : JSON) : bool :=
  match v with
  | JNull => false
  | JBool b => b
  | JNum n => negb (n =? 0)
  | JStr s => negb (String.eqb s "")
  | JArr _ => true
  | JObj _ => true
  end.

Definition typeof (v : JSON) : string :=
  match v with
  | JNull => "object"
  | JBool _ => "boolean"
  | JNum _ => "number"
  | JStr _ => "string"
  | JArr _ => "object"
  | JObj _ => "object"
  end.

Fixpoint assoc (k : string) (ps : list (string * JSON)) : option JSON :=
  match ps with
  | [] => None
  | (k', v) :: ps' => if String.eqb k k' then Some v else assoc k ps'
  end.

(** [data.k] and [data["k"]] for the three property names the classifier
    reads; none of them exists on an array or on a prototype. *)
Definition prop (v : JSON) (k : string) : option JSON :=
  match v with
  | JObj ps => assoc k ps
  | _ => None
  end.

(** Truthiness of a property read: [undefined] is falsy. *)
Definition truthy_prop (o : option JSON) : bool :=
  match o with
  | Some v => truthy v
  | None => false
  end.

(** [v == null] *)
Definition is_null (v : JSON) : bool :=
  match v with
  | JNull => true
  | _ => false
  end.

(** ** [avProblem]: classification of a provider answer *)

Record Problem := mkProblem {
  p_status : Z;
  p_msg : JSON;
  p_kind : string
}.

(** One line of the classifier: [if (v) return { status, msg: v, kind }]. *)
Definition flagged (o : option JSON) (status : Z) (kind : string) : option Problem :=
  match o with
  | Some v => if truthy v then Some (mkProblem status v kind) else None
  | None => None
  end.

Definition avProblem (data : JSON) (status : Z) : option Problem :=
  if negb (truthy data) || negb (String.eqb (typeof data) "object") then None
  else if status =? 429 then Some (mkProblem 429 (JStr "rate_limited") "429")
  else match flagged (prop data "Note") 429 "note" with
  | Some p => Some p
  | None =>
    match flagged (prop data "Information") 429 "info" with
    | Some p => Some p
    | None => flagged (prop data "Error Message") 400 "error"
    end
  end.

(** ** Responses and their builders *)

Definition Headers : Type := list (string * string).

(** [headers.set(k, v)] and one key of an object spread: replace in place
    or append. *)
Fixpoint hset (k v : string) (hs : Headers) : Headers :=
  match hs with
  | [] => [(k, v)]
  | (k', v') :: hs' => if String.eqb k k' then (k, v) :: hs' else (k', v') :: hset k v hs'
  end.

Fixpoint hget (k : string) (hs : Headers) : option string :=
  match hs with
  | [] => None
  | (k', v) :: hs' => if String.eqb k k' then Some v else hget k hs'
  end.

(** [{ ...base, ...extra }] *)
Definition spread (base extra : Headers) : Headers :=
  fold_left (fun acc kv => hset (fst kv) (snd kv) acc) extra base.

Record Response := mkResponse {
  resp_status : Z;
  resp_body : JSON;
  resp_headers : Headers
}.

(** [origin || "*"] *)
Definition cors (origin : string) : Headers :=
  [ ("Access-Control-Allow-Origin", if String.eqb origin "" then "*" else origin);
    ("Access-Control-Allow-Methods", "GET, OPTIONS");
    ("Access-Control-Allow-Headers", "Content-Type");
    ("Vary", "Origin") ].

Definition json (obj : JSON) (status : Z) (origin : string) (extra : Headers) : Response :=
  mkResponse status obj
    (spread (spread [("content-type", "application/json; charset=utf-8")] (cors origin)) extra).

Definition STALE_WHILE_REVALIDATE : Z := 86400.
Definition DEFAULT_TTL : Z := 86400 * 3.

Definition ALLOWED : list string :=
  ["INCOME_STATEMENT"; "BALANCE_SHEET"; "CASH_FLOW"; "OVERVIEW"].

(** [ALLOWED.has(fn)] *)
Definition ALLOWED_has (fn : string) : bool :=
  existsb (String.eqb fn) ALLOWED.

(** [TTL_MAP[fn]], [undefined] for a key that is not in the table. *)
Definition TTL_MAP (fn : string) : option Z :=
  if String.eqb fn "INCOME_STATEMENT" then Some (86400 * 3)
  else if String.eqb fn "BALANCE_SHEET" then Some (86400 * 3)
  else if String.eqb fn "CASH_FLOW" then Some (86400 * 3)
  else if String.eqb fn "OVERVIEW" then Some (86400 * 3)
  else None.

Definition cacheControl (ttl : Z) : string :=
  "public, max-age=" +:+ pretty ttl +:+ ", stale-while-revalidate=" +:+
  pretty STALE_WHILE_REVALIDATE.

Definition wrapOk (body : JSON) (ttl : Z) (origin : string) (headersExtra : Headers)
  : Response :=
  mkResponse 200 body
    (spread
       (spread [("content-type", "application/json; charset=utf-8");
                ("cache-control", cacheControl ttl)] (cors origin))
       headersExtra).

Definition wrap429 (detail : JSON) (origin : string) (kind : string) : Response :=
  json (JObj [("error", JStr "Alpha Vantage"); ("detail", detail); ("kind", JStr kind)])
       429 origin [("Retry-After", "65")].

(** [parts.join("/")] under the v3 prefix. *)
Fixpoint join (sep : string) (parts : list string) : string :=
  match parts with
  | [] => ""
  | [p] => p
  | p :: ps => p +:+ sep +:+ join sep ps
  end.

Definition cacheKeyStr (parts : list string) : string :=
  "https://alpha-proxy/v3/" +:+ join "/" parts.

(** ** The inbound request *)

(** [String.prototype.toUpperCase] on the ASCII letters, which is what
    tickers and function names are made of.  A string is the sequence of
    its bytes; what the engine does to a letter outside ASCII is not
    modelled, and a statement that rests on the upper-cased text is made
    for ASCII text ([ascii_text]). *)
Definition upper_ascii (c : ascii) : ascii :=
  let n := nat_of_ascii c in
  if ((97 <=? n) && (n <=? 122))%nat then ascii_of_nat (n - 32) else c.

Fixpoint toUpperCase (s : string) : string :=
  match s with
  | EmptyString => EmptyString
  | String c s' => String (upper_ascii c) (toUpperCase s')
  end.

(** Text of ASCII characters only: on it, upper-casing is the mapping of
    the letters [a]..[z] above and nothing else. *)
Definition ascii_text (s : string) : bool :=
  forallb (fun c => (nat_of_ascii c <? 128)%nat) (list_ascii_of_string s).

(** A symbol that stands in the URL of a cache key as it is written:
    letters, digits, [.], [-] and [_], and not a dot segment.  For any
    other text the URL parser behind [new Request(...)] may spell the key
    differently (it resolves dot segments, drops a fragment and encodes
    characters), which is not modelled. *)
Definition plain_char (c : ascii) : bool :=
  let n := nat_of_ascii c in
  ((65 <=? n) && (n <=? 90) || (97 <=? n) && (n <=? 122) || (48 <=? n) && (n <=? 57)
   || (n =? 45) || (n =? 46) || (n =? 95))%nat.

Definition plain (s : string) : bool :=
  forallb plain_char (list_ascii_of_string s) &&
  negb (String.eqb s "") && negb (String.eqb s ".") && negb (String.eqb s "..").

(** What the handler reads of [request.url]: the origin and the first value
    of each query parameter ([searchParams.get] gives [null] when absent). *)
Record Request := mkRequest {
  url_origin : string;
  q_function : option string;
  q_bundle : option string;
  q_symbol : option string;
  q_nocache : option string
}.

Record Env := mkEnv { ALPHA_API_KEY : option string }.

(** [x || ""] on a string that may be [null] or [undefined]. *)
Definition or_empty (x : option string) : string := default "" x.

(** [x === "1"] *)
Definition is_one (x : option string) : bool :=
  match x with
  | Some s => String.eqb s "1"
  | None => false
  end.

(** The parameters are text for which the upper-casing and the spelling
    of the cache key are modelled: an ASCII function name and a plain
    symbol. *)
Definition plainly_asked (request : Request) : bool :=
  ascii_text (or_empty (q_function request)) && plain (or_empty (q_symbol request)).

(** The address of one provider call; [searchParams.set] encodes the three
    values injectively, so the triple stands for the URL text. *)
Record Url := mkUrl {
  u_function : string;
  u_symbol : string;
  u_apikey : string
}.

#[global] Instance Url_eq_dec : EqDecision Url.
Proof. solve_decision. Defined.

(** ** The world a request runs in, and the effects of the handler *)

(** One answer of the provider: the HTTP status, the body text, and what
    [JSON.parse] makes of that text ([None] when it throws). *)
Record Reply := mkReply {
  r_status : Z;
  r_text : string;
  r_json : option JSON
}.

(** The object [{ ok, status, data, txt }] that [fetchOnce] resolves to. *)
Record Fetched := mkFetched {
  f_ok : bool;
  f_status : Z;
  f_data : JSON;
  f_txt : string
}.

(** What the hosting environment supplies: the provider's answer to the
    n-th fetch of a URL ([None]: the fetch rejects) and the value that
    [Math.random()] returns. *)
Record Host := mkHost {
  provider : Url -> nat -> option Reply;
  random : Q
}.

Record World := mkWorld {
  cache : gmap string Response;   (* caches.default *)
  inflight : gset string;         (* keys of the in-flight Map *)
  fetched : list Url;             (* provider calls issued, oldest first *)
  timers : list Z                 (* setTimeout delays awaited, in ms *)
}.

Inductive Result (A : Type) : Type :=
| Ok (a : A)
| Thrown.
Arguments Ok {A} a.
Arguments Thrown {A}.

Definition M (A : Type) : Type := World -> Result A * World.

Definition ret {A} (a : A) : M A := fun w => (Ok a, w).

Definition bind {A B} (m : M A) (k : A -> M B) : M B :=
  fun w =>
    match m w with
    | (Ok a, w') => k a w'
    | (Thrown, w') => (Thrown, w')
    end.

Notation "'await' x ':=' m 'in' k" := (bind m (fun x => k))
  (at level 10, x pattern, m at level 100, k at level 200).

Definition cache_match (key : string) : M (option Response) :=
  fun w => (Ok (cache w !! key), w).

Definition cache_put (key : string) (r : Response) : M unit :=
  fun w => (Ok tt, mkWorld (<[key := r]> (cache w)) (inflight w) (fetched w) (timers w)).

(** [await new Promise(r => setTimeout(r, ms))] *)
Definition sleep (ms : Z) : M unit :=
  fun w => (Ok tt, mkWorld (cache w) (inflight w) (fetched w) (timers w ++ [ms])).

Definition set_inflight (s : gset string) (w : World) : World :=
  mkWorld (cache w) s (fetched w) (timers w).

(** [r.ok] *)
Definition status_ok (status : Z) : bool := (200 <=? status) && (status <=? 299).

(** [fetchOnce]: one provider call; a body that does not parse leaves
    [data] at [null]. *)
Definition fetchOnce (host : Host) (url : Url) : M Fetched :=
  fun w =>
    let n := count_occ Url_eq_dec (fetched w) url in
    let w' := mkWorld (cache w) (inflight w) (fetched w ++ [url]) (timers w) in
    match provider host url n with
    | Some r =>
        (Ok (mkFetched (status_ok (r_status r)) (r_status r)
                       (default JNull (r_json r)) (r_text r)), w')
    | None => (Thrown, w')
    end.

(** [Promise.all(urls.map(fetchOnce))]: every call is issued before any
    answer is looked at; one rejection rejects the whole. *)
Fixpoint fetchAll (host : Host) (urls : list Url) : M (list Fetched) :=
  fun w =>
    match urls with
    | [] => (Ok [], w)
    | u :: us =>
        let (r, w1) := fetchOnce host u w in
        let (rs, w2) := fetchAll host us w1 in
        (match r, rs with
         | Ok x, Ok xs => Ok (x :: xs)
         | _, _ => Thrown
         end, w2)
    end.

(** How a call of [singleFlight] comes back when it is run to completion on
    its own: with the (cloned) response of its producer, or suspended on the
    pending promise that another caller registered under the key. *)
Inductive Flight : Type :=
| Responded (r : Response)
| Joined (key : string).

(** [singleFlight], for a caller that is not interleaved with others: the
    key is registered while the producer runs and deleted in the [finally],
    whether the producer resolved or rejected.  The interleaved behaviour
    is [Module Coordinator]. *)
Definition singleFlight (key : string) (fn : M Response) : M Flight :=
  fun w =>
    if decide (key ∈ inflight w) then (Ok (Joined key), w)
    else
      let (res, w1) := fn (set_inflight ({[key]} ∪ inflight w) w) in
      let w2 := set_inflight (inflight w1 ∖ {[key]}) w1 in
      match res with
      | Ok r => (Ok (Responded r), w2)
      | Thrown => (Thrown, w2)
      end.

(** ** The handler *)

(** [!x] on a value that is a string, [null] or [undefined]. *)
Definition falsy_str (x : option string) : bool :=
  match x with
  | Some s => String.eqb s ""
  | None => true
  end.

Definition is_problem (p : Fetched) : bool :=
  match avProblem (f_data p) (f_status p) with
  | Some _ => true
  | None => false
  end.

(** [p.ok && !avProblem(p.data, p.status) && p.data] *)
Definition leg_ok (p : Fetched) : bool :=
  f_ok p && negb (is_problem p) && truthy (f_data p).

Definition no_leg : Fetched := mkFetched false 0 JNull "".

(** [parts[i].data] *)
Definition part_data (parts : list Fetched) (i : nat) : JSON :=
  f_data (nth i parts no_leg).

(** [1200 + Math.floor(Math.random() * 600)].  The product is taken
    exactly here; the code rounds it to a double before [floor], which can
    move the result by one inside the same window. *)
Definition bundleDelay (host : Host) : Z :=
  1200 + Qfloor (random host * inject_Z 600).

(** [1000 + Math.floor(Math.random() * 500)], the product taken exactly
    as in [bundleDelay]. *)
Definition retryDelay (host : Host) : Z :=
  1000 + Qfloor (random host * inject_Z 500).

(** The producer handed to [singleFlight] in bundle mode. *)
Definition bundleProducer (host : Host) (origin : string) (urls : list Url)
    (ttl : Z) (nocache : bool) (bundleKey : string) : M Response :=
  await parts := fetchAll host urls in
  await parts :=
    (if existsb is_problem parts
     then await _ := sleep (bundleDelay host) in fetchAll host urls
     else ret parts) in
  if forallb leg_ok parts then
    let payload :=
      JObj [ ("income_statement", part_data parts 0);
             ("balance_sheet", part_data parts 1);
             ("cash_flow", part_data parts 2);
             ("overview", part_data parts 3) ] in
    let out := wrapOk payload ttl origin [("x-proxy-cache", "MISS-BUNDLE")] in
    await _ := (if nocache then ret tt else cache_put bundleKey out) in
    ret out
  else
    ret (wrap429 (JStr "Bundle throttled and no cached copy") origin "bundle").

(** The producer handed to [singleFlight] in per-function mode. *)
Definition singleProducer (host : Host) (origin : string) (upstream : Url)
    (ttl : Z) (nocache : bool) (cacheKey : string) : M Response :=
  await r := fetchOnce host upstream in
  await r :=
    (if is_problem r
     then await _ := sleep (retryDelay host) in fetchOnce host upstream
     else ret r) in
  let problem := avProblem (f_data r) (f_status r) in
  if f_ok r && negb (is_problem r) && truthy (f_data r) then
    let out := wrapOk (f_data r) ttl origin [("x-proxy-cache", "MISS")] in
    await _ := (if nocache then ret tt else cache_put cacheKey out) in
    ret out
  else
    ret (wrap429
           (match problem with
            | Some p => p_msg p
            | None => JStr ("Upstream " +:+ pretty (f_status r))
            end)
           origin
           (match problem with
            | Some p => p_kind p
            | None => "upstream"
            end)).

(** [new Response(hit.body, hit)] with the two headers set on it. *)
Definition serveHit (hit : Response) (ttl : Z) : Response :=
  mkResponse (resp_status hit) (resp_body hit)
    (hset "x-proxy-cache" "HIT" (hset "cache-control" (cacheControl ttl) (resp_headers hit))).

Definition upstreamFor (symbol : string) (env : Env) (f : string) : Url :=
  mkUrl f symbol (or_empty (ALPHA_API_KEY env)).

Definition onRequestGet (host : Host) (request : Request) (env : Env) : M Flight :=
  let origin := url_origin request in
  let fn := toUpperCase (or_empty (q_function request)) in
  let bundle := is_one (q_bundle request) in
  let symbol := toUpperCase (or_empty (q_symbol request)) in
  let nocache := is_one (q_nocache request) in
  if falsy_str (ALPHA_API_KEY env) then
    ret (Responded (json (JObj [("error", JStr "ALPHA_API_KEY is not configured.")])
                         500 origin []))
  else if String.eqb symbol "" then
    ret (Responded (json (JObj [("error", JStr "Bad request: missing symbol.")])
                         400 origin []))
  else if bundle then
    let ttl := DEFAULT_TTL in
    let bundleKey := cacheKeyStr ["BUNDLE"; symbol] in
    await hit := (if nocache then ret None else cache_match bundleKey) in
    match hit with
    | Some hit => ret (Responded (serveHit hit ttl))
    | None =>
        let urls := map (upstreamFor symbol env)
                        ["INCOME_STATEMENT"; "BALANCE_SHEET"; "CASH_FLOW"; "OVERVIEW"] in
        let flightKey := cacheKeyStr ["BUNDLE-FETCH"; symbol] in
        singleFlight flightKey (bundleProducer host origin urls ttl nocache bundleKey)
    end
  else if String.eqb fn "" || negb (ALLOWED_has fn) then
    ret (Responded (json (JObj [("error", JStr "Bad request: missing/invalid function.")])
                         400 origin []))
  else
    let ttl := default DEFAULT_TTL (TTL_MAP fn) in
    let upstream := upstreamFor symbol env fn in
    let cacheKey := cacheKeyStr [fn; symbol] in
    await hit := (if nocache then ret None else cache_match cacheKey) in
    match hit with
    | Some hit => ret (Responded (serveHit hit ttl))
    | None =>
        let flightKey := cacheKeyStr ["FETCH"; fn; symbol] in
        singleFlight flightKey (singleProducer host origin upstream ttl nocache cacheKey)
    end.

(** ** The second revision of the handler *)

Module Rev2.

(** [avProblem(data)] before the status argument was added. *)
Definition avProblem (data : JSON) : option Problem :=
  if negb (truthy data) || negb (String.eqb (typeof data) "object") then None
  else match flagged (prop data "Note") 429 "note" with
  | Some p => Some p
  | None =>
    match flagged (prop data "Information") 429 "info" with
    | Some p => Some p
    | None => flagged (prop data "Error Message") 400 "error"
    end
  end.

Definition TTL_MAP (fn : string) : option Z :=
  if String.eqb fn "INCOME_STATEMENT" then Some 86400
  else if String.eqb fn "BALANCE_SHEET" then Some 86400
  else if String.eqb fn "CASH_FLOW" then Some 86400
  else if String.eqb fn "OVERVIEW" then Some 21600
  else None.

Definition cacheKey (fn symbol : string) : string :=
  "https://alpha-proxy/v2/" +:+ fn +:+ "/" +:+ symbol.

Definition lower_ascii (c : ascii) : ascii :=
  let n := nat_of_ascii c in
  if ((65 <=? n) && (n <=? 90))%nat then ascii_of_nat (n + 32) else c.

Fixpoint toLowerCase (s : string) : string :=
  match s with
  | EmptyString => EmptyString
  | String c s' => String (lower_ascii c) (toLowerCase s')
  end.

(** [headers.append(name, value)] on headers kept under lower-case names:
    a further value for a name joins the values it has. *)
Fixpoint happend (k v : string) (hs : Headers) : Headers :=
  match hs with
  | [] => [(k, v)]
  | (k', v') :: hs' =>
      if String.eqb k k' then (k', v' +:+ ", " +:+ v) :: hs'
      else (k', v') :: happend k v hs'
  end.

(** [new Headers(init)] for an object [init]; it is also what a response
    keeps of the [headers] object it was built with. *)
Definition headersOf (init : Headers) : Headers :=
  fold_left (fun acc kv => happend (toLowerCase (fst kv)) (snd kv) acc) init [].

(** The hit as this revision returns it: the headers of
    [{ ...Object.fromEntries(hit.headers), ...cors(origin),
       "x-proxy-cache": "HIT" }].
    The stored names come back in lower case, so the names of [cors] stand
    beside them in the object, and [new Headers] joins the two values. *)
Definition serveHit (hit : Response) (origin : string) : Response :=
  mkResponse (resp_status hit) (resp_body hit)
    (headersOf (spread (spread (headersOf (resp_headers hit)) (cors origin))
                       [("x-proxy-cache", "HIT")])).

Definition onRequestGet (host : Host) (request : Request) (env : Env) : M Response :=
  let origin := url_origin request in
  let fn := or_empty (q_function request) in
  let symbol := toUpperCase (or_empty (q_symbol request)) in
  let nocache := is_one (q_nocache request) in
  if String.eqb fn "" || String.eqb symbol "" || negb (ALLOWED_has fn) then
    ret (json (JObj [("error", JStr "Bad request: missing/invalid function or symbol.")])
              400 origin [])
  else if falsy_str (ALPHA_API_KEY env) then
    ret (json (JObj [("error", JStr "ALPHA_API_KEY is not configured.")]) 500 origin [])
  else
    let ttl := default 900 (TTL_MAP fn) in
    let upstream := upstreamFor symbol env fn in
    let key := cacheKey fn symbol in
    await hit := (if nocache then ret None else cache_match key) in
    match hit with
    | Some hit => ret (serveHit hit origin)
    | None =>
        await r := fetchOnce host upstream in
        match avProblem (f_data r) with
        | Some problem =>
            ret (json (JObj [ ("error", JStr "Alpha Vantage"); ("detail", p_msg problem);
                              ("function", JStr fn); ("symbol", JStr symbol) ])
                      (p_status problem) origin
                      [("x-av-kind", p_kind problem); ("x-proxy-cache", "MISS")])
        | None =>
            if negb (f_ok r) || is_null (f_data r) then
              ret (json (JObj [ ("error", JStr "Upstream failure");
                                ("upstreamStatus", JNum (f_status r));
                                ("body", JStr (String.substring 0 512 (f_txt r))) ])
                        502 origin [("x-proxy-cache", "MISS")])
            else
              let ok :=
                mkResponse 200 (f_data r)
                  (spread
                     (spread [ ("content-type", "application/json; charset=utf-8");
                               ("cache-control", "public, max-age=" +:+ pretty ttl) ]
                             (cors origin))
                     [("x-proxy-cache", "MISS")]) in
              await _ := (if nocache then ret tt else cache_put key ok) in
              ret ok
        end
    end.

End Rev2.

(** ** The first revision

    The handler the file starts with: no classifier, no credential check,
    the provider's body text passed on unparsed, and the provider address
    itself as the cache key. *)

#[global] Instance Url_countable : Countable Url.
Proof.
  apply (inj_countable' (fun u => (u_function u, u_symbol u, u_apikey u))
                        (fun t => mkUrl t.1.1 t.1.2 t.2)).
  intros []; reflexivity.
Defined.

Module Rev1.

(** The body of a response: the text of [JSON.stringify(v)], or the text
    that the provider sent. *)
Inductive Body : Type :=
| Stringified (v : JSON)
| Text (s : string).

Record Response := mkResponse {
  resp_status : Z;
  resp_body : Body;
  resp_headers : Headers
}.

(** One answer of the provider: status, body text and what
    [r.headers.get("content-type")] gives ([None] for [null]). *)
Record Answer := mkAnswer {
  a_status : Z;
  a_text : string;
  a_content_type : option string
}.

Record Host := mkHost { provider : Url -> nat -> option Answer }.

(** [caches.default], keyed by the address that [upstream.toString()]
    spells out, and the provider calls issued. *)
Record World := mkWorld {
  cache : gmap Url Response;
  fetched : list Url
}.

Definition TTL_MAP (fn : string) : option Z :=
  if String.eqb fn "INCOME_STATEMENT" then Some 86400
  else if String.eqb fn "BALANCE_SHEET" then Some 86400
  else if String.eqb fn "CASH_FLOW" then Some 86400
  else if String.eqb fn "OVERVIEW" then Some 21600
  else None.

(** The provider address; [searchParams.set] writes a missing credential as
    the text of [undefined]. *)
Definition upstream (fn symbol : string) (env : Env) : Url :=
  mkUrl fn symbol (default "undefined" (ALPHA_API_KEY env)).

(** [new Response(body, { status })] with a body that is not [null]: the
    constructor throws for a status outside 200..599 and for a status that
    allows no body. *)
Definition constructible (status : Z) : bool :=
  (200 <=? status) && (status <=? 599) &&
  negb ((status =? 204) || (status =? 205) || (status =? 304)).

(** [cache.put] rejects a response of status 206. *)
Definition storable (status : Z) : bool := negb (status =? 206).

(** [x || "application/json"] *)
Definition content_type (x : option string) : string :=
  match x with
  | Some s => if String.eqb s "" then "application/json" else s
  | None => "application/json"
  end.

Definition onRequestGet (host : Host) (request : Request) (env : Env) (w : World)
  : Result Response * World :=
  let origin := url_origin request in
  let fn := or_empty (q_function request) in
  let symbol := toUpperCase (or_empty (q_symbol request)) in
  if String.eqb fn "" || String.eqb symbol "" || negb (ALLOWED_has fn) then
    (Ok (mkResponse 400 (Stringified (JObj [("error", JStr "Bad request")]))
           (spread [("content-type", "application/json")] (cors origin))), w)
  else
    let ttl := default 900 (TTL_MAP fn) in
    let up := upstream fn symbol env in
    match cache w !! up with
    | Some resp => (Ok resp, w)
    | None =>
        let w1 := mkWorld (cache w) (fetched w ++ [up]) in
        match provider host up (count_occ Url_eq_dec (fetched w) up) with
        | None => (Thrown, w1)
        | Some r =>
            if constructible (a_status r) then
              let resp :=
                mkResponse (a_status r) (Text (a_text r))
                  (spread [ ("content-type", content_type (a_content_type r));
                            ("cache-control", "public, max-age=" +:+ pretty ttl) ]
                          (cors origin)) in
              if status_ok (a_status r) then
                if storable (a_status r)
                then (Ok resp, mkWorld (<[up := resp]> (cache w)) (fetched w1))
                else (Thrown, w1)
              else (Ok resp, w1)
            else (Thrown, w1)
        end
    end.

End Rev1.

(** ** [singleFlight] under interleaving

    Every request is served in an execution context of its own; the
    registry [inflight] is shared by the requests of one isolate, which
    run on one event loop.  A call of [singleFlight] executes without
    interruption up to its [await], and when a producer's promise settles,
    the continuation of the request that waits on it runs before any other
    request makes progress.  The machine below has these two kinds of step.

    A caller that finds its key registered chains on the promise of
    another request.  The Workers runtime, on which [caches.default]
    places the handler, does not let a request wait for a promise that
    only the context of another request can settle: such a request gets no
    response.  Response objects have an identity (their address in
    [objects]); [clone] allocates a new one with the same content. *)

Module Coordinator.

Inductive Settled : Type :=
| Fulfilled (r : Response)
| Rejected (reason : string).

Inductive PromiseState : Type :=
| Pending
| Resolved (o : nat)
| Errored (reason : string).

(** What a caller of [singleFlight] gets back: a Response object, a
    rejection with its reason, or nothing, when the runtime has ended its
    request. *)
Inductive Delivery : Type :=
| Received (o : nat)
| Failed (reason : string)
| Unanswered.

(** A caller suspended at [await p] inside the [try]; it registered
    [w_key]. *)
Record Waiter := mkWaiter {
  w_caller : nat;
  w_promise : nat;
  w_key : string
}.

Record State := mkState {
  registry : gmap string nat;          (* inflight: key -> promise *)
  promises : list PromiseState;        (* promise -> state *)
  objects : list Response;             (* address -> Response object *)
  invoked : list string;               (* producer invocations, by key *)
  waiting : list Waiter;               (* suspended callers, oldest first *)
  delivered : list (nat * Delivery)    (* caller, what it received *)
}.

Definition init : State := mkState ∅ [] [] [] [] [].

Inductive Event : Type :=
| Call (caller : nat) (key : string)
| Settle (p : nat) (out : Settled).

(** What a settled promise gives to caller [c]: [x.clone()] of its value,
    or its reason rethrown. *)
Definition hand (c : nat) (st : PromiseState) (s : State) : State :=
  match st with
  | Resolved o =>
      match objects s !! o with
      | Some r =>
          mkState (registry s) (promises s) (objects s ++ [r]) (invoked s) (waiting s)
                  (delivered s ++ [(c, Received (length (objects s)))])
      | None =>
          mkState (registry s) (promises s) (objects s) (invoked s) (waiting s)
                  (delivered s ++ [(c, Failed "TypeError")])
      end
  | Errored e =>
      mkState (registry s) (promises s) (objects s) (invoked s) (waiting s)
              (delivered s ++ [(c, Failed e)])
  | Pending => s
  end.

(** The continuation of the caller that registered the key, once its
    promise has settled: the clone is returned (or the reason rethrown),
    and the [finally] deletes the key. *)
Definition resume (st : PromiseState) (wt : Waiter) (s : State) : State :=
  let s1 := hand (w_caller wt) st s in
  mkState (delete (w_key wt) (registry s1)) (promises s1) (objects s1) (invoked s1)
          (waiting s1) (delivered s1).

Definition waits_on (p : nat) (wt : Waiter) : bool := Nat.eqb (w_promise wt) p.

Definition step (s : State) (e : Event) : State :=
  match e with
  | Call c k =>
      match registry s !! k with
      | Some p =>
          match promises s !! p with
          | Some Pending | None =>
              (* [inflight.get(key).then(...)] on the pending promise of
                 another request *)
              mkState (registry s) (promises s) (objects s) (invoked s) (waiting s)
                      (delivered s ++ [(c, Unanswered)])
          | Some st => hand c st s
          end
      | None =>
          let p := length (promises s) in
          mkState (<[k := p]> (registry s)) (promises s ++ [Pending]) (objects s)
                  (invoked s ++ [k]) (waiting s ++ [mkWaiter c p k]) (delivered s)
      end
  | Settle p out =>
      match promises s !! p with
      | Some Pending =>
          let st :=
            match out with
            | Fulfilled _ => Resolved (length (objects s))
            | Rejected e => Errored e
            end in
          let objs :=
            match out with
            | Fulfilled r => objects s ++ [r]
            | Rejected _ => objects s
            end in
          fold_left (fun acc wt => resume st wt acc)
            (List.filter (waits_on p) (waiting s))
            (mkState (registry s) (<[p := st]> (promises s)) objs (invoked s)
                     (List.filter (fun wt => negb (waits_on p wt)) (waiting s))
                     (delivered s))
      | _ => s
      end
  end.

Definition run (s : State) (tr : list Event) : State := fold_left step tr s.


Definition settles (p : nat) (e : Event) : bool :=
  match e with
  | Settle p' _ => Nat.eqb p' p
  | Call _ _ => false
  end.

(** How often the producer of [k] has been invoked. *)
Definition invocations (k : string) (s : State) : nat :=
  length (List.filter (String.eqb k) (invoked s)).

(** The waiter is the one that registered [k]. *)
Definition owns (k : string) (wt : Waiter) : bool := String.eqb (w_key wt) k.

(** What the continuation of a waiter does to the registry. *)
Definition release (reg : gmap string nat) (wt : Waiter) : gmap string nat :=
  delete (w_key wt) reg.


(** Every state of the machine: registered promises and awaited promises
    exist, and a waiter waits on the promise its key is registered with. *)
Record wf (s : State) : Prop := mkWf {
  wf_registry : forall k p, registry s !! k = Some p -> (p < length (promises s))%nat;
  wf_waiting : forall wt, In wt (waiting s) -> (w_promise wt < length (promises s))%nat;
  wf_owner : forall wt, In wt (waiting s) -> registry s !! w_key wt = Some (w_promise wt)
}.

(** While the flight of [k] is pending on promise [p]: [ws] are the callers
    suspended on [p], and the producer of [k] has run [n] times. *)
Record pending_flight (k : string) (p : nat) (ws : list Waiter) (n : nat)
    (s : State) : Prop := mkPending {
  pf_registry : registry s !! k = Some p;
  pf_promise : promises s !! p = Some Pending;
  pf_only : forall k', registry s !! k' = Some p -> k' = k;
  pf_waiters : List.filter (waits_on p) (waiting s) = ws;
  pf_owner : forall wt, In wt (waiting s) -> registry s !! w_key wt = Some (w_promise wt);
  pf_invocations : invocations k s = n
}.

(** How many calls of [singleFlight] a trace makes, and by whom. *)
Fixpoint calls_in (tr : list Event) : nat :=
  match tr with
  | [] => 0
  | Call _ _ :: tr' => S (calls_in tr')
  | Settle _ _ :: tr' => calls_in tr'
  end.


(** What holds of the registry in every state the machine reaches: a
    registered key maps to a pending promise on which the caller that
    registered it waits; and whoever waits, waits on a pending promise. *)
Record registered_pending (s : State) : Prop := mkRegistered {
  rp_registry : forall k p, registry s !! k = Some p ->
                  promises s !! p = Some Pending /\
                  exists c, In (mkWaiter c p k) (waiting s);
  rp_owner : forall wt, In wt (waiting s) -> registry s !! w_key wt = Some (w_promise wt);
  rp_waiting : forall wt, In wt (waiting s) -> promises s !! w_promise wt = Some Pending
}.

End Coordinator.

(** ** Observations on a run of the handler *)

Definition response_of (x : Result Flight * World) : option Response :=
  match fst x with
  | Ok (Responded r) => Some r
  | _ => None
  end.

Definition status_of (x : Result Flight * World) : option Z :=
  resp_status <$> response_of x.

Definition world_of (x : Result Flight * World) : World := snd x.

(** The body carries a throttle notice that the classifier reacts to. *)
Definition has_notice (data : JSON) : bool :=
  truthy_prop (prop data "Note") || truthy_prop (prop data "Information").


(** The answer [fetchOnce] makes of a provider reply. *)
Definition fetched_of (r : Reply) : Fetched :=
  mkFetched (status_ok (r_status r)) (r_status r) (default JNull (r_json r)) (r_text r).

(** ** The two blocks of the handler, and what they compute *)

(** The block of [onRequestGet] under [if (bundle)], as a function of the
    values it reads. *)
Definition bundleMode (host : Host) (origin symbol : string) (env : Env)
    (nocache : bool) : M Flight :=
  let ttl := DEFAULT_TTL in
  let bundleKey := cacheKeyStr ["BUNDLE"; symbol] in
  await hit := (if nocache then ret None else cache_match bundleKey) in
  match hit with
  | Some hit => ret (Responded (serveHit hit ttl))
  | None =>
      let urls := map (upstreamFor symbol env)
                      ["INCOME_STATEMENT"; "BALANCE_SHEET"; "CASH_FLOW"; "OVERVIEW"] in
      let flightKey := cacheKeyStr ["BUNDLE-FETCH"; symbol] in
      singleFlight flightKey (bundleProducer host origin urls ttl nocache bundleKey)
  end.

(** The per-function block of [onRequestGet] past its validation. *)
Definition functionMode (host : Host) (origin fn symbol : string) (env : Env)
    (nocache : bool) : M Flight :=
  let ttl := default DEFAULT_TTL (TTL_MAP fn) in
  let upstream := upstreamFor symbol env fn in
  let cacheKey := cacheKeyStr [fn; symbol] in
  await hit := (if nocache then ret None else cache_match cacheKey) in
  match hit with
  | Some hit => ret (Responded (serveHit hit ttl))
  | None =>
      let flightKey := cacheKeyStr ["FETCH"; fn; symbol] in
      singleFlight flightKey (singleProducer host origin upstream ttl nocache cacheKey)
  end.

(** The values the handler derives from the query string. *)
Definition fn_of (request : Request) : string :=
  toUpperCase (or_empty (q_function request)).
Definition symbol_of (request : Request) : string :=
  toUpperCase (or_empty (q_symbol request)).

(** A provider that answers every call. *)
Definition responding (answers : Url -> nat -> Reply) (rnd : Q) : Host :=
  mkHost (fun u n => Some (answers u n)) rnd.

(** The response that the per-function producer builds from the answer it
    ends up with (the lines from [if (ok && !problem && data)] on). *)
Definition answerFor (origin : string) (ttl : Z) (r : Fetched) : Response :=
  if leg_ok r then wrapOk (f_data r) ttl origin [("x-proxy-cache", "MISS")]
  else
    wrap429
      (match avProblem (f_data r) (f_status r) with
       | Some p => p_msg p
       | None => JStr ("Upstream " +:+ pretty (f_status r))
       end)
      origin
      (match avProblem (f_data r) (f_status r) with
       | Some p => p_kind p
       | None => "upstream"
       end).

Definition bundlePayload (parts : list Fetched) : JSON :=
  JObj [ ("income_statement", part_data parts 0);
         ("balance_sheet", part_data parts 1);
         ("cash_flow", part_data parts 2);
         ("overview", part_data parts 3) ].

(** The response that the bundle producer builds from its last round. *)
Definition bundleAnswer (origin : string) (ttl : Z) (parts : list Fetched) : Response :=
  if forallb leg_ok parts
  then wrapOk (bundlePayload parts) ttl origin [("x-proxy-cache", "MISS-BUNDLE")]
  else wrap429 (JStr "Bundle throttled and no cached copy") origin "bundle".

(** The answers to one round of calls, [k] rounds after world [w]. *)
Definition round (answers : Url -> nat -> Reply) (w : World) (urls : list Url)
    (k : nat) : list Fetched :=
  map (fun u => fetched_of (answers u (count_occ Url_eq_dec (fetched w) u + k)%nat)) urls.

Definition bundleUrls (symbol : string) (env : Env) : list Url :=
  map (upstreamFor symbol env)
      ["INCOME_STATEMENT"; "BALANCE_SHEET"; "CASH_FLOW"; "OVERVIEW"].

(** The same world around another cache. *)
Definition with_cache (c : gmap string Response) (w : World) : World :=
  mkWorld c (inflight w) (fetched w) (timers w).

(** ** Which block serves a request, and when it calls the provider *)

(** The request is served by the per-function block: the credential is
    configured, a symbol is given, [bundle=1] is not set and the function,
    upper-cased, is one of the four kinds. *)
Definition per_function (request : Request) (env : Env) : bool :=
  negb (falsy_str (ALPHA_API_KEY env)) &&
  negb (String.eqb (or_empty (q_symbol request)) "") &&
  negb (is_one (q_bundle request)) &&
  ALLOWED_has (fn_of request).

(** The request is served by the bundle block. *)
Definition bundled (request : Request) (env : Env) : bool :=
  negb (falsy_str (ALPHA_API_KEY env)) &&
  negb (String.eqb (or_empty (q_symbol request)) "") &&
  is_one (q_bundle request).

(** The keys and the provider address that a request works with. *)
Definition cacheKey_of (request : Request) : string :=
  cacheKeyStr [fn_of request; symbol_of request].
Definition flightKey_of (request : Request) : string :=
  cacheKeyStr ["FETCH"; fn_of request; symbol_of request].
Definition bundleKey_of (request : Request) : string :=
  cacheKeyStr ["BUNDLE"; symbol_of request].
Definition bundleFlightKey_of (request : Request) : string :=
  cacheKeyStr ["BUNDLE-FETCH"; symbol_of request].
Definition url_of (request : Request) (env : Env) : Url :=
  upstreamFor (symbol_of request) env (fn_of request).
Definition nocache_of (request : Request) : bool := is_one (q_nocache request).

(** The single-flight key a request would register. *)
Definition flight_of (request : Request) : string :=
  if is_one (q_bundle request) then bundleFlightKey_of request else flightKey_of request.

Definition cached (key : string) (w : World) : bool :=
  match cache w !! key with
  | Some _ => true
  | None => false
  end.

(** The block that works with [key] and [flight] calls the provider itself:
    the cache is bypassed or holds nothing under [key], and no flight is
    pending under [flight]. *)
Definition goes_upstream (nocache : bool) (key flight : string) (w : World) : bool :=
  (nocache || negb (cached key w)) && bool_decide (flight ∉ inflight w).

(** ** Example inputs *)

(** A world in which nothing is cached, pending or logged. *)
Definition fresh_world : World := mkWorld ∅ ∅ [] [].

(** A provider that gives the same reply to every call. *)
Definition always (r : Reply) : Host := mkHost (fun _ _ => Some r) (1 # 2).

(** Requests, credentials and provider replies. *)
Definition demo_env : Env := mkEnv (Some "demo").

Definition overview_request (nocache : option string) : Request :=
  mkRequest "https://ratios.example" (Some "OVERVIEW") None (Some "IBM") nocache.

Definition bundle_request (nocache : option string) : Request :=
  mkRequest "https://ratios.example" None (Some "1") (Some "IBM") nocache.

(** The JSON text of a value whose strings need no escapes, for the body
    text of the example replies. *)
Definition dquote : string := String (ascii_of_nat 34) EmptyString.

Fixpoint render (v : JSON) : string :=
  match v with
  | JNull => "null"
  | JBool b => if b then "true" else "false"
  | JNum n => pretty n
  | JStr s => dquote +:+ s +:+ dquote
  | JArr items => "[" +:+ join "," (map render items) +:+ "]"
  | JObj props =>
      "{" +:+ join "," (map (fun kv => match kv with
                                       | (k, x) => dquote +:+ k +:+ dquote +:+ ":" +:+ render x
                                       end) props) +:+ "}"
  end.

Definition json_reply (status : Z) (v : JSON) : Reply :=
  mkReply status (render v) (Some v).

Definition good_reply : Reply :=
  json_reply 200 (JObj [("Symbol", JStr "IBM"); ("PERatio", JStr "21.5")]).

Definition server_error_reply : Reply := json_reply 500 (JObj []).

Definition unparsed_reply : Reply :=
  mkReply 200 "<html>maintenance</html>" None.

Definition throttle_reply : Reply :=
  json_reply 200 (JObj [("Note", JStr "5 calls per minute")]).

Definition invalid_call_reply : Reply :=
  json_reply 200 (JObj [("Error Message", JStr "Invalid API call.")]).

Definition empty_note_reply : Reply :=
  json_reply 200 (JObj [("Note", JStr ""); ("Symbol", JStr "IBM")]).

Definition old_entry : Response :=
  wrapOk (JObj [("Symbol", JStr "IBM"); ("PERatio", JStr "19.0")]) DEFAULT_TTL
         "https://ratios.example" [("x-proxy-cache", "MISS")].

(** ** What may be written to the cache *)

(** An entry that a producer may put: the payload of one clean answer, or
    the bundle of four clean answers. *)
Inductive clean_entry : bool -> Response -> Prop :=
| clean_single r ttl origin :
    leg_ok r = true ->
    clean_entry false (wrapOk (f_data r) ttl origin [("x-proxy-cache", "MISS")])
| clean_bundle parts ttl origin :
    forallb leg_ok parts = true ->
    clean_entry true (wrapOk (bundlePayload parts) ttl origin
                             [("x-proxy-cache", "MISS-BUNDLE")]).

(** The cache after a step is the cache before, or that with one clean
    entry put in. *)
Definition writes_clean (bundle : bool) (c c' : gmap string Response) : Prop :=
  c' = c \/ exists key out, clean_entry bundle out /\ c' = <[key := out]> c.

(** A computation that leaves the cache alone, and one that puts at most
    one clean entry. *)
Definition keeps {A} (m : M A) : Prop :=
  forall w, cache (snd (m w)) = cache w.

Definition writes {A} (bundle : bool) (m : M A) : Prop :=
  forall w, writes_clean bundle (cache w) (cache (snd (m w))).

(** ** The handler as one function of the world

    What a producer, and the handler around it, returns and leaves behind,
    written without the monad: for any provider, one that rejects calls
    included.  The lemmas [singleProducer_outcome], [bundleProducer_outcome]
    and [onRequestGet_served] prove that the handler computes exactly
    this. *)

(** [Promise.all] over the answers of one round: the list of them, or the
    rejection of the first call that rejected. *)
Fixpoint collect (rs : list (option Fetched)) : Result (list Fetched) :=
  match rs with
  | [] => Ok []
  | r :: rs' =>
      match r, collect rs' with
      | Some x, Ok xs => Ok (x :: xs)
      | _, _ => Thrown
      end
  end.

(** What the provider gives to one round of calls, [k] rounds after [w]. *)
Definition answers_of (host : Host) (w : World) (urls : list Url) (k : nat)
  : list (option Fetched) :=
  map (fun u => fetched_of <$> provider host u (count_occ Url_eq_dec (fetched w) u + k)%nat)
      urls.

(** A producer resolves with [out], after the calls [calls] and the waits
    [waits], having put [out] under [key] when [store] is set. *)
Definition conclude (out : Response) (store : bool) (key : string) (w : World)
    (calls : list Url) (waits : list Z) : Result Response * World :=
  (Ok out,
   mkWorld (if store then <[key := out]> (cache w) else cache w) (inflight w)
           (fetched w ++ calls) (timers w ++ waits)).

(** A producer rejects after the calls [calls] and the waits [waits]. *)
Definition abort (w : World) (calls : list Url) (waits : list Z)
  : Result Response * World :=
  (Thrown, mkWorld (cache w) (inflight w) (fetched w ++ calls) (timers w ++ waits)).

Definition singleOutcome (host : Host) (origin : string) (url : Url) (ttl : Z)
    (nocache : bool) (key : string) (w : World) : Result Response * World :=
  let n := count_occ Url_eq_dec (fetched w) url in
  match provider host url n with
  | None => abort w [url] []
  | Some ra =>
      let r1 := fetched_of ra in
      if is_problem r1 then
        match provider host url (S n) with
        | None => abort w [url; url] [retryDelay host]
        | Some rb =>
            let r2 := fetched_of rb in
            conclude (answerFor origin ttl r2) (leg_ok r2 && negb nocache) key w
                     [url; url] [retryDelay host]
        end
      else conclude (answerFor origin ttl r1) (leg_ok r1 && negb nocache) key w [url] []
  end.

Definition bundleOutcome (host : Host) (origin : string) (urls : list Url) (ttl : Z)
    (nocache : bool) (key : string) (w : World) : Result Response * World :=
  match collect (answers_of host w urls 0) with
  | Thrown => abort w urls []
  | Ok p1 =>
      if existsb is_problem p1 then
        match collect (answers_of host w urls 1) with
        | Thrown => abort w (urls ++ urls) [bundleDelay host]
        | Ok p2 =>
            conclude (bundleAnswer origin ttl p2) (forallb leg_ok p2 && negb nocache) key w
                     (urls ++ urls) [bundleDelay host]
        end
      else
        conclude (bundleAnswer origin ttl p1) (forallb leg_ok p1 && negb nocache) key w
                 urls []
  end.

(** Around the outcome of a producer: a caller that finds the flight
    pending joins it; otherwise the producer's outcome is the caller's. *)
Definition viaFlight (flight : string) (outcome : Result Response * World) (w : World)
  : Result Flight * World :=
  if bool_decide (flight ∈ inflight w) then (Ok (Joined flight), w)
  else
    (match fst outcome with
     | Ok r => Ok (Responded r)
     | Thrown => Thrown
     end, snd outcome).

Definition served (host : Host) (request : Request) (env : Env) (w : World)
  : Result Flight * World :=
  let origin := url_origin request in
  let nocache := nocache_of request in
  if falsy_str (ALPHA_API_KEY env) then
    (Ok (Responded (json (JObj [("error", JStr "ALPHA_API_KEY is not configured.")])
                         500 origin [])), w)
  else if String.eqb (symbol_of request) "" then
    (Ok (Responded (json (JObj [("error", JStr "Bad request: missing symbol.")])
                         400 origin [])), w)
  else if is_one (q_bundle request) then
    match (if nocache then None else cache w !! bundleKey_of request) with
    | Some hit => (Ok (Responded (serveHit hit DEFAULT_TTL)), w)
    | None =>
        viaFlight (bundleFlightKey_of request)
          (bundleOutcome host origin (bundleUrls (symbol_of request) env) DEFAULT_TTL
                         nocache (bundleKey_of request) w) w
    end
  else if String.eqb (fn_of request) "" || negb (ALLOWED_has (fn_of request)) then
    (Ok (Responded (json (JObj [("error", JStr "Bad request: missing/invalid function.")])
                         400 origin [])), w)
  else
    match (if nocache then None else cache w !! cacheKey_of request) with
    | Some hit =>
        (Ok (Responded (serveHit hit (default DEFAULT_TTL (TTL_MAP (fn_of request))))), w)
    | None =>
        viaFlight (flightKey_of request)
          (singleOutcome host origin (url_of request env)
                         (default DEFAULT_TTL (TTL_MAP (fn_of request))) nocache
                         (cacheKey_of request) w) w
    end.

(** The cache key a request reads and writes. *)
Definition own_key (request : Request) : string :=
  if is_one (q_bundle request) then bundleKey_of request else cacheKey_of request.

(** The request with its function and symbol upper-cased. *)
Definition normalised (request : Request) : Request :=
  mkRequest (url_origin request) (toUpperCase <$> q_function request) (q_bundle request)
            (toUpperCase <$> q_symbol request) (q_nocache request).

(** The four cross-origin headers of [cors]. *)
Definition has_cors (origin : string) (r : Response) : Prop :=
  hget "Access-Control-Allow-Origin" (resp_headers r)
    = Some (if String.eqb origin "" then "*" else origin) /\
  hget "Access-Control-Allow-Methods" (resp_headers r) = Some "GET, OPTIONS" /\
  hget "Access-Control-Allow-Headers" (resp_headers r) = Some "Content-Type" /\
  hget "Vary" (resp_headers r) = Some "Origin".

(** Every cached entry is a 200. *)
Definition all_200 (c : gmap string Response) : Prop :=
  forall key e, c !! key = Some e -> resp_status e = 200.

(** A response that the handler built itself (no cache hit): the headers
    every such response has, and the two shapes it takes past validation:
    the 200 of [wrapOk] and the 429 of [wrap429]. *)
Definition json_typed (r : Response) : Prop :=
  hget "content-type" (resp_headers r) = Some "application/json; charset=utf-8".

Definition built (bundle : bool) (origin : string) (r : Response) : Prop :=
  has_cors origin r /\ json_typed r /\
  ((resp_status r = 200 /\
    hget "x-proxy-cache" (resp_headers r) = Some (if bundle then "MISS-BUNDLE" else "MISS") /\
    hget "cache-control" (resp_headers r) = Some (cacheControl DEFAULT_TTL) /\
    hget "Retry-After" (resp_headers r) = None) \/
   (resp_status r = 429 /\
    hget "x-proxy-cache" (resp_headers r) = None /\
    hget "Retry-After" (resp_headers r) = Some "65")).

(** What a producer does to the world: it calls the provider for one round
    of [urls], or for two rounds with one wait in between, and touches
    nothing else, except that a 200 is put under [key] unless the cache is
    bypassed; it rejects only after a call that the provider rejected. *)
Definition tidy_outcome (host : Host) (bundle nocache : bool) (origin key : string)
    (urls : list Url) (w : World) (x : Result Response * World) : Prop :=
  inflight (snd x) = inflight w /\
  ((fetched (snd x) = fetched w ++ urls /\ timers (snd x) = timers w) \/
   (fetched (snd x) = fetched w ++ urls ++ urls /\
    timers (snd x) = timers w ++ [if bundle then bundleDelay host else retryDelay host])) /\
  match fst x with
  | Thrown =>
      cache (snd x) = cache w /\
      exists u n, In u urls /\ provider host u n = None
  | Ok out =>
      built bundle origin out /\
      cache (snd x) =
        if (resp_status out =? 200) && negb nocache then <[key := out]> (cache w)
        else cache w
  end.

(** The provider addresses a request may call. *)
Definition request_urls (request : Request) (env : Env) : list Url :=
  if is_one (q_bundle request) then bundleUrls (symbol_of request) env
  else [url_of request env].

(** The caller's view of a producer's outcome. *)
Definition flown (x : Result Response * World) : Result Flight * World :=
  (match fst x with
   | Ok r => Ok (Responded r)
   | Thrown => Thrown
   end, snd x).

(** The four ways a request is dealt with: refused by the validation,
    served from the cache, suspended on a pending flight, or answered by a
    producer. *)
Inductive dealt (host : Host) (request : Request) (env : Env) (w : World)
  : Result Flight * World -> Prop :=
| dealt_refused r :
    per_function request env || bundled request env = false ->
    resp_status r = 400 \/ resp_status r = 500 ->
    has_cors (url_origin request) r -> json_typed r ->
    hget "x-proxy-cache" (resp_headers r) = None ->
    hget "Retry-After" (resp_headers r) = None ->
    dealt host request env w (Ok (Responded r), w)
| dealt_hit hit :
    per_function request env || bundled request env = true ->
    nocache_of request = false ->
    cache w !! own_key request = Some hit ->
    dealt host request env w (Ok (Responded (serveHit hit DEFAULT_TTL)), w)
| dealt_joined :
    per_function request env || bundled request env = true ->
    nocache_of request = true \/ cache w !! own_key request = None ->
    flight_of request ∈ inflight w ->
    dealt host request env w (Ok (Joined (flight_of request)), w)
| dealt_flown x :
    per_function request env || bundled request env = true ->
    nocache_of request = true \/ cache w !! own_key request = None ->
    flight_of request ∉ inflight w ->
    tidy_outcome host (is_one (q_bundle request)) (nocache_of request) (url_origin request)
                 (own_key request) (request_urls request env) w x ->
    dealt host request env w (flown x).

(** The property of the bundle payload under which the answer for the
    function [fn] is put: [urls] and the payload list the functions in the
    same order. *)
Definition bundle_part (fn : string) : string :=
  if String.eqb fn "INCOME_STATEMENT" then "income_statement"
  else if String.eqb fn "BALANCE_SHEET" then "balance_sheet"
  else if String.eqb fn "CASH_FLOW" then "cash_flow"
  else "overview".

(** A provider whose answer depends on the address only. *)
Definition steady (answer : Url -> Reply) (rnd : Q) : Host :=
  responding (fun u _ => answer u) rnd.

(** The address a request of the first revision works with. *)
Definition rev1_address (request : Request) (env : Env) : Url :=
  Rev1.upstream (or_empty (q_function request)) (symbol_of request) env.

(** The request passes the validation of the first two revisions. *)
Definition accepted (request : Request) : bool :=
  negb (String.eqb (or_empty (q_function request)) "" ||
        String.eqb (symbol_of request) "" ||
        negb (ALLOWED_has (or_empty (q_function request)))).

(** What a bundle run that ended with the round [parts], after the calls
    [calls], has done: 200 and the bundle exactly when every leg is clean,
    written under the bundle key unless [nocache=1]; otherwise 429. *)
Definition bundle_settled (request : Request) (w : World) (run : Result Flight * World)
    (parts : list Fetched) (calls : list Url) : Prop :=
  let out := wrapOk (bundlePayload parts) DEFAULT_TTL (url_origin request)
                    [("x-proxy-cache", "MISS-BUNDLE")] in
  fetched (world_of run) = fetched w ++ calls /\
  (status_of run = Some 200 <-> forallb leg_ok parts = true) /\
  (forallb leg_ok parts = true ->
     response_of run = Some out /\
     cache (world_of run) =
       if nocache_of request then cache w else <[bundleKey_of request := out]> (cache w)) /\
  (forallb leg_ok parts = false ->
     status_of run = Some 429 /\ cache (world_of run) = cache w).

(** A run that rejects after the calls [calls], the cache as it was. *)
Definition rejected_after (w : World) (run : Result Flight * World) (calls : list Url)
  : Prop :=
  fst run = Thrown /\
  fetched (world_of run) = fetched w ++ calls /\
  cache (world_of run) = cache w.

(** The entries of an object that [new Headers] files under [k]. *)
Definition filed (k : string) (obj : Headers) : Headers :=
  List.filter (fun kv => String.eqb (Rev2.toLowerCase (fst kv)) k) obj.

(** The value of a header to which the values [vs] are appended. *)
Definition joined (o : option string) (vs : list string) : option string :=
  fold_left (fun o v => Some match o with
                             | Some v0 => v0 +:+ ", " +:+ v
                             | None => v
                             end) vs o.

(** Names in lower case, each once: what [new Headers] leaves. *)
Definition tidy (hs : Headers) : Prop :=
  Forall (fun kv => Rev2.toLowerCase (fst kv) = fst kv) hs /\ NoDup (map fst hs).

(** ** Properties of the classifier *)

Lemma avProblem_guard data status :
  truthy data && String.eqb (typeof data) "object" = false ->
  avProblem data status = None.
Proof.
  unfold avProblem. intros H.
  destruct (truthy data); destruct (String.eqb (typeof data) "object");
    simpl in *; congruence.
Qed.

Lemma prop_some_object data k v :
  prop data k = Some v -> truthy data = true /\ typeof data = "object".
Proof. destruct data; simpl; intros H; try discriminate; auto. Qed.

Lemma flagged_some o status kind p :
  flagged o status kind = Some p ->
  o = Some (p_msg p) /\ truthy (p_msg p) = true /\ p_status p = status /\ p_kind p = kind.
Proof.
  unfold flagged. destruct o as [v|]; [|discriminate].
  destruct (truthy v) eqn:Hv; [|discriminate].
  intros [= <-]. simpl. auto.
Qed.

Lemma flagged_none o status kind :
  flagged o status kind = None <-> truthy_prop o = false.
Proof.
  unfold flagged, truthy_prop. destruct o as [v|]; [|tauto].
  destruct (truthy v); split; congruence.
Qed.

Lemma avProblem_status data status p :
  avProblem data status = Some p -> p_status p = 429 \/ p_status p = 400.
Proof.
  unfold avProblem.
  destruct (negb (truthy data) || negb (String.eqb (typeof data) "object")); [discriminate|].
  destruct (status =? 429); [intros [= <-]; auto|].
  destruct (flagged (prop data "Note") 429 "note") eqn:H1.
  { intros [= <-]. apply flagged_some in H1. tauto. }
  destruct (flagged (prop data "Information") 429 "info") eqn:H2.
  { intros [= <-]. apply flagged_some in H2. tauto. }
  intros H3. apply flagged_some in H3. tauto.
Qed.

(** C7, as stated, fails on the classifier: a reply with HTTP status 429
    whose body is absent or did not parse ([data] is [null]) is not
    classified, because the guard on the body is the first line of
    [avProblem]; neither is a body that parsed to a string.  The
    per-function path then makes no second call and labels its response
    "upstream". *)
Lemma status_429_unparsed_not_classified :
  let reply := mkReply 429 "<html>slow down</html>" None in
  let run := onRequestGet (always reply) (overview_request None) demo_env fresh_world in
  avProblem JNull 429 = None /\
  avProblem (JStr "Too Many Requests") 429 = None /\
  is_problem (fetched_of reply) = false /\
  length (fetched (world_of run)) = 1%nat /\
  (fun r => prop (resp_body r) "kind") <$> response_of run = Some (Some (JStr "upstream")).
Proof. repeat split; vm_compute; reflexivity. Qed.

(** C7, amended: when the HTTP status is 429 and the body parsed to an
    object (a truthy value of type "object"), the classifier yields the
    rate-limit problem of kind "429" whatever fields the body has: the
    status rule comes before the rules that read the body's fields. *)
Theorem status_429_with_object_body data :
  truthy data = true -> typeof data = "object" ->
  avProblem data 429 = Some (mkProblem 429 (JStr "rate_limited") "429").
Proof.
  unfold avProblem. intros Ht Ho. rewrite Ht, Ho. reflexivity.
Qed.

Lemma status_429_with_object_body_witness :
  avProblem (JObj [("Error Message", JStr "Invalid API call.")]) 429
  = Some (mkProblem 429 (JStr "rate_limited") "429").
Proof. apply status_429_with_object_body; reflexivity. Defined.

(** With an object for a body the same status is classified, and the call
    is retried. *)
Lemma status_429_with_object_is_retried :
  let reply := json_reply 429 (JObj [("message", JStr "slow down")]) in
  let run := onRequestGet (always reply) (overview_request None) demo_env fresh_world in
  p_kind <$> avProblem (f_data (fetched_of reply)) 429 = Some "429" /\
  length (fetched (world_of run)) = 2%nat.
Proof. repeat split; vm_compute; reflexivity. Qed.

(** ** Routing *)

(** C10: without the upstream credential every request is answered 500,
    whatever its parameters, and nothing is read, fetched or written. *)
Theorem credential_check_first host request env w :
  falsy_str (ALPHA_API_KEY env) = true ->
  exists r,
    onRequestGet host request env w = (Ok (Responded r), w) /\ resp_status r = 500.
Proof.
  intros Hkey. unfold onRequestGet. rewrite Hkey.
  eexists. split; [reflexivity | reflexivity].
Qed.

Lemma credential_check_first_witness :
  exists r,
    onRequestGet (always (mkReply 200 "{}" (Some (JObj []))))
      (mkRequest "https://ratios.example" (Some "DIVIDENDS") None None None)
      (mkEnv None) fresh_world = (Ok (Responded r), fresh_world) /\
    resp_status r = 500.
Proof. apply credential_check_first. reflexivity. Defined.

Lemma toUpperCase_empty s : toUpperCase s = "" <-> s = "".
Proof. destruct s; simpl; split; congruence. Qed.

Lemma onRequestGet_bundle host request env :
  falsy_str (ALPHA_API_KEY env) = false ->
  or_empty (q_symbol request) <> "" ->
  is_one (q_bundle request) = true ->
  onRequestGet host request env =
  bundleMode host (url_origin request) (symbol_of request) env (is_one (q_nocache request)).
Proof.
  intros Hkey Hsym Hb. unfold onRequestGet, bundleMode, symbol_of.
  rewrite Hkey, Hb.
  destruct (String.eqb_spec (toUpperCase (or_empty (q_symbol request))) "") as [E|_].
  - apply (proj1 (toUpperCase_empty _)) in E. contradiction.
  - reflexivity.
Qed.

Lemma onRequestGet_function host request env :
  falsy_str (ALPHA_API_KEY env) = false ->
  or_empty (q_symbol request) <> "" ->
  is_one (q_bundle request) = false ->
  ALLOWED_has (fn_of request) = true ->
  onRequestGet host request env =
  functionMode host (url_origin request) (fn_of request) (symbol_of request) env
               (is_one (q_nocache request)).
Proof.
  intros Hkey Hsym Hb Hfn. unfold onRequestGet, functionMode, symbol_of.
  unfold fn_of in *. rewrite Hkey, Hb, Hfn.
  destruct (String.eqb_spec (toUpperCase (or_empty (q_symbol request))) "") as [E|_].
  - apply (proj1 (toUpperCase_empty _)) in E. contradiction.
  - destruct (String.eqb_spec (toUpperCase (or_empty (q_function request))) "") as [E|_].
    + rewrite E in Hfn. discriminate.
    + reflexivity.
Qed.

(** C9, as stated, fails where the credential is missing: the request
    below has no symbol and is answered 500, not 400. *)
Lemma missing_symbol_without_credential :
  let request := mkRequest "https://ratios.example" (Some "OVERVIEW") None None None in
  or_empty (q_symbol request) = "" /\
  status_of (onRequestGet (always (mkReply 200 "{}" (Some (JObj []))))
                          request (mkEnv None) fresh_world) = Some 500.
Proof. split; reflexivity. Qed.

(** C9, amended: once the credential is configured, a request without a
    symbol is answered 400 whatever else it carries; with [bundle=1] and a
    symbol of ASCII text the handler runs the bundle block on the
    upper-cased symbol, and the function parameter does not occur in that
    block; without [bundle=1], a function of ASCII text that after
    upper-casing is empty or not one of the four kinds is answered 400. *)
Theorem routing_with_credential host request env w :
  falsy_str (ALPHA_API_KEY env) = false ->
  (or_empty (q_symbol request) = "" ->
   exists r, onRequestGet host request env w = (Ok (Responded r), w) /\ resp_status r = 400) /\
  (or_empty (q_symbol request) <> "" ->
   ascii_text (or_empty (q_symbol request)) = true ->
   is_one (q_bundle request) = true ->
   onRequestGet host request env w =
   bundleMode host (url_origin request) (symbol_of request) env
              (is_one (q_nocache request)) w) /\
  (or_empty (q_symbol request) <> "" -> is_one (q_bundle request) = false ->
   ascii_text (or_empty (q_function request)) = true ->
   ALLOWED_has (fn_of request) = false ->
   exists r, onRequestGet host request env w = (Ok (Responded r), w) /\ resp_status r = 400).
Proof.
  intros Hkey. split; [|split].
  - intros Hsym. unfold onRequestGet. rewrite Hkey, Hsym. simpl.
    eexists; split; reflexivity.
  - intros Hsym _ Hb. rewrite onRequestGet_bundle by assumption. reflexivity.
  - intros Hsym Hb _ Hfn. unfold onRequestGet. unfold fn_of in Hfn.
    rewrite Hkey, Hb, Hfn.
    destruct (String.eqb_spec (toUpperCase (or_empty (q_symbol request))) "") as [E|_].
    { apply (proj1 (toUpperCase_empty _)) in E. contradiction. }
    rewrite orb_true_r. eexists; split; reflexivity.
Qed.

Lemma routing_with_credential_witness :
  let host := always (mkReply 200 "{}" (Some (JObj [("Symbol", JStr "IBM")]))) in
  let request := mkRequest "https://ratios.example" (Some "DIVIDENDS") (Some "1")
                           (Some "ibm") None in
  onRequestGet host request (mkEnv (Some "demo")) fresh_world =
  bundleMode host "https://ratios.example" "IBM" (mkEnv (Some "demo")) false fresh_world.
Proof.
  intros host request.
  refine (proj1 (proj2 (routing_with_credential host request (mkEnv (Some "demo"))
                          fresh_world _)) _ _ _).
  - reflexivity.
  - discriminate.
  - reflexivity.
  - reflexivity.
Defined.

(** ** Running the producers against a provider that answers *)

Lemma fetchOnce_responding answers rnd url w :
  fetchOnce (responding answers rnd) url w =
  (Ok (fetched_of (answers url (count_occ Url_eq_dec (fetched w) url))),
   mkWorld (cache w) (inflight w) (fetched w ++ [url]) (timers w)).
Proof. reflexivity. Qed.

Lemma is_problem_not_ok r : is_problem r = true -> leg_ok r = false.
Proof. unfold leg_ok. intros ->. rewrite andb_false_r. reflexivity. Qed.

Lemma singleProducer_run answers rnd origin url ttl nocache key w :
  let host := responding answers rnd in
  let n := count_occ Url_eq_dec (fetched w) url in
  let r1 := fetched_of (answers url n) in
  let r := if is_problem r1 then fetched_of (answers url (S n)) else r1 in
  let out := answerFor origin ttl r in
  singleProducer host origin url ttl nocache key w =
  (Ok out,
   mkWorld (if leg_ok r && negb nocache then <[key := out]> (cache w) else cache w)
           (inflight w)
           (fetched w ++ (if is_problem r1 then [url; url] else [url]))
           (timers w ++ (if is_problem r1 then [retryDelay host] else []))).
Proof.
  intros host n r1 r out. subst out r host.
  unfold singleProducer, bind. rewrite fetchOnce_responding. fold n. fold r1.
  destruct (is_problem r1) eqn:Hp.
  - unfold sleep at 1. cbn [fst snd]. rewrite fetchOnce_responding. cbn [fetched cache inflight timers].
    rewrite count_occ_app. cbn [count_occ]. destruct (Url_eq_dec url url); [|contradiction].
    fold n. replace (n + 1)%nat with (S n) by lia.
    set (r2 := fetched_of (answers url (S n))).
    unfold answerFor, leg_ok.
    destruct (f_ok r2 && negb (is_problem r2) && truthy (f_data r2)) eqn:Hok.
    + destruct nocache; cbn; rewrite <- !app_assoc; reflexivity.
    + cbn. rewrite <- !app_assoc. reflexivity.
  - unfold ret at 1. rewrite !app_nil_r.
    unfold answerFor, leg_ok.
    destruct (f_ok r1 && negb (is_problem r1) && truthy (f_data r1)) eqn:Hok.
    + destruct nocache; cbn; reflexivity.
    + cbn. destruct w; reflexivity.
Qed.

Lemma registry_restored (key : string) (s : gset string) :
  key ∉ s -> ({[key]} ∪ s) ∖ {[key]} = s.
Proof.
  intros Hfree. apply set_eq. intros x.
  rewrite elem_of_difference, elem_of_union, !elem_of_singleton.
  split.
  - intros [[->|Hx] Hne]; [congruence | exact Hx].
  - intros Hx. split; [right; exact Hx | intros ->; contradiction].
Qed.

Lemma singleFlight_run key (fn : M Response) w r w1 :
  key ∉ inflight w ->
  fn (set_inflight ({[key]} ∪ inflight w) w) = (Ok r, w1) ->
  inflight w1 = {[key]} ∪ inflight w ->
  singleFlight key fn w = (Ok (Responded r), set_inflight (inflight w) w1).
Proof.
  intros Hfree Hfn Hin. unfold singleFlight.
  rewrite decide_False by assumption. rewrite Hfn, Hin.
  rewrite registry_restored by assumption. reflexivity.
Qed.

(** A caller that finds its key pending is suspended on the flight of
    another caller and does nothing else. *)
Lemma singleFlight_joined key (fn : M Response) w :
  key ∈ inflight w -> singleFlight key fn w = (Ok (Joined key), w).
Proof. intros Hin. unfold singleFlight. rewrite decide_True by assumption. reflexivity. Qed.

(** The key is registered while the producer runs and deleted afterwards,
    whether the producer resolved or rejected. *)
Lemma singleFlight_finally key (fn : M Response) w :
  key ∉ inflight w ->
  inflight (snd (singleFlight key fn w)) =
  inflight (snd (fn (set_inflight ({[key]} ∪ inflight w) w))) ∖ {[key]}.
Proof.
  intros Hfree. unfold singleFlight. rewrite decide_False by assumption.
  destruct (fn _) as [[r|] w1]; reflexivity.
Qed.

Lemma functionMode_run answers rnd origin fn symbol env nocache w :
  let host := responding answers rnd in
  let ttl := default DEFAULT_TTL (TTL_MAP fn) in
  let key := cacheKeyStr [fn; symbol] in
  let url := upstreamFor symbol env fn in
  let n := count_occ Url_eq_dec (fetched w) url in
  let r1 := fetched_of (answers url n) in
  let r := if is_problem r1 then fetched_of (answers url (S n)) else r1 in
  let out := answerFor origin ttl r in
  nocache = true \/ cache w !! key = None ->
  cacheKeyStr ["FETCH"; fn; symbol] ∉ inflight w ->
  functionMode host origin fn symbol env nocache w =
  (Ok (Responded out),
   mkWorld (if leg_ok r && negb nocache then <[key := out]> (cache w) else cache w)
           (inflight w)
           (fetched w ++ (if is_problem r1 then [url; url] else [url]))
           (timers w ++ (if is_problem r1 then [retryDelay host] else []))).
Proof.
  intros host ttl key url n r1 r out Hmiss Hfree.
  unfold functionMode, bind.
  assert ((if nocache then ret None else cache_match (cacheKeyStr [fn; symbol])) w
          = (Ok None, w)) as ->.
  { destruct Hmiss as [-> | Hnone]; [reflexivity|].
    destruct nocache; [reflexivity|]. unfold cache_match. fold key. rewrite Hnone.
    reflexivity. }
  erewrite singleFlight_run; [| assumption | apply singleProducer_run | reflexivity].
  reflexivity.
Qed.

Lemma functionMode_hit host origin fn symbol env w hit :
  cache w !! cacheKeyStr [fn; symbol] = Some hit ->
  functionMode host origin fn symbol env false w =
  (Ok (Responded (serveHit hit (default DEFAULT_TTL (TTL_MAP fn)))), w).
Proof.
  intros Hhit. unfold functionMode, bind, cache_match. rewrite Hhit. reflexivity.
Qed.

Lemma bundleUrls_NoDup symbol env : NoDup (bundleUrls symbol env).
Proof.
  unfold bundleUrls, upstreamFor. cbn [map].
  repeat (apply NoDup_cons; split;
          [rewrite ?elem_of_cons, elem_of_nil; intros H;
           repeat (destruct H as [H|H]; [discriminate H|]); exact H |]).
  apply NoDup_nil. trivial.
Qed.

Lemma count_occ_snoc_ne (l : list Url) (u u' : Url) :
  u' <> u -> count_occ Url_eq_dec (l ++ [u]) u' = count_occ Url_eq_dec l u'.
Proof.
  intros Hne. rewrite count_occ_app. cbn [count_occ].
  destruct (Url_eq_dec u u'); [congruence | lia].
Qed.

Lemma fetchAll_responding answers rnd urls : forall w,
  NoDup urls ->
  fetchAll (responding answers rnd) urls w =
  (Ok (round answers w urls 0),
   mkWorld (cache w) (inflight w) (fetched w ++ urls) (timers w)).
Proof.
  induction urls as [|u us IH]; intros w Hnd.
  - cbn. rewrite app_nil_r. destruct w; reflexivity.
  - apply NoDup_cons in Hnd as [Hnotin Hnd].
    cbn [fetchAll]. rewrite fetchOnce_responding, IH by assumption.
    cbn [cache inflight fetched timers]. rewrite <- app_assoc. cbn [app].
    f_equal. f_equal. unfold round. cbn [map fetched]. f_equal.
    + rewrite Nat.add_0_r. reflexivity.
    + apply map_ext_in. intros u' Hin.
      rewrite count_occ_snoc_ne; [reflexivity|].
      intros ->. apply Hnotin. apply list_elem_of_In. exact Hin.
Qed.

Lemma count_occ_NoDup_app (l urls : list Url) (u : Url) :
  NoDup urls -> In u urls ->
  count_occ Url_eq_dec (l ++ urls) u = S (count_occ Url_eq_dec l u).
Proof.
  intros Hnd Hin. rewrite count_occ_app.
  assert (count_occ Url_eq_dec urls u = 1%nat) as ->; [|lia].
  apply NoDup_count_occ' with (decA := Url_eq_dec); [|exact Hin].
  apply NoDup_ListNoDup. exact Hnd.
Qed.

Lemma round_next answers w urls c t :
  NoDup urls ->
  round answers (mkWorld c (inflight w) (fetched w ++ urls) t) urls 0 =
  round answers w urls 1.
Proof.
  intros Hnd. unfold round. cbn [fetched]. apply map_ext_in. intros u Hin.
  rewrite count_occ_NoDup_app by assumption. do 2 f_equal. lia.
Qed.

Lemma bundleProducer_run answers rnd origin urls ttl nocache key w :
  let host := responding answers rnd in
  let throttled := existsb is_problem (round answers w urls 0) in
  let parts := if throttled then round answers w urls 1 else round answers w urls 0 in
  let out := bundleAnswer origin ttl parts in
  NoDup urls ->
  bundleProducer host origin urls ttl nocache key w =
  (Ok out,
   mkWorld (if forallb leg_ok parts && negb nocache then <[key := out]> (cache w)
            else cache w)
           (inflight w)
           (fetched w ++ (if throttled then urls ++ urls else urls))
           (timers w ++ (if throttled then [bundleDelay host] else []))).
Proof.
  intros host throttled parts out Hnd. subst out parts throttled host.
  unfold bundleProducer, bind. rewrite fetchAll_responding by assumption.
  destruct (existsb is_problem (round answers w urls 0)) eqn:Hthr.
  - unfold sleep at 1. rewrite fetchAll_responding by assumption.
    cbn [cache inflight fetched timers].
    rewrite (round_next answers w urls (cache w) (timers w ++ [bundleDelay (responding answers rnd)]) Hnd).
    unfold bundleAnswer.
    destruct (forallb leg_ok (round answers w urls 1)) eqn:Hok.
    + destruct nocache; cbn; rewrite <- !app_assoc; reflexivity.
    + cbn. rewrite <- !app_assoc. reflexivity.
  - unfold ret at 1. rewrite !app_nil_r. unfold bundleAnswer.
    destruct (forallb leg_ok (round answers w urls 0)) eqn:Hok.
    + destruct nocache; cbn; reflexivity.
    + cbn. reflexivity.
Qed.

Lemma bundleMode_run answers rnd origin symbol env nocache w :
  let host := responding answers rnd in
  let ttl := DEFAULT_TTL in
  let key := cacheKeyStr ["BUNDLE"; symbol] in
  let urls := bundleUrls symbol env in
  let throttled := existsb is_problem (round answers w urls 0) in
  let parts := if throttled then round answers w urls 1 else round answers w urls 0 in
  let out := bundleAnswer origin ttl parts in
  goes_upstream nocache key (cacheKeyStr ["BUNDLE-FETCH"; symbol]) w = true ->
  bundleMode host origin symbol env nocache w =
  (Ok (Responded out),
   mkWorld (if forallb leg_ok parts && negb nocache then <[key := out]> (cache w)
            else cache w)
           (inflight w)
           (fetched w ++ (if throttled then urls ++ urls else urls))
           (timers w ++ (if throttled then [bundleDelay host] else []))).
Proof.
  intros host ttl key urls throttled parts out Hgo.
  apply andb_prop in Hgo as [Hmiss Hfree]. apply bool_decide_eq_true in Hfree.
  unfold bundleMode, bind.
  assert ((if nocache then ret None else cache_match (cacheKeyStr ["BUNDLE"; symbol])) w
          = (Ok None, w)) as ->.
  { destruct nocache; [reflexivity|]. unfold cache_match, cached in *. fold key in Hmiss |- *.
    destruct (cache w !! key); [discriminate | reflexivity]. }
  fold (bundleUrls symbol env). fold urls.
  erewrite singleFlight_run;
    [| assumption | apply bundleProducer_run, bundleUrls_NoDup | reflexivity].
  reflexivity.
Qed.

(** What a per-function request that goes to the provider does, in full. *)
Lemma per_function_run answers rnd request env w :
  let host := responding answers rnd in
  let nocache := nocache_of request in
  let ttl := default DEFAULT_TTL (TTL_MAP (fn_of request)) in
  let url := url_of request env in
  let n := count_occ Url_eq_dec (fetched w) url in
  let r1 := fetched_of (answers url n) in
  let r := if is_problem r1 then fetched_of (answers url (S n)) else r1 in
  let out := answerFor (url_origin request) ttl r in
  per_function request env = true ->
  goes_upstream nocache (cacheKey_of request) (flightKey_of request) w = true ->
  onRequestGet host request env w =
  (Ok (Responded out),
   mkWorld (if leg_ok r && negb nocache then <[cacheKey_of request := out]> (cache w)
            else cache w)
           (inflight w)
           (fetched w ++ (if is_problem r1 then [url; url] else [url]))
           (timers w ++ (if is_problem r1 then [retryDelay host] else []))).
Proof.
  intros host nocache ttl url n r1 r out Hreq Hgo.
  unfold per_function in Hreq.
  apply andb_prop in Hreq as [Hreq Hfn]. apply andb_prop in Hreq as [Hreq Hb].
  apply andb_prop in Hreq as [Hkey Hsym].
  apply negb_true_iff in Hkey, Hsym, Hb. apply String.eqb_neq in Hsym.
  rewrite onRequestGet_function by assumption.
  apply andb_prop in Hgo as [Hmiss Hfree]. apply bool_decide_eq_true in Hfree.
  apply functionMode_run; [|exact Hfree].
  fold nocache. destruct nocache; [left; reflexivity | right].
  unfold cached in Hmiss. fold (cacheKey_of request).
  destruct (cache w !! cacheKey_of request); [discriminate | reflexivity].
Qed.

(** What a bundle request that goes to the provider does, in full. *)
Lemma bundled_run answers rnd request env w :
  let host := responding answers rnd in
  let nocache := nocache_of request in
  let urls := bundleUrls (symbol_of request) env in
  let throttled := existsb is_problem (round answers w urls 0) in
  let parts := if throttled then round answers w urls 1 else round answers w urls 0 in
  let out := bundleAnswer (url_origin request) DEFAULT_TTL parts in
  bundled request env = true ->
  goes_upstream nocache (bundleKey_of request) (bundleFlightKey_of request) w = true ->
  onRequestGet host request env w =
  (Ok (Responded out),
   mkWorld (if forallb leg_ok parts && negb nocache
            then <[bundleKey_of request := out]> (cache w) else cache w)
           (inflight w)
           (fetched w ++ (if throttled then urls ++ urls else urls))
           (timers w ++ (if throttled then [bundleDelay host] else []))).
Proof.
  intros host nocache urls throttled parts out Hreq Hgo.
  unfold bundled in Hreq.
  apply andb_prop in Hreq as [Hreq Hb]. apply andb_prop in Hreq as [Hkey Hsym].
  apply negb_true_iff in Hkey, Hsym. apply String.eqb_neq in Hsym.
  rewrite onRequestGet_bundle by assumption.
  apply bundleMode_run. exact Hgo.
Qed.

(** ** Upstream failures (per-function block) *)

Lemma unparsed_is_unclassified status text :
  is_problem (fetched_of (mkReply status text None)) = false /\
  leg_ok (fetched_of (mkReply status text None)) = false.
Proof.
  unfold is_problem, leg_ok, fetched_of. cbn. rewrite andb_false_r. auto.
Qed.

Lemma failed_reply_not_ok (ra : Reply) :
  r_json ra = None \/
  (status_ok (r_status ra) = false /\ is_problem (fetched_of ra) = false) ->
  is_problem (fetched_of ra) = false /\ leg_ok (fetched_of ra) = false.
Proof.
  intros [Hnone | [Hst Hp]].
  - destruct ra as [st tx js]. cbn in Hnone. subst js. apply unparsed_is_unclassified.
  - split; [exact Hp|]. unfold leg_ok. cbn [f_ok fetched_of]. rewrite Hst. reflexivity.
Qed.

(** C2, as stated, fails on the handler: the provider answers 500 with an
    empty object, and the response is 429, not 502. *)
Lemma server_error_answered_429 :
  let run := onRequestGet (always server_error_reply) (overview_request None)
                          demo_env fresh_world in
  status_ok (r_status server_error_reply) = false /\
  is_problem (fetched_of server_error_reply) = false /\
  status_of run = Some 429 /\
  (hget "Retry-After" ∘ resp_headers) <$> response_of run = Some (Some "65").
Proof. repeat split; vm_compute; reflexivity. Qed.

(** C2, amended: a per-function request whose first answer is unclassified
    and either outside 200-299 or unparsed is not retried; the response is
    [wrap429] with kind "upstream" (HTTP status 429), one call was made and
    the cache is as before. *)
Theorem upstream_failure_answered_429 answers rnd request env w :
  let host := responding answers rnd in
  let url := url_of request env in
  let ra := answers url (count_occ Url_eq_dec (fetched w) url) in
  per_function request env = true ->
  goes_upstream (nocache_of request) (cacheKey_of request) (flightKey_of request) w = true ->
  r_json ra = None \/
  (status_ok (r_status ra) = false /\ is_problem (fetched_of ra) = false) ->
  onRequestGet host request env w =
  (Ok (Responded (wrap429 (JStr ("Upstream " +:+ pretty (r_status ra)))
                          (url_origin request) "upstream")),
   mkWorld (cache w) (inflight w) (fetched w ++ [url]) (timers w)) /\
  status_of (onRequestGet host request env w) = Some 429.
Proof.
  intros host url ra Hreq Hgo Hfail.
  apply failed_reply_not_ok in Hfail as [Hp Hok].
  assert (onRequestGet host request env w =
          (Ok (Responded (wrap429 (JStr ("Upstream " +:+ pretty (r_status ra)))
                                  (url_origin request) "upstream")),
           mkWorld (cache w) (inflight w) (fetched w ++ [url]) (timers w))) as Hrun.
  { subst host. rewrite per_function_run by assumption.
    fold url. fold ra. rewrite Hp. rewrite Hok. cbn [andb].
    rewrite app_nil_r. unfold answerFor. rewrite Hok.
    unfold is_problem in Hp.
    destruct (avProblem (f_data (fetched_of ra)) (f_status (fetched_of ra)));
      [discriminate | reflexivity]. }
  split; [exact Hrun|]. rewrite Hrun. reflexivity.
Qed.

Lemma upstream_failure_answered_429_witness :
  status_of (onRequestGet (responding (fun _ _ => unparsed_reply) (1 # 2))
                          (overview_request None) demo_env fresh_world) = Some 429.
Proof.
  refine (proj2 (upstream_failure_answered_429 (fun _ _ => unparsed_reply) (1 # 2)
                   (overview_request None) demo_env fresh_world _ _ _)).
  - reflexivity.
  - reflexivity.
  - left. reflexivity.
Defined.

(** The second revision answered the same replies with 502. *)
Lemma rev2_upstream_failure_answered_502 answers rnd request env w :
  let host := responding answers rnd in
  let fn := or_empty (q_function request) in
  let url := upstreamFor (symbol_of request) env fn in
  let ra := answers url (count_occ Url_eq_dec (fetched w) url) in
  ALLOWED_has fn = true ->
  or_empty (q_symbol request) <> "" ->
  falsy_str (ALPHA_API_KEY env) = false ->
  nocache_of request || negb (cached (Rev2.cacheKey fn (symbol_of request)) w) = true ->
  r_json ra = None \/
  (status_ok (r_status ra) = false /\ Rev2.avProblem (f_data (fetched_of ra)) = None) ->
  exists r w',
    Rev2.onRequestGet host request env w = (Ok r, w') /\
    resp_status r = 502 /\ cache w' = cache w.
Proof.
  intros host fn url ra Hfn Hsym Hkey Hmiss Hfail.
  unfold Rev2.onRequestGet. fold fn. rewrite Hfn, Hkey.
  destruct (String.eqb_spec fn "") as [E|_].
  { rewrite E in Hfn. discriminate. }
  destruct (String.eqb_spec (toUpperCase (or_empty (q_symbol request))) "") as [E|_].
  { apply (proj1 (toUpperCase_empty _)) in E. contradiction. }
  cbn [orb negb]. unfold bind.
  assert ((if is_one (q_nocache request) then ret None
           else cache_match (Rev2.cacheKey fn (toUpperCase (or_empty (q_symbol request))))) w
          = (Ok None, w)) as ->.
  { unfold nocache_of, cached, symbol_of in Hmiss.
    destruct (is_one (q_nocache request)); [reflexivity|].
    unfold cache_match.
    destruct (cache w !! Rev2.cacheKey fn (toUpperCase (or_empty (q_symbol request))));
      [discriminate | reflexivity]. }
  subst host. rewrite fetchOnce_responding. fold (symbol_of request). fold url. fold ra.
  destruct Hfail as [Hnone | [Hst Hp]].
  - destruct ra as [st tx js]. cbn in Hnone. subst js. cbn.
    rewrite orb_true_r. do 2 eexists. split; [reflexivity|]. split; reflexivity.
  - rewrite Hp. cbn [f_ok fetched_of]. rewrite Hst. cbn [negb orb].
    do 2 eexists. split; [reflexivity|]. split; reflexivity.
Qed.

(** ** The retry (per-function block) *)

Lemma Qfloor_below (x : Q) (b : Z) : (x < inject_Z b)%Q -> Qfloor x < b.
Proof.
  intros H. rewrite Zlt_Qlt. eapply Qle_lt_trans; [apply Qfloor_le | exact H].
Qed.

Lemma Qfloor_nonneg (x : Q) : (0 <= x)%Q -> 0 <= Qfloor x.
Proof. intros H. change 0 with (Qfloor (inject_Z 0)). apply Qfloor_resp_le. exact H. Qed.

Lemma scaled_draw (rnd : Q) (k : Z) :
  0 < k -> (0 <= rnd)%Q -> (rnd < 1)%Q -> 0 <= Qfloor (rnd * inject_Z k) < k.
Proof.
  intros Hk H0 H1. split.
  - apply Qfloor_nonneg. apply Qmult_le_0_compat; [exact H0|].
    change 0%Q with (inject_Z 0). rewrite <- Zle_Qle. lia.
  - apply Qfloor_below.
    assert (rnd * inject_Z k < 1 * inject_Z k)%Q as Hlt.
    { apply Qmult_lt_compat_r; [|exact H1].
      change 0%Q with (inject_Z 0). rewrite <- Zlt_Qlt. exact Hk. }
    rewrite Qmult_1_l in Hlt. exact Hlt.
Qed.

Lemma retryDelay_window answers rnd :
  (0 <= rnd)%Q -> (rnd < 1)%Q ->
  1000 <= retryDelay (responding answers rnd) <= 1499.
Proof.
  intros H0 H1. unfold retryDelay. cbn [random responding].
  pose proof (scaled_draw rnd 500 ltac:(lia) H0 H1). lia.
Qed.

Lemma bundleDelay_window answers rnd :
  (0 <= rnd)%Q -> (rnd < 1)%Q ->
  1200 <= bundleDelay (responding answers rnd) <= 1799.
Proof.
  intros H0 H1. unfold bundleDelay. cbn [random responding].
  pose proof (scaled_draw rnd 600 ltac:(lia) H0 H1). lia.
Qed.

(** C5, as stated, fails on the handler: the first answer is classified
    with status 400 (a provider error message, not a throttle), and the
    provider is called a second time all the same. *)
Lemma error_message_is_retried :
  let run := onRequestGet (always invalid_call_reply) (overview_request None)
                          demo_env fresh_world in
  p_status <$> avProblem (f_data (fetched_of invalid_call_reply))
                         (f_status (fetched_of invalid_call_reply)) = Some 400 /\
  length (fetched (world_of run)) = 2%nat /\
  length (timers (world_of run)) = 1%nat.
Proof. repeat split; vm_compute; reflexivity. Qed.

(** ** Provider error messages *)





(** ** The cache-bypass flag *)

Lemma with_cache_same w : with_cache (cache w) w = w.
Proof. destruct w; reflexivity. Qed.

(** C1, as stated, fails on the handler: a forced refresh of a key that
    has an entry is answered with the fresh payload, and the entry is not
    replaced; the next normal read is served the old entry. *)
Lemma forced_refresh_keeps_old_entry :
  let host := always good_reply in
  let w := mkWorld {[cacheKey_of (overview_request (Some "1")) := old_entry]} ∅ [] [] in
  let run := onRequestGet host (overview_request (Some "1")) demo_env w in
  let next := onRequestGet host (overview_request None) demo_env (world_of run) in
  status_of run = Some 200 /\
  resp_body <$> response_of run
    = Some (JObj [("Symbol", JStr "IBM"); ("PERatio", JStr "21.5")]) /\
  cache (world_of run) !! cacheKey_of (overview_request (Some "1")) = Some old_entry /\
  resp_body <$> response_of next
    = Some (JObj [("Symbol", JStr "IBM"); ("PERatio", JStr "19.0")]).
Proof. repeat split; vm_compute; reflexivity. Qed.

(** C1, amended: with [nocache=1] the handler neither reads nor writes the
    cache: the response is the same whatever the cache holds, the cache
    comes out as it went in (so the next normal read sees the entry, or
    the absence, that was there before), and the provider is called. *)
Theorem nocache_skips_read_and_write answers rnd request env w :
  let host := responding answers rnd in
  nocache_of request = true ->
  per_function request env || bundled request env = true ->
  bool_decide (flight_of request ∉ inflight w) = true ->
  (forall c, response_of (onRequestGet host request env (with_cache c w)) =
             response_of (onRequestGet host request env w)) /\
  (forall c, cache (world_of (onRequestGet host request env (with_cache c w))) = c) /\
  (exists u us, fetched (world_of (onRequestGet host request env w)) = fetched w ++ u :: us).
Proof.
  intros host Hnc Hmode Hfree. unfold flight_of in Hfree.
  destruct (per_function request env) eqn:Hpf.
  - assert (is_one (q_bundle request) = false) as Hb.
    { unfold per_function in Hpf. apply andb_prop in Hpf as [Hpf _].
      apply andb_prop in Hpf as [_ Hb]. apply negb_true_iff in Hb. exact Hb. }
    rewrite Hb in Hfree.
    assert (forall c, goes_upstream (nocache_of request) (cacheKey_of request)
                        (flightKey_of request) (with_cache c w) = true) as Hgo.
    { intros c. unfold goes_upstream. rewrite Hnc. cbn [orb andb inflight with_cache].
      exact Hfree. }
    assert (goes_upstream (nocache_of request) (cacheKey_of request)
              (flightKey_of request) w = true) as Hgo0.
    { rewrite <- (with_cache_same w). apply Hgo. }
    subst host. split; [|split].
    + intros c. rewrite !per_function_run by auto. reflexivity.
    + intros c. rewrite per_function_run by auto. rewrite Hnc.
      cbn. rewrite andb_false_r. reflexivity.
    + rewrite per_function_run by auto. cbn [world_of snd fetched].
      destruct (is_problem _); eauto.
  - cbn [orb] in Hmode.
    assert (is_one (q_bundle request) = true) as Hb.
    { unfold bundled in Hmode. apply andb_prop in Hmode as [_ Hb]. exact Hb. }
    rewrite Hb in Hfree.
    assert (forall c, goes_upstream (nocache_of request) (bundleKey_of request)
                        (bundleFlightKey_of request) (with_cache c w) = true) as Hgo.
    { intros c. unfold goes_upstream. rewrite Hnc. cbn [orb andb inflight with_cache].
      exact Hfree. }
    assert (goes_upstream (nocache_of request) (bundleKey_of request)
              (bundleFlightKey_of request) w = true) as Hgo0.
    { rewrite <- (with_cache_same w). apply Hgo. }
    subst host. split; [|split].
    + intros c. rewrite !bundled_run by auto. reflexivity.
    + intros c. rewrite bundled_run by auto. rewrite Hnc.
      cbn. rewrite andb_false_r. reflexivity.
    + rewrite bundled_run by auto. cbn [world_of snd fetched].
      destruct (existsb _ _); cbn; eauto.
Qed.

Lemma nocache_skips_read_and_write_witness :
  let host := responding (fun _ _ => good_reply) (1 # 2) in
  let w := mkWorld {[cacheKey_of (overview_request (Some "1")) := old_entry]} ∅ [] [] in
  cache (world_of (onRequestGet host (overview_request (Some "1")) demo_env w))
  = {[cacheKey_of (overview_request (Some "1")) := old_entry]}.
Proof.
  intros host w.
  exact (proj1 (proj2 (nocache_skips_read_and_write (fun _ _ => good_reply) (1 # 2)
                         (overview_request (Some "1")) demo_env w
                         eq_refl eq_refl eq_refl))
               {[cacheKey_of (overview_request (Some "1")) := old_entry]}).
Defined.

(** ** The bundle *)

(** C3, as stated, fails on the handler: with [nocache=1] all four legs
    are clean in the first round and the response is the bundle, yet
    nothing is written under the bundle key. *)
Lemma clean_bundle_not_cached_when_forced :
  let run := onRequestGet (always good_reply) (bundle_request (Some "1"))
                          demo_env fresh_world in
  forallb leg_ok (round (fun _ _ => good_reply) fresh_world
                        (bundleUrls "IBM" demo_env) 0) = true /\
  status_of run = Some 200 /\
  length (fetched (world_of run)) = 4%nat /\
  cache (world_of run) !! bundleKey_of (bundle_request (Some "1")) = None.
Proof. repeat split; vm_compute; reflexivity. Qed.

(** ** Throttle notices *)

Lemma avProblem_notice data status :
  has_notice data = true ->
  exists p, avProblem data status = Some p /\ p_status p = 429.
Proof.
  intros Hn.
  assert (truthy data = true /\ typeof data = "object") as [Ht Ho].
  { unfold has_notice, truthy_prop in Hn.
    destruct (prop data "Note") eqn:H1; [eapply prop_some_object; eassumption|].
    destruct (prop data "Information") eqn:H2; [eapply prop_some_object; eassumption|].
    discriminate. }
  unfold avProblem. rewrite Ht, Ho. cbn [negb orb String.eqb].
  destruct (status =? 429); [eexists; split; reflexivity|].
  destruct (flagged (prop data "Note") 429 "note") as [p|] eqn:H1.
  { exists p. split; [reflexivity|]. apply flagged_some in H1. tauto. }
  destruct (flagged (prop data "Information") 429 "info") as [p|] eqn:H2.
  { exists p. split; [reflexivity|]. apply flagged_some in H2. tauto. }
  apply flagged_none in H1, H2. unfold has_notice in Hn. rewrite H1, H2 in Hn.
  discriminate.
Qed.

Lemma leg_ok_no_notice r : leg_ok r = true -> has_notice (f_data r) = false.
Proof.
  intros Hok. destruct (has_notice (f_data r)) eqn:Hn; [|reflexivity].
  destruct (avProblem_notice _ (f_status r) Hn) as (p & Hp & _).
  assert (is_problem r = true) as Hpr by (unfold is_problem; rewrite Hp; reflexivity).
  apply is_problem_not_ok in Hpr. congruence.
Qed.

Lemma part_data_no_notice parts i :
  forallb leg_ok parts = true -> has_notice (part_data parts i) = false.
Proof.
  intros Hall. unfold part_data.
  destruct (nth_in_or_default i parts no_leg) as [Hin | ->]; [|reflexivity].
  apply leg_ok_no_notice. rewrite forallb_forall in Hall. apply Hall. exact Hin.
Qed.

Lemma bundlePayload_legs parts leg v :
  forallb leg_ok parts = true ->
  prop (bundlePayload parts) leg = Some v -> has_notice v = false.
Proof.
  intros Hall. unfold bundlePayload. cbn [prop assoc].
  repeat (destruct (String.eqb leg _);
          [intros [= <-]; apply part_data_no_notice; exact Hall|]).
  discriminate.
Qed.

(** *** What the handler can write, whatever the provider does *)

Lemma fetchOnce_cache host u w : cache (snd (fetchOnce host u w)) = cache w.
Proof. unfold fetchOnce. destruct (provider host u _); reflexivity. Qed.

Lemma fetchAll_cache host us : forall w, cache (snd (fetchAll host us w)) = cache w.
Proof.
  induction us as [|u us IH]; intros w; cbn [fetchAll]; [reflexivity|].
  destruct (fetchOnce host u w) as [r w1] eqn:E1.
  destruct (fetchAll host us w1) as [rs w2] eqn:E2. cbn [snd].
  change w2 with (snd (rs, w2)). rewrite <- E2, IH.
  change w1 with (snd (r, w1)). rewrite <- E1. apply fetchOnce_cache.
Qed.

Lemma keeps_ret {A} (a : A) : keeps (ret a).
Proof. intros w. reflexivity. Qed.

Lemma keeps_bind {A B} (m : M A) (k : A -> M B) :
  keeps m -> (forall a, keeps (k a)) -> keeps (bind m k).
Proof.
  intros Hm Hk w. unfold bind. specialize (Hm w).
  destruct (m w) as [[a|] w1]; cbn [snd] in *; [|exact Hm].
  rewrite Hk. exact Hm.
Qed.

Lemma keeps_fetchOnce host u : keeps (fetchOnce host u).
Proof. intros w. apply fetchOnce_cache. Qed.

Lemma keeps_fetchAll host us : keeps (fetchAll host us).
Proof. intros w. apply fetchAll_cache. Qed.

Lemma keeps_sleep ms : keeps (sleep ms).
Proof. intros w. reflexivity. Qed.

Lemma keeps_cache_match key : keeps (cache_match key).
Proof. intros w. reflexivity. Qed.

Lemma writes_of_keeps {A} bundle (m : M A) : keeps m -> writes bundle m.
Proof. intros Hm w. left. apply Hm. Qed.

Lemma writes_bind {A B} bundle (m : M A) (k : A -> M B) :
  keeps m -> (forall a, writes bundle (k a)) -> writes bundle (bind m k).
Proof.
  intros Hm Hk w. unfold bind. specialize (Hm w).
  destruct (m w) as [[a|] w1]; cbn [snd] in *; [|left; exact Hm].
  rewrite <- Hm. apply Hk.
Qed.

Lemma writes_put bundle key out :
  clean_entry bundle out ->
  writes bundle (await _ := cache_put key out in ret out).
Proof. intros Hc w. right. exists key, out. split; [exact Hc | reflexivity]. Qed.

Lemma singleProducer_writes host origin url ttl nocache key :
  writes false (singleProducer host origin url ttl nocache key).
Proof.
  unfold singleProducer.
  apply writes_bind; [apply keeps_fetchOnce | intros r1].
  apply writes_bind.
  { destruct (is_problem r1); [|apply keeps_ret].
    apply keeps_bind; [apply keeps_sleep | intros _; apply keeps_fetchOnce]. }
  intros r.
  destruct (f_ok r && negb (is_problem r) && truthy (f_data r)) eqn:Hok.
  - destruct nocache.
    + apply writes_of_keeps, keeps_bind; [apply keeps_ret | intros _; apply keeps_ret].
    + apply writes_put, clean_single. exact Hok.
  - apply writes_of_keeps, keeps_ret.
Qed.

Lemma bundleProducer_writes host origin urls ttl nocache key :
  writes true (bundleProducer host origin urls ttl nocache key).
Proof.
  unfold bundleProducer.
  apply writes_bind; [apply keeps_fetchAll | intros parts1].
  apply writes_bind.
  { destruct (existsb is_problem parts1); [|apply keeps_ret].
    apply keeps_bind; [apply keeps_sleep | intros _; apply keeps_fetchAll]. }
  intros parts.
  destruct (forallb leg_ok parts) eqn:Hok.
  - destruct nocache.
    + apply writes_of_keeps, keeps_bind; [apply keeps_ret | intros _; apply keeps_ret].
    + apply writes_put. apply (clean_bundle parts). exact Hok.
  - apply writes_of_keeps, keeps_ret.
Qed.

Lemma singleFlight_writes bundle key (fn : M Response) :
  writes bundle fn -> writes bundle (singleFlight key fn).
Proof.
  intros Hfn w. unfold singleFlight.
  destruct (decide (key ∈ inflight w)); [left; reflexivity|].
  specialize (Hfn (set_inflight ({[key]} ∪ inflight w) w)).
  destruct (fn _) as [[r|] w1]; exact Hfn.
Qed.

Lemma onRequestGet_writes host request env :
  writes (is_one (q_bundle request)) (onRequestGet host request env).
Proof.
  unfold onRequestGet.
  destruct (falsy_str (ALPHA_API_KEY env)); [apply writes_of_keeps, keeps_ret|].
  destruct (String.eqb _ ""); [apply writes_of_keeps, keeps_ret|].
  destruct (is_one (q_bundle request)).
  - apply writes_bind.
    { destruct (is_one (q_nocache request)); [apply keeps_ret | apply keeps_cache_match]. }
    intros [hit|]; [apply writes_of_keeps, keeps_ret|].
    apply singleFlight_writes, bundleProducer_writes.
  - destruct (String.eqb _ "" || negb _); [apply writes_of_keeps, keeps_ret|].
    apply writes_bind.
    { destruct (is_one (q_nocache request)); [apply keeps_ret | apply keeps_cache_match]. }
    intros [hit|]; [apply writes_of_keeps, keeps_ret|].
    apply singleFlight_writes, singleProducer_writes.
Qed.

(** C6, as stated, fails on the code: the body below contains a "Note"
    field, it is empty; the classifier reports nothing and the handler
    caches the body. *)
Lemma empty_note_is_cached :
  let run := onRequestGet (always empty_note_reply) (overview_request None)
                          demo_env fresh_world in
  prop (f_data (fetched_of empty_note_reply)) "Note" = Some (JStr "") /\
  avProblem (f_data (fetched_of empty_note_reply)) 200 = None /\
  status_of run = Some 200 /\
  resp_body <$> (cache (world_of run) !! cacheKey_of (overview_request None))
    = Some (JObj [("Note", JStr ""); ("Symbol", JStr "IBM")]).
Proof. repeat split; vm_compute; reflexivity. Qed.

(** C6, amended: a body with a truthy "Note" or "Information" field is
    classified with status 429 at every HTTP status (so at 200), never as
    success; and whatever the provider answers, no request writes such a
    body to the cache, neither as an entry nor, in bundle mode, as a leg of
    the bundle entry. *)
Theorem notice_is_throttle_never_cached host request env w data status :
  has_notice data = true ->
  (exists p, avProblem data status = Some p /\ p_status p = 429) /\
  (forall key out,
     cache (world_of (onRequestGet host request env w)) !! key = Some out ->
     cache w !! key = Some out \/
     (resp_body out <> data /\
      (is_one (q_bundle request) = true ->
       forall leg, prop (resp_body out) leg <> Some data))).
Proof.
  intros Hn. split; [apply avProblem_notice; exact Hn|].
  intros key out Hget. unfold world_of in Hget.
  destruct (onRequestGet_writes host request env w) as [Heq | (k & o & Hclean & Heq)];
    rewrite Heq in Hget; [left; exact Hget|].
  destruct (decide (k = key)) as [->|Hne];
    [|rewrite lookup_insert_ne in Hget by exact Hne; left; exact Hget].
  rewrite lookup_insert_eq in Hget. injection Hget as <-. right.
  destruct Hclean as [r ttl origin Hok | parts ttl origin Hok]; cbn [resp_body wrapOk].
  - split; [|discriminate].
    intros <-. apply leg_ok_no_notice in Hok. congruence.
  - split.
    + intros <-. discriminate Hn.
    + intros _ leg Hleg. apply (bundlePayload_legs parts leg data Hok) in Hleg. congruence.
Qed.

Lemma notice_is_throttle_never_cached_witness :
  exists p,
    avProblem (JObj [("Note", JStr "5 calls per minute")]) 200 = Some p /\
    p_status p = 429.
Proof.
  exact (proj1 (notice_is_throttle_never_cached (always throttle_reply)
                  (overview_request None) demo_env fresh_world
                  (JObj [("Note", JStr "5 calls per minute")]) 200 eq_refl)).
Defined.

(** ** The coordinator under interleaving *)

Module CoordinatorFacts.
Import Coordinator.

#[local] Arguments invocations : simpl never.

Lemma hand_frame c st s :
  registry (hand c st s) = registry s /\
  promises (hand c st s) = promises s /\
  invoked (hand c st s) = invoked s /\
  waiting (hand c st s) = waiting s.
Proof.
  unfold hand. destruct st as [|o|e]; [|destruct (objects s !! o)|]; cbn; auto.
Qed.

Lemma resume_frame st wt s :
  registry (resume st wt s) = release (registry s) wt /\
  promises (resume st wt s) = promises s /\
  invoked (resume st wt s) = invoked s /\
  waiting (resume st wt s) = waiting s.
Proof.
  unfold resume, release. cbn [registry promises invoked waiting].
  destruct (hand_frame (w_caller wt) st s) as (-> & -> & -> & ->). auto.
Qed.

Lemma resume_all_frame st ws : forall s,
  let s' := fold_left (fun acc wt => resume st wt acc) ws s in
  registry s' = fold_left release ws (registry s) /\
  promises s' = promises s /\
  invoked s' = invoked s /\
  waiting s' = waiting s.
Proof.
  induction ws as [|wt ws IH]; intros s; cbn; [auto|].
  destruct (IH (resume st wt s)) as (Hr & Hp & Hi & Hw).
  destruct (resume_frame st wt s) as (Hr1 & Hp1 & Hi1 & Hw1).
  rewrite Hr, Hp, Hi, Hw, Hr1, Hp1, Hi1, Hw1. auto.
Qed.

Lemma release_all_lookup ws k : forall reg,
  fold_left release ws reg !! k = if existsb (owns k) ws then None else reg !! k.
Proof.
  induction ws as [|wt ws IH]; intros reg; cbn; [reflexivity|].
  rewrite IH. unfold release, owns at 2.
  destruct (existsb (owns k) ws); [rewrite orb_true_r; reflexivity|].
  rewrite orb_false_r.
  destruct (String.eqb_spec (w_key wt) k) as [->|Hne].
  - apply lookup_delete_eq.
  - apply lookup_delete_ne. exact Hne.
Qed.



Lemma filter_none {A} (f : A -> bool) (l : list A) :
  (forall x, In x l -> f x = false) -> List.filter f l = [].
Proof.
  induction l as [|x l IH]; intros H; cbn; [reflexivity|].
  rewrite (H x (or_introl eq_refl)). apply IH. intros y Hy. apply H. right. exact Hy.
Qed.

Lemma filter_filter_implied {A} (f g : A -> bool) (l : list A) :
  (forall x, f x = true -> g x = true) ->
  List.filter f (List.filter g l) = List.filter f l.
Proof.
  intros H. induction l as [|x l IH]; cbn; [reflexivity|].
  destruct (g x) eqn:Hg; cbn.
  - rewrite IH. reflexivity.
  - destruct (f x) eqn:Hf; [apply H in Hf; congruence | exact IH].
Qed.

Lemma not_owned_by (s : State) (ws : list Waiter) (k : string) (q p' : nat) :
  (forall wt, In wt (waiting s) -> registry s !! w_key wt = Some (w_promise wt)) ->
  ws = List.filter (waits_on p') (waiting s) ->
  registry s !! k = Some q -> q <> p' ->
  existsb (owns k) ws = false.
Proof.
  intros Hown -> Hk Hne.
  destruct (existsb (owns k) _) eqn:Hex; [|reflexivity].
  apply existsb_exists in Hex as (wt & Hin & Howns).
  apply filter_In in Hin as [Hin Hon]. unfold waits_on in Hon.
  apply Nat.eqb_eq in Hon. unfold owns in Howns.
  apply String.eqb_eq in Howns. subst k.
  specialize (Hown wt Hin). congruence.
Qed.

Lemma wf_init : wf init.
Proof. split; cbn; intros; try contradiction. rewrite lookup_empty in *. discriminate. Qed.

Lemma wf_step s e : wf s -> wf (step s e).
Proof.
  intros [W1 W2 W3]. destruct e as [c k | p out]; cbn [step].
  - destruct (registry s !! k) as [p|] eqn:Hk.
    + destruct (promises s !! p) as [[|o|e]|]; try (split; assumption);
        destruct (hand_frame c ltac:(first [exact (Resolved o) | exact (Errored e)]) s)
          as (Hr & Hp & _ & Hw);
        split; rewrite ?Hr, ?Hp, ?Hw; assumption.
    + split; cbn.
      * intros k' p Hl. rewrite length_app. cbn.
        destruct (decide (k = k')) as [->|Hne].
        -- rewrite lookup_insert_eq in Hl. injection Hl as <-. lia.
        -- rewrite lookup_insert_ne in Hl by exact Hne. apply W1 in Hl. lia.
      * intros wt Hin. rewrite length_app. cbn.
        apply in_app_or in Hin as [Hin | [<- | []]]; [apply W2 in Hin; lia | cbn; lia].
      * intros wt Hin. apply in_app_or in Hin as [Hin | [<- | []]].
        -- specialize (W3 wt Hin).
           rewrite lookup_insert_ne; [exact W3 | congruence].
        -- cbn. apply lookup_insert_eq.
  - destruct (promises s !! p) as [[|o|e]|] eqn:Hp; try (split; assumption).
    set (st := match out with
               | Fulfilled _ => Resolved (length (objects s))
               | Rejected e => Errored e
               end).
    match goal with |- wf (fold_left _ ?ws ?s0) =>
      destruct (resume_all_frame st ws s0) as (Hr & Hpr & _ & Hw)
    end.
    cbn zeta in Hr, Hpr, Hw. cbn [registry promises waiting] in Hr, Hpr, Hw.
    split; rewrite ?Hr, ?Hpr, ?Hw, ?length_insert.
    + intros k q Hl. rewrite release_all_lookup in Hl.
      destruct (existsb _ _); [discriminate | eauto].
    + intros wt Hin. apply filter_In in Hin as [Hin _]. auto.
    + intros wt Hin. apply filter_In in Hin as [Hin Hoff].
      rewrite release_all_lookup.
      rewrite (not_owned_by s _ (w_key wt) (w_promise wt) p W3 eq_refl); [eauto | eauto |].
      unfold waits_on in Hoff. apply negb_true_iff, Nat.eqb_neq in Hoff. exact Hoff.
Qed.

Lemma wf_run tr : forall s, wf s -> wf (run s tr).
Proof.
  induction tr as [|e tr IH]; intros s Hs; [exact Hs|].
  apply IH, wf_step, Hs.
Qed.

Lemma invocations_snoc k k' s reg pr ob wa de :
  invocations k (mkState reg pr ob (invoked s ++ [k']) wa de) =
  (invocations k s + if String.eqb k k' then 1 else 0)%nat.
Proof.
  unfold invocations. cbn [invoked]. rewrite List.filter_app, length_app. cbn.
  destruct (String.eqb k k'); reflexivity.
Qed.

Lemma filter_snoc_on p wt (l : list Waiter) :
  List.filter (waits_on p) (l ++ [wt]) =
  List.filter (waits_on p) l ++ (if Nat.eqb (w_promise wt) p then [wt] else []).
Proof.
  rewrite List.filter_app. reflexivity.
Qed.

(** The first caller finds the key free: it registers promise
    [length (promises s)] and invokes the producer. *)
Lemma flight_begins s k c0 :
  wf s -> registry s !! k = None ->
  let p := length (promises s) in
  pending_flight k p [mkWaiter c0 p k] (S (invocations k s)) (step s (Call c0 k)).
Proof.
  intros [W1 W2 W3] Hfree p. cbn [step]. rewrite Hfree. fold p. split; cbn.
  - apply lookup_insert_eq.
  - apply list_lookup_middle. reflexivity.
  - intros k' Hl. destruct (decide (k = k')) as [->|Hne]; [reflexivity|].
    rewrite lookup_insert_ne in Hl by exact Hne. apply W1 in Hl. subst p. lia.
  - rewrite filter_snoc_on. cbn [w_promise]. rewrite Nat.eqb_refl.
    rewrite filter_none; [reflexivity|].
    intros wt Hin. apply W2 in Hin. unfold waits_on. apply Nat.eqb_neq. subst p. lia.
  - intros wt Hin. apply in_app_or in Hin as [Hin | [<- | []]].
    + specialize (W3 wt Hin). rewrite lookup_insert_ne; [exact W3 | congruence].
    + cbn. apply lookup_insert_eq.
  - rewrite invocations_snoc, String.eqb_refl. lia.
Qed.

(** A step other than the completion of [p] keeps the flight pending, and
    nobody else comes to wait on [p]: a call for [k] is left unanswered. *)
Lemma flight_stays s e k p ws n :
  pending_flight k p ws n s -> settles p e = false ->
  pending_flight k p ws n (step s e).
Proof.
  intros [P1 P2 P3 P4 P5 P6] Hns.
  assert (p < length (promises s))%nat as Hlt by (eapply lookup_lt_Some; exact P2).
  destruct e as [c k' | p' out]; cbn [step].
  - destruct (registry s !! k') as [p'|] eqn:Hk'.
    + destruct (promises s !! p') as [[|o|e]|]; try (split; assumption);
        destruct (hand_frame c ltac:(first [exact (Resolved o) | exact (Errored e)]) s)
          as (Hr & Hp & Hi & Hw);
        split; unfold invocations; rewrite ?Hr, ?Hp, ?Hw, ?Hi; assumption.
    + assert (k' <> k) as Hne by congruence.
      split; cbn.
      * rewrite lookup_insert_ne by exact Hne. exact P1.
      * apply lookup_app_l_Some. exact P2.
      * intros k'' Hl. destruct (decide (k' = k'')) as [<-|Hne'].
        -- rewrite lookup_insert_eq in Hl. injection Hl as Hl. lia.
        -- rewrite lookup_insert_ne in Hl by exact Hne'. auto.
      * rewrite filter_snoc_on, P4. cbn [w_promise].
        destruct (Nat.eqb_spec (length (promises s)) p); [lia | apply app_nil_r].
      * intros wt Hin. apply in_app_or in Hin as [Hin | [<- | []]].
        -- specialize (P5 wt Hin).
           rewrite lookup_insert_ne; [exact P5 | congruence].
        -- cbn. apply lookup_insert_eq.
      * rewrite invocations_snoc.
        destruct (String.eqb_spec k k'); [congruence | lia].
  - cbn in Hns. apply Nat.eqb_neq in Hns.
    destruct (promises s !! p') as [[|o|e]|] eqn:Hp'; try (split; assumption).
    set (st := match out with
               | Fulfilled _ => Resolved (length (objects s))
               | Rejected e => Errored e
               end).
    match goal with |- pending_flight _ _ _ _ (fold_left _ ?ws0 ?s0) =>
      destruct (resume_all_frame st ws0 s0) as (Hr & Hpr & Hi & Hw)
    end.
    cbn zeta in Hr, Hpr, Hi, Hw. cbn [registry promises waiting invoked] in Hr, Hpr, Hi, Hw.
    split; unfold invocations; rewrite ?Hr, ?Hpr, ?Hw, ?Hi.
    + rewrite release_all_lookup.
      rewrite (not_owned_by s _ k p p' P5 eq_refl P1); [exact P1 | congruence].
    + rewrite list_lookup_insert_ne by exact Hns. exact P2.
    + intros k' Hl. rewrite release_all_lookup in Hl.
      destruct (existsb _ _); [discriminate | auto].
    + rewrite filter_filter_implied; [exact P4|].
      intros wt Hon. unfold waits_on in *. apply Nat.eqb_eq in Hon.
      apply negb_true_iff, Nat.eqb_neq. congruence.
    + intros wt Hin. apply filter_In in Hin as [Hin Hoff].
      rewrite release_all_lookup.
      rewrite (not_owned_by s _ (w_key wt) (w_promise wt) p' P5 eq_refl); [eauto | eauto |].
      unfold waits_on in Hoff. apply negb_true_iff, Nat.eqb_neq in Hoff. exact Hoff.
    + exact P6.
Qed.

(** A flight that nothing interleaves with leaves the registry as it found
    it, which is what the run-to-completion [singleFlight] of the handler
    model does with [inflight]. *)
Lemma solo_flight s c k out :
  wf s -> registry s !! k = None ->
  registry (run s [Call c k; Settle (length (promises s)) out]) = registry s.
Proof.
  intros Hwf Hfree.
  destruct (flight_begins s k c Hwf Hfree) as [_ P2 _ P4 _ _]. cbn zeta in P2, P4.
  change (run s [Call c k; Settle (length (promises s)) out])
    with (step (step s (Call c k)) (Settle (length (promises s)) out)).
  remember (step s (Call c k)) as s1 eqn:Hs1.
  cbn [step]. rewrite P2, P4.
  cbn [fold_left]. rewrite (proj1 (resume_frame _ _ _)).
  unfold release. cbn [registry w_key]. subst s1. cbn [step]. rewrite Hfree.
  cbn [registry]. rewrite delete_insert_eq. apply delete_id. exact Hfree.
Qed.

Lemma flight_pending tr : forall s k p ws n,
  pending_flight k p ws n s ->
  forallb (fun e => negb (settles p e)) tr = true ->
  pending_flight k p ws n (run s tr).
Proof.
  induction tr as [|e tr IH]; intros s k p ws n Hpf Hns; [exact Hpf|].
  cbn [forallb] in Hns. apply andb_prop in Hns as [He Htr].
  apply negb_true_iff in He.
  change (run s (e :: tr)) with (run (step s e) tr).
  apply IH; [|exact Htr]. apply flight_stays; assumption.
Qed.








End CoordinatorFacts.

(** ** The handler against any provider *)

Lemma fetchAll_outcome host urls : forall w,
  NoDup urls ->
  fetchAll host urls w =
  (collect (answers_of host w urls 0),
   mkWorld (cache w) (inflight w) (fetched w ++ urls) (timers w)).
Proof.
  induction urls as [|u us IH]; intros w Hnd.
  - cbn. rewrite app_nil_r. destruct w; reflexivity.
  - apply NoDup_cons in Hnd as [Hnotin Hnd].
    cbn [fetchAll]. destruct (fetchOnce host u w) as [r w1] eqn:E1.
    assert (w1 = mkWorld (cache w) (inflight w) (fetched w ++ [u]) (timers w) /\
            r = match fetched_of <$> provider host u (count_occ Url_eq_dec (fetched w) u) with
                | Some x => Ok x
                | None => Thrown
                end) as [-> ->].
    { unfold fetchOnce in E1. destruct (provider host u _); injection E1 as <- <-; auto. }
    rewrite IH by assumption. cbn [cache inflight fetched timers].
    rewrite <- app_assoc. cbn [app]. f_equal.
    unfold answers_of. cbn [map collect fetched]. rewrite Nat.add_0_r.
    assert (map (fun u0 => fetched_of <$>
                   provider host u0 (count_occ Url_eq_dec (fetched w ++ [u]) u0 + 0)%nat) us
            = map (fun u0 => fetched_of <$>
                   provider host u0 (count_occ Url_eq_dec (fetched w) u0 + 0)%nat) us) as ->.
    { apply map_ext_in. intros u' Hin. rewrite count_occ_snoc_ne; [reflexivity|].
      intros ->. apply Hnotin. apply list_elem_of_In. exact Hin. }
    destruct (provider host u _); cbn; [|reflexivity].
    destruct (collect _); reflexivity.
Qed.

Lemma answers_next host w urls c t :
  NoDup urls ->
  answers_of host (mkWorld c (inflight w) (fetched w ++ urls) t) urls 0 =
  answers_of host w urls 1.
Proof.
  intros Hnd. unfold answers_of. cbn [fetched]. apply map_ext_in. intros u Hin.
  rewrite count_occ_NoDup_app by assumption. rewrite Nat.add_0_r, Nat.add_1_r. reflexivity.
Qed.

Lemma singleProducer_outcome host origin url ttl nocache key w :
  singleProducer host origin url ttl nocache key w =
  singleOutcome host origin url ttl nocache key w.
Proof.
  unfold singleProducer, singleOutcome, bind, fetchOnce at 1.
  destruct (provider host url (count_occ Url_eq_dec (fetched w) url)) as [ra|];
    [|unfold abort; rewrite app_nil_r; reflexivity].
  fold (fetched_of ra).
  assert (forall r w2 calls waits,
            fetched w2 = fetched w ++ calls -> timers w2 = timers w ++ waits ->
            cache w2 = cache w -> inflight w2 = inflight w ->
            (if f_ok r && negb (is_problem r) && truthy (f_data r)
             then
               await _ := (if nocache then ret tt
                           else cache_put key
                                  (wrapOk (f_data r) ttl origin [("x-proxy-cache", "MISS")]))
               in ret (wrapOk (f_data r) ttl origin [("x-proxy-cache", "MISS")])
             else
               ret (wrap429
                      match avProblem (f_data r) (f_status r) with
                      | Some p => p_msg p
                      | None => JStr ("Upstream " +:+ pretty (f_status r))
                      end origin
                      match avProblem (f_data r) (f_status r) with
                      | Some p => p_kind p
                      | None => "upstream"
                      end)) w2
            = conclude (answerFor origin ttl r) (leg_ok r && negb nocache) key w calls waits)
    as Tail.
  { intros r w2 calls waits Hf Ht Hc Hi. unfold conclude, answerFor, leg_ok, bind.
    destruct (f_ok r && negb (is_problem r) && truthy (f_data r)).
    - destruct nocache; cbn; rewrite ?Hf, ?Ht, ?Hc, ?Hi; try reflexivity.
      destruct w2; cbn in *; subst; reflexivity.
    - cbn. destruct w2; cbn in *; subst; reflexivity. }
  destruct (is_problem (fetched_of ra)).
  - unfold sleep at 1, fetchOnce at 1. cbn [fetched cache inflight timers].
    rewrite count_occ_app. cbn [count_occ].
    destruct (Url_eq_dec url url); [|contradiction].
    replace (count_occ Url_eq_dec (fetched w) url + 1)%nat
      with (S (count_occ Url_eq_dec (fetched w) url)) by lia.
    destruct (provider host url (S _)) as [rb|].
    + fold (fetched_of rb). apply Tail; cbn; rewrite <- ?app_assoc; reflexivity.
    + unfold abort. rewrite <- app_assoc. reflexivity.
  - unfold ret at 1. apply Tail; cbn; rewrite ?app_nil_r; reflexivity.
Qed.

Lemma bundleProducer_outcome host origin urls ttl nocache key w :
  NoDup urls ->
  bundleProducer host origin urls ttl nocache key w =
  bundleOutcome host origin urls ttl nocache key w.
Proof.
  intros Hnd. unfold bundleProducer, bundleOutcome, bind.
  rewrite fetchAll_outcome by assumption.
  assert (forall parts w2 calls waits,
            fetched w2 = fetched w ++ calls -> timers w2 = timers w ++ waits ->
            cache w2 = cache w -> inflight w2 = inflight w ->
            (if forallb leg_ok parts
             then
               await _ := (if nocache then ret tt
                           else cache_put key
                                  (wrapOk (JObj [ ("income_statement", part_data parts 0);
                                                  ("balance_sheet", part_data parts 1);
                                                  ("cash_flow", part_data parts 2);
                                                  ("overview", part_data parts 3) ])
                                          ttl origin [("x-proxy-cache", "MISS-BUNDLE")]))
               in ret (wrapOk (JObj [ ("income_statement", part_data parts 0);
                                      ("balance_sheet", part_data parts 1);
                                      ("cash_flow", part_data parts 2);
                                      ("overview", part_data parts 3) ])
                              ttl origin [("x-proxy-cache", "MISS-BUNDLE")])
             else ret (wrap429 (JStr "Bundle throttled and no cached copy") origin "bundle")) w2
            = conclude (bundleAnswer origin ttl parts) (forallb leg_ok parts && negb nocache)
                       key w calls waits)
    as Tail.
  { intros parts w2 calls waits Hf Ht Hc Hi. unfold conclude, bundleAnswer, bundlePayload, bind.
    destruct (forallb leg_ok parts).
    - destruct nocache; cbn; rewrite ?Hf, ?Ht, ?Hc, ?Hi; try reflexivity.
      destruct w2; cbn in *; subst; reflexivity.
    - cbn. destruct w2; cbn in *; subst; reflexivity. }
  destruct (collect (answers_of host w urls 0)) as [p1|];
    [|unfold abort; rewrite app_nil_r; reflexivity].
  destruct (existsb is_problem p1).
  - unfold sleep at 1. rewrite fetchAll_outcome by assumption.
    cbn [cache inflight fetched timers].
    rewrite (answers_next host w urls (cache w) (timers w ++ [bundleDelay host]) Hnd).
    destruct (collect (answers_of host w urls 1)) as [p2|].
    + apply Tail; cbn; rewrite <- ?app_assoc; reflexivity.
    + unfold abort. rewrite <- app_assoc. reflexivity.
  - unfold ret at 1. apply Tail; cbn; rewrite ?app_nil_r; reflexivity.
Qed.

Lemma answers_of_inflight host s w urls k :
  answers_of host (set_inflight s w) urls k = answers_of host w urls k.
Proof. reflexivity. Qed.

Lemma singleOutcome_inflight host origin url ttl nocache key s w :
  singleOutcome host origin url ttl nocache key (set_inflight s w) =
  (fst (singleOutcome host origin url ttl nocache key w),
   set_inflight s (snd (singleOutcome host origin url ttl nocache key w))).
Proof.
  unfold singleOutcome. cbn [fetched set_inflight].
  destruct (provider host url _) as [ra|]; [|reflexivity].
  destruct (is_problem (fetched_of ra)); [|reflexivity].
  destruct (provider host url _) as [rb|]; reflexivity.
Qed.

Lemma bundleOutcome_inflight host origin urls ttl nocache key s w :
  bundleOutcome host origin urls ttl nocache key (set_inflight s w) =
  (fst (bundleOutcome host origin urls ttl nocache key w),
   set_inflight s (snd (bundleOutcome host origin urls ttl nocache key w))).
Proof.
  unfold bundleOutcome. rewrite !answers_of_inflight.
  destruct (collect (answers_of host w urls 0)) as [p1|]; [|reflexivity].
  destruct (existsb is_problem p1); [|reflexivity].
  destruct (collect (answers_of host w urls 1)) as [p2|]; reflexivity.
Qed.

Lemma singleOutcome_keeps_inflight host origin url ttl nocache key w :
  inflight (snd (singleOutcome host origin url ttl nocache key w)) = inflight w.
Proof.
  unfold singleOutcome.
  destruct (provider host url _) as [ra|]; [|reflexivity].
  destruct (is_problem (fetched_of ra)); [|reflexivity].
  destruct (provider host url _) as [rb|]; reflexivity.
Qed.

Lemma bundleOutcome_keeps_inflight host origin urls ttl nocache key w :
  inflight (snd (bundleOutcome host origin urls ttl nocache key w)) = inflight w.
Proof.
  unfold bundleOutcome.
  destruct (collect (answers_of host w urls 0)) as [p1|]; [|reflexivity].
  destruct (existsb is_problem p1); [|reflexivity].
  destruct (collect (answers_of host w urls 1)) as [p2|]; reflexivity.
Qed.

Lemma singleFlight_viaFlight flight (fn : M Response) (outcome : World -> Result Response * World) w :
  (forall w0, fn w0 = outcome w0) ->
  (forall s, outcome (set_inflight s w) = (fst (outcome w), set_inflight s (snd (outcome w)))) ->
  inflight (snd (outcome w)) = inflight w ->
  singleFlight flight fn w = viaFlight flight (outcome w) w.
Proof.
  intros Hfn Hframe Hkeep. unfold singleFlight, viaFlight.
  destruct (decide (flight ∈ inflight w)) as [Hin|Hout].
  - rewrite bool_decide_eq_true_2 by assumption. reflexivity.
  - rewrite bool_decide_eq_false_2 by assumption.
    rewrite Hfn, Hframe. cbn [inflight set_inflight].
    rewrite registry_restored by assumption.
    destruct (outcome w) as [[r|] w1]; cbn [fst snd] in *;
      rewrite <- Hkeep; destruct w1; reflexivity.
Qed.

Lemma bundle_flown host origin urls ttl nocache key flight w :
  NoDup urls ->
  singleFlight flight (bundleProducer host origin urls ttl nocache key) w =
  viaFlight flight (bundleOutcome host origin urls ttl nocache key w) w.
Proof.
  intros Hnd.
  apply (singleFlight_viaFlight _ _ (bundleOutcome host origin urls ttl nocache key)).
  - intros w0. apply bundleProducer_outcome. exact Hnd.
  - intros s. apply bundleOutcome_inflight.
  - apply bundleOutcome_keeps_inflight.
Qed.

Lemma single_flown host origin url ttl nocache key flight w :
  singleFlight flight (singleProducer host origin url ttl nocache key) w =
  viaFlight flight (singleOutcome host origin url ttl nocache key w) w.
Proof.
  apply (singleFlight_viaFlight _ _ (singleOutcome host origin url ttl nocache key)).
  - intros w0. apply singleProducer_outcome.
  - intros s. apply singleOutcome_inflight.
  - apply singleOutcome_keeps_inflight.
Qed.

Lemma onRequestGet_served host request env w :
  onRequestGet host request env w = served host request env w.
Proof.
  unfold onRequestGet, served, nocache_of.
  fold (symbol_of request). fold (fn_of request).
  destruct (falsy_str (ALPHA_API_KEY env)); [reflexivity|].
  destruct (String.eqb (symbol_of request) ""); [reflexivity|].
  destruct (is_one (q_bundle request)).
  - unfold bind, bundleKey_of, bundleFlightKey_of.
    fold (bundleUrls (symbol_of request) env).
    destruct (is_one (q_nocache request)); cbn [ret cache_match].
    + apply bundle_flown, bundleUrls_NoDup.
    + destruct (cache w !! cacheKeyStr ["BUNDLE"; symbol_of request]) as [hit|];
        [reflexivity|]. apply bundle_flown, bundleUrls_NoDup.
  - destruct (String.eqb (fn_of request) "" || negb (ALLOWED_has (fn_of request)));
      [reflexivity|].
    unfold bind, cacheKey_of, flightKey_of, url_of.
    destruct (is_one (q_nocache request)); cbn [ret cache_match].
    + apply single_flown.
    + destruct (cache w !! cacheKeyStr [fn_of request; symbol_of request]) as [hit|];
        [reflexivity|]. apply single_flown.
Qed.

Ltac outcome_cases :=
  unfold singleOutcome, bundleOutcome, conclude, abort;
  repeat match goal with
         | |- context [match provider ?h ?u ?n with _ => _ end] =>
             destruct (provider h u n) eqn:?
         | |- context [match collect ?l with _ => _ end] => destruct (collect l) eqn:?
         | |- context [if is_problem ?r then _ else _] => destruct (is_problem r) eqn:?
         | |- context [if existsb is_problem ?l then _ else _] =>
             destruct (existsb is_problem l) eqn:?
         end.

Ltac served_cases :=
  rewrite onRequestGet_served; unfold served, viaFlight;
  repeat match goal with
         | |- context [if falsy_str ?k then _ else _] => destruct (falsy_str k) eqn:?
         | |- context [if String.eqb ?a ?b then _ else _] => destruct (String.eqb a b) eqn:?
         | |- context [if is_one ?b then _ else _] => destruct (is_one b) eqn:?
         | |- context [if nocache_of ?r then _ else _] => destruct (nocache_of r) eqn:?
         | |- context [if String.eqb ?a ?b || negb ?c then _ else _] =>
             destruct (String.eqb a b || negb c) eqn:?
         | |- context [match cache ?w !! ?k with _ => _ end] => destruct (cache w !! k) eqn:?
         | |- context [if bool_decide ?P then _ else _] => destruct (bool_decide P) eqn:?
         end.

(** X1: whatever the provider does (answer, throttle, reject), a request
    leaves the in-flight registry as it found it: the key that
    [singleFlight] registers is deleted again on every path. *)
Theorem registry_never_leaks host request env w :
  inflight (world_of (onRequestGet host request env w)) = inflight w.
Proof.
  served_cases; cbn [world_of snd]; try reflexivity.
  - apply bundleOutcome_keeps_inflight.
  - apply bundleOutcome_keeps_inflight.
  - apply singleOutcome_keeps_inflight.
  - apply singleOutcome_keeps_inflight.
Qed.

Lemma wrapOk_built body origin extra_kind (bundle : bool) :
  extra_kind = (if bundle then "MISS-BUNDLE" else "MISS") ->
  built bundle origin (wrapOk body DEFAULT_TTL origin [("x-proxy-cache", extra_kind)]).
Proof.
  intros ->. unfold built, has_cors, json_typed.
  destruct bundle; (split; [repeat split; reflexivity|]); (split; [reflexivity|]);
    left; repeat split; reflexivity.
Qed.

Lemma wrap429_built bundle detail origin kind : built bundle origin (wrap429 detail origin kind).
Proof.
  unfold built, has_cors, json_typed.
  split; [repeat split; reflexivity|]. split; [reflexivity|].
  right. repeat split; reflexivity.
Qed.

Lemma answerFor_built origin r : built false origin (answerFor origin DEFAULT_TTL r).
Proof.
  unfold answerFor. destruct (leg_ok r).
  - apply wrapOk_built. reflexivity.
  - apply wrap429_built.
Qed.

Lemma answerFor_status origin ttl r :
  (resp_status (answerFor origin ttl r) =? 200) = leg_ok r.
Proof. unfold answerFor. destruct (leg_ok r); reflexivity. Qed.

Lemma bundleAnswer_built origin parts : built true origin (bundleAnswer origin DEFAULT_TTL parts).
Proof.
  unfold bundleAnswer. destruct (forallb leg_ok parts).
  - apply wrapOk_built. reflexivity.
  - apply wrap429_built.
Qed.

Lemma bundleAnswer_status origin ttl parts :
  (resp_status (bundleAnswer origin ttl parts) =? 200) = forallb leg_ok parts.
Proof. unfold bundleAnswer. destruct (forallb leg_ok parts); reflexivity. Qed.

Lemma collect_thrown host w urls k :
  collect (answers_of host w urls k) = Thrown ->
  exists u n, In u urls /\ provider host u n = None.
Proof.
  unfold answers_of. induction urls as [|u us IH]; cbn [map collect]; [discriminate|].
  destruct (provider host u _) as [ra|] eqn:Hu.
  - cbn [fmap option_fmap option_map]. destruct (collect _) eqn:Hc; [discriminate|].
    intros _. destruct (IH eq_refl) as (u' & n & Hin & Hn).
    exists u', n. split; [right; exact Hin | exact Hn].
  - intros _. eexists u, _. split; [left; reflexivity | exact Hu].
Qed.

Ltac tidy_case :=
  split; [reflexivity|];
  split; [first [ left; rewrite ?app_nil_r; split; reflexivity
                | right; split; reflexivity ]|];
  first [ split; [first [apply answerFor_built | apply bundleAnswer_built]
                 | rewrite ?answerFor_status, ?bundleAnswer_status; reflexivity]
        | split; [reflexivity
                 | first [ eexists _, _; split; [left; reflexivity | eassumption]
                         | eapply collect_thrown; eassumption ]] ].

Lemma singleOutcome_tidy host origin url nocache key w :
  tidy_outcome host false nocache origin key [url] w
    (singleOutcome host origin url DEFAULT_TTL nocache key w).
Proof.
  unfold tidy_outcome. outcome_cases; cbn [fst snd inflight fetched timers cache app];
    tidy_case.
Qed.

Lemma bundleOutcome_tidy host origin urls nocache key w :
  tidy_outcome host true nocache origin key urls w
    (bundleOutcome host origin urls DEFAULT_TTL nocache key w).
Proof.
  unfold tidy_outcome. outcome_cases; cbn [fst snd inflight fetched timers cache];
    tidy_case.
Qed.

Lemma TTL_allowed fn : ALLOWED_has fn = true -> default DEFAULT_TTL (TTL_MAP fn) = DEFAULT_TTL.
Proof. unfold TTL_MAP. repeat (destruct (String.eqb fn _); [reflexivity|]). reflexivity. Qed.

Lemma symbol_of_empty request :
  String.eqb (symbol_of request) "" = String.eqb (or_empty (q_symbol request)) "".
Proof.
  unfold symbol_of. destruct (or_empty (q_symbol request)); reflexivity.
Qed.

Lemma ALLOWED_not_empty fn : ALLOWED_has fn = true -> String.eqb fn "" = false.
Proof. destruct fn; [discriminate | reflexivity]. Qed.

Lemma onRequestGet_dealt host request env w :
  dealt host request env w (onRequestGet host request env w).
Proof.
  rewrite onRequestGet_served. unfold served.
  assert (forall obj st, st = 400 \/ st = 500 ->
            per_function request env || bundled request env = false ->
            dealt host request env w
              (Ok (Responded (json obj st (url_origin request) [])), w)) as Refuse.
  { intros obj st Hst Hinvalid. apply dealt_refused; try assumption; try reflexivity.
    repeat split; reflexivity. }
  unfold per_function, bundled in Refuse. rewrite <- symbol_of_empty in Refuse.
  destruct (falsy_str (ALPHA_API_KEY env)) eqn:Hkey; [apply Refuse; auto|].
  destruct (String.eqb (symbol_of request) "") eqn:Hsym; [apply Refuse; auto|].
  destruct (is_one (q_bundle request)) eqn:Hb.
  - assert (per_function request env || bundled request env = true) as Hvalid.
    { unfold per_function, bundled. rewrite <- symbol_of_empty, Hkey, Hsym, Hb.
      apply orb_true_r. }
    assert (own_key request = bundleKey_of request) as Hown by (unfold own_key; rewrite Hb; reflexivity).
    assert (flight_of request = bundleFlightKey_of request) as Hfl
        by (unfold flight_of; rewrite Hb; reflexivity).
    assert (request_urls request env = bundleUrls (symbol_of request) env) as Hurls
        by (unfold request_urls; rewrite Hb; reflexivity).
    rewrite <- Hown, <- Hfl, <- Hurls.
    destruct (if nocache_of request then None else cache w !! own_key request)
      as [hit|] eqn:Hhit.
    + destruct (nocache_of request) eqn:Hnc; [discriminate|].
      apply dealt_hit; assumption.
    + assert (nocache_of request = true \/ cache w !! own_key request = None) as Hmiss.
      { destruct (nocache_of request); [left; reflexivity | right; exact Hhit]. }
      unfold viaFlight. destruct (bool_decide (flight_of request ∈ inflight w)) eqn:Hin.
      * apply bool_decide_eq_true in Hin. apply dealt_joined; assumption.
      * apply bool_decide_eq_false in Hin.
        apply (dealt_flown host request env w
                 (bundleOutcome host (url_origin request) (request_urls request env)
                    DEFAULT_TTL (nocache_of request) (own_key request) w));
          try assumption.
        rewrite Hb. apply bundleOutcome_tidy.
  - destruct (String.eqb (fn_of request) "" || negb (ALLOWED_has (fn_of request))) eqn:Hfn.
    { apply Refuse; [auto|]. cbn [negb andb orb].
      destruct (ALLOWED_has (fn_of request)) eqn:Ha; [|reflexivity].
      rewrite (ALLOWED_not_empty _ Ha) in Hfn. discriminate. }
    apply orb_false_elim in Hfn as [_ Hfn]. apply negb_false_iff in Hfn.
    rewrite (TTL_allowed _ Hfn).
    assert (per_function request env || bundled request env = true) as Hvalid.
    { unfold per_function, bundled. rewrite <- symbol_of_empty, Hkey, Hsym, Hb, Hfn.
      reflexivity. }
    assert (own_key request = cacheKey_of request) as Hown by (unfold own_key; rewrite Hb; reflexivity).
    assert (flight_of request = flightKey_of request) as Hfl
        by (unfold flight_of; rewrite Hb; reflexivity).
    assert (request_urls request env = [url_of request env]) as Hurls
        by (unfold request_urls; rewrite Hb; reflexivity).
    rewrite <- Hown, <- Hfl.
    destruct (if nocache_of request then None else cache w !! own_key request)
      as [hit|] eqn:Hhit.
    + destruct (nocache_of request) eqn:Hnc; [discriminate|].
      apply dealt_hit; assumption.
    + assert (nocache_of request = true \/ cache w !! own_key request = None) as Hmiss.
      { destruct (nocache_of request); [left; reflexivity | right; exact Hhit]. }
      unfold viaFlight. destruct (bool_decide (flight_of request ∈ inflight w)) eqn:Hin.
      * apply bool_decide_eq_true in Hin. apply dealt_joined; assumption.
      * apply bool_decide_eq_false in Hin.
        apply (dealt_flown host request env w
                 (singleOutcome host (url_origin request) (url_of request env)
                    DEFAULT_TTL (nocache_of request) (own_key request) w));
          try assumption.
        rewrite Hb, Hurls. apply singleOutcome_tidy.
Qed.

(** ** The retry and the bundle, whatever the provider does *)

Lemma upstream_miss nocache key flight w :
  goes_upstream nocache key flight w = true ->
  (if nocache then None else cache w !! key) = None /\ flight ∉ inflight w.
Proof.
  unfold goes_upstream, cached. intros H. apply andb_prop in H as [Hmiss Hfree].
  apply bool_decide_eq_true in Hfree. split; [|exact Hfree].
  destruct nocache; [reflexivity|]. destruct (cache w !! key); [discriminate | reflexivity].
Qed.

Lemma per_function_flown host request env w :
  per_function request env = true ->
  goes_upstream (nocache_of request) (cacheKey_of request) (flightKey_of request) w = true ->
  onRequestGet host request env w =
  flown (singleOutcome host (url_origin request) (url_of request env)
           (default DEFAULT_TTL (TTL_MAP (fn_of request))) (nocache_of request)
           (cacheKey_of request) w).
Proof.
  intros Hreq Hgo. destruct (upstream_miss _ _ _ _ Hgo) as [Hmiss Hfree].
  unfold per_function in Hreq.
  apply andb_prop in Hreq as [Hreq Hfn]. apply andb_prop in Hreq as [Hreq Hb].
  apply andb_prop in Hreq as [Hkey Hsym].
  apply negb_true_iff in Hkey, Hsym, Hb.
  rewrite onRequestGet_served. unfold served.
  rewrite Hkey, symbol_of_empty, Hsym, Hb, Hfn, (ALLOWED_not_empty _ Hfn), Hmiss.
  cbn [negb orb]. unfold viaFlight, flown.
  rewrite bool_decide_eq_false_2 by exact Hfree. reflexivity.
Qed.

Lemma bundled_flown host request env w :
  bundled request env = true ->
  goes_upstream (nocache_of request) (bundleKey_of request) (bundleFlightKey_of request) w
    = true ->
  onRequestGet host request env w =
  flown (bundleOutcome host (url_origin request) (bundleUrls (symbol_of request) env)
           DEFAULT_TTL (nocache_of request) (bundleKey_of request) w).
Proof.
  intros Hreq Hgo. destruct (upstream_miss _ _ _ _ Hgo) as [Hmiss Hfree].
  unfold bundled in Hreq.
  apply andb_prop in Hreq as [Hreq Hb]. apply andb_prop in Hreq as [Hkey Hsym].
  apply negb_true_iff in Hkey, Hsym.
  rewrite onRequestGet_served. unfold served.
  rewrite Hkey, symbol_of_empty, Hsym, Hb, Hmiss.
  unfold viaFlight, flown. rewrite bool_decide_eq_false_2 by exact Hfree. reflexivity.
Qed.

(** C5, amended: a per-function request for a plain symbol that goes to
    the provider calls it once, and rejects if that call is rejected.  It
    calls a second time exactly when [avProblem] reports a problem of any
    kind on the first answer, after one delay that lies between 1000 and
    1499 ms; the response is then built from the second answer alone (the
    handler rejects if the second call is rejected), and there is no third
    call. *)
Theorem retry_once_on_any_problem host request env w :
  let ttl := default DEFAULT_TTL (TTL_MAP (fn_of request)) in
  let url := url_of request env in
  let n := count_occ Url_eq_dec (fetched w) url in
  let run := onRequestGet host request env w in
  per_function request env = true ->
  plain (or_empty (q_symbol request)) = true ->
  goes_upstream (nocache_of request) (cacheKey_of request) (flightKey_of request) w = true ->
  (0 <= random host)%Q -> (random host < 1)%Q ->
  match provider host url n with
  | None => rejected_after w run [url] /\ timers (world_of run) = timers w
  | Some a1 =>
      if is_problem (fetched_of a1) then
        fetched (world_of run) = fetched w ++ [url; url] /\
        (exists ms, timers (world_of run) = timers w ++ [ms] /\ 1000 <= ms <= 1499) /\
        match provider host url (S n) with
        | None => fst run = Thrown /\ cache (world_of run) = cache w
        | Some a2 =>
            response_of run = Some (answerFor (url_origin request) ttl (fetched_of a2))
        end
      else
        fetched (world_of run) = fetched w ++ [url] /\
        timers (world_of run) = timers w /\
        response_of run = Some (answerFor (url_origin request) ttl (fetched_of a1))
  end.
Proof.
  intros ttl url n run Hreq _ Hgo H0 H1.
  subst run. rewrite per_function_flown by assumption.
  fold url ttl. unfold singleOutcome. fold n.
  pose proof (retryDelay_window (fun _ _ => good_reply) (random host) H0 H1) as Hwin.
  destruct (provider host url n) as [a1|].
  - destruct (is_problem (fetched_of a1)).
    + destruct (provider host url (S n)) as [a2|];
        unfold flown, conclude, abort, response_of, world_of;
        cbn [fst snd fetched timers cache];
        (split; [reflexivity|]); (split; [eexists; split; [reflexivity | exact Hwin]|]);
        [reflexivity | split; reflexivity].
    + unfold flown, conclude, response_of, world_of. cbn [fst snd fetched timers cache].
      rewrite app_nil_r. split; [reflexivity|]. split; reflexivity.
  - unfold rejected_after, flown, abort, world_of. cbn [fst snd fetched timers cache].
    rewrite app_nil_r. repeat split; reflexivity.
Qed.

Lemma retry_once_on_any_problem_witness :
  let host := responding (fun _ n => if Nat.eqb n 0 then throttle_reply else good_reply)
                         (3 # 4) in
  let run := onRequestGet host (overview_request None) demo_env fresh_world in
  length (fetched (world_of run)) = 2%nat /\ status_of run = Some 200.
Proof.
  intros host run.
  pose proof (retry_once_on_any_problem host (overview_request None) demo_env fresh_world
                eq_refl eq_refl eq_refl ltac:(discriminate) ltac:(reflexivity)) as H.
  cbv zeta in H. fold run in H.
  change (provider host (url_of (overview_request None) demo_env)
            (count_occ Url_eq_dec (fetched fresh_world)
               (url_of (overview_request None) demo_env)))
    with (Some throttle_reply) in H.
  change (is_problem (fetched_of throttle_reply)) with true in H.
  cbv iota in H. destruct H as (Hf & _ & Hr).
  change (provider host (url_of (overview_request None) demo_env)
            (S (count_occ Url_eq_dec (fetched fresh_world)
                  (url_of (overview_request None) demo_env))))
    with (Some good_reply) in Hr.
  cbv iota in Hr. split.
  - rewrite Hf. reflexivity.
  - unfold status_of. rewrite Hr. reflexivity.
Defined.

(** C3, amended: a bundle request for a plain symbol that goes to the
    provider makes one round of four calls, and a second round exactly
    when every call of the first was answered and some leg of it is
    classified as a problem.  When a call of a round is rejected, the
    handler rejects after that round and the cache is as before.
    Otherwise the response is the 200 bundle exactly when every leg of the
    last round is clean; then the bundle is written under the bundle key
    unless [nocache=1] is set.  When some leg of the last round is not
    clean the response is 429 and the cache is as before. *)
Theorem bundle_all_or_nothing host request env w :
  let urls := bundleUrls (symbol_of request) env in
  let run := onRequestGet host request env w in
  bundled request env = true ->
  plain (or_empty (q_symbol request)) = true ->
  goes_upstream (nocache_of request) (bundleKey_of request) (bundleFlightKey_of request) w
    = true ->
  match collect (answers_of host w urls 0) with
  | Thrown => rejected_after w run urls
  | Ok first =>
      if existsb is_problem first then
        match collect (answers_of host w urls 1) with
        | Thrown => rejected_after w run (urls ++ urls)
        | Ok second => bundle_settled request w run second (urls ++ urls)
        end
      else bundle_settled request w run first urls
  end.
Proof.
  intros urls run Hreq _ Hgo.
  subst run. rewrite bundled_flown by assumption. fold urls. unfold bundleOutcome.
  assert (forall parts calls waits,
            bundle_settled request w
              (flown (conclude (bundleAnswer (url_origin request) DEFAULT_TTL parts)
                               (forallb leg_ok parts && negb (nocache_of request))
                               (bundleKey_of request) w calls waits))
              parts calls) as Settled.
  { intros parts calls waits.
    unfold bundle_settled, flown, conclude, status_of, response_of, world_of, bundleAnswer.
    cbn [fst snd fetched cache]. split; [reflexivity|].
    destruct (forallb leg_ok parts); cbn [andb].
    - split; [split; reflexivity|]. split; [|discriminate].
      intros _. split; [reflexivity|]. destruct (nocache_of request); reflexivity.
    - split; [split; discriminate|]. split; [discriminate|].
      intros _. split; reflexivity. }
  assert (forall calls waits, rejected_after w (flown (abort w calls waits)) calls) as Rejected.
  { intros calls waits. unfold rejected_after, flown, abort, world_of. cbn. auto. }
  destruct (collect (answers_of host w urls 0)) as [first|]; [|apply Rejected].
  destruct (existsb is_problem first); [|apply Settled].
  destruct (collect (answers_of host w urls 1)) as [second|]; [apply Settled | apply Rejected].
Qed.

Lemma bundle_all_or_nothing_witness :
  let host := responding (fun _ n => if Nat.eqb n 0 then throttle_reply else good_reply)
                         (1 # 4) in
  let run := onRequestGet host (bundle_request None) demo_env fresh_world in
  length (fetched (world_of run)) = 8%nat /\ status_of run = Some 200.
Proof.
  intros host run.
  pose proof (bundle_all_or_nothing host (bundle_request None) demo_env fresh_world
                eq_refl eq_refl eq_refl) as H.
  cbv zeta in H. fold run in H.
  change (collect (answers_of host fresh_world
                     (bundleUrls (symbol_of (bundle_request None)) demo_env) 0))
    with (Ok (map (fun _ => fetched_of throttle_reply)
                  (bundleUrls (symbol_of (bundle_request None)) demo_env))) in H.
  change (collect (answers_of host fresh_world
                     (bundleUrls (symbol_of (bundle_request None)) demo_env) 1))
    with (Ok (map (fun _ => fetched_of good_reply)
                  (bundleUrls (symbol_of (bundle_request None)) demo_env))) in H.
  change (existsb is_problem
            (map (fun _ => fetched_of throttle_reply)
                 (bundleUrls (symbol_of (bundle_request None)) demo_env)))
    with true in H.
  cbv iota in H. destruct H as (Hf & Hs & _).
  split.
  - rewrite Hf. reflexivity.
  - apply Hs. reflexivity.
Defined.

(** *** Headers *)

Lemma hget_hset_eq k v hs : hget k (hset k v hs) = Some v.
Proof.
  induction hs as [|[k' v'] hs IH]; cbn.
  - rewrite String.eqb_refl. reflexivity.
  - destruct (String.eqb k k') eqn:E; cbn; rewrite ?String.eqb_refl, ?E; auto.
Qed.

Lemma hget_hset_ne k k' v hs : k <> k' -> hget k (hset k' v hs) = hget k hs.
Proof.
  intros Hne. apply String.eqb_neq in Hne.
  induction hs as [|[k'' v''] hs IH]; cbn.
  - rewrite Hne. reflexivity.
  - destruct (String.eqb k' k'') eqn:E; cbn.
    + apply String.eqb_eq in E. subst k''. rewrite Hne. reflexivity.
    + destruct (String.eqb k k''); [reflexivity | exact IH].
Qed.

Lemma hset_hset k v hs : hset k v (hset k v hs) = hset k v hs.
Proof.
  induction hs as [|[k' v'] hs IH]; cbn.
  - rewrite String.eqb_refl. reflexivity.
  - destruct (String.eqb k k') eqn:E; cbn; rewrite ?String.eqb_refl, ?E; [reflexivity|].
    rewrite IH. reflexivity.
Qed.

Lemma hset_same k v hs : hget k hs = Some v -> hset k v hs = hs.
Proof.
  induction hs as [|[k' v'] hs IH]; cbn; [discriminate|].
  destruct (String.eqb k k') eqn:E.
  - apply String.eqb_eq in E. subst k'. intros [= ->]. reflexivity.
  - intros H. rewrite IH by exact H. reflexivity.
Qed.

(** *** What every run does *)

Lemma request_urls_length request env :
  length (request_urls request env) = if is_one (q_bundle request) then 4%nat else 1%nat.
Proof. unfold request_urls. destruct (is_one (q_bundle request)); reflexivity. Qed.

Lemma request_urls_own request env :
  per_function request env || bundled request env = true ->
  Forall (fun u => u_symbol u = symbol_of request /\
                   u_apikey u = or_empty (ALPHA_API_KEY env) /\
                   ALLOWED_has (u_function u) = true)
         (request_urls request env).
Proof.
  intros Hvalid. unfold request_urls.
  destruct (is_one (q_bundle request)) eqn:Hb.
  - unfold bundleUrls. cbn [map]. repeat constructor.
  - constructor; [|constructor]. unfold url_of, upstreamFor. cbn.
    split; [reflexivity|]. split; [reflexivity|].
    unfold per_function, bundled in Hvalid. rewrite Hb in Hvalid.
    rewrite !andb_false_r, orb_false_r in Hvalid.
    apply andb_prop in Hvalid as [_ Ha]. exact Ha.
Qed.

(** X2: a request whose function and symbol are ASCII text makes at most
    two provider calls, eight for a bundle, and every one of them is for
    the request's own (upper-cased) symbol, carries the configured
    credential and names an allowed function. *)
Theorem provider_calls_bounded host request env w :
  ascii_text (or_empty (q_function request)) = true ->
  ascii_text (or_empty (q_symbol request)) = true ->
  exists calls,
    fetched (world_of (onRequestGet host request env w)) = fetched w ++ calls /\
    (length calls <= if is_one (q_bundle request) then 8 else 2)%nat /\
    Forall (fun u => u_symbol u = symbol_of request /\
                     u_apikey u = or_empty (ALPHA_API_KEY env) /\
                     ALLOWED_has (u_function u) = true) calls.
Proof.
  intros _ _.
  destruct (onRequestGet_dealt host request env w)
    as [r Hinv Hst Hc Hj Hx Hr | hit Hv Hnc Hhit | Hv Hmiss Hin | x Hv Hmiss Hfree Htidy];
    cbn [world_of snd flown].
  1-3: exists []; rewrite app_nil_r; repeat split; try constructor;
       destruct (is_one (q_bundle request)); cbn; lia.
  destruct Htidy as (_ & [[Hf _] | [Hf _]] & _);
    pose proof (request_urls_length request env) as Hlen;
    pose proof (request_urls_own request env Hv) as Hown.
  - exists (request_urls request env). split; [exact Hf|]. split; [|exact Hown].
    rewrite Hlen. destruct (is_one (q_bundle request)); lia.
  - exists (request_urls request env ++ request_urls request env).
    split; [exact Hf|]. split; [|apply Forall_app; split; exact Hown].
    rewrite length_app, Hlen. destruct (is_one (q_bundle request)); lia.
Qed.

Lemma provider_calls_bounded_witness :
  let run := onRequestGet (always throttle_reply) (bundle_request None) demo_env
               fresh_world in
  (length (fetched (world_of run)) <= 8)%nat /\
  Forall (fun u => u_symbol u = "IBM") (fetched (world_of run)).
Proof.
  intros run.
  destruct (provider_calls_bounded (always throttle_reply) (bundle_request None) demo_env
              fresh_world eq_refl eq_refl) as (calls & Hf & Hlen & Hall).
  fold run in Hf. change (fetched fresh_world ++ calls) with calls in Hf. rewrite Hf.
  split; [exact Hlen|].
  eapply Forall_impl; [exact Hall|]. intros u (Hs & _). exact Hs.
Defined.

Lemma delay_windows host :
  (0 <= random host)%Q -> (random host < 1)%Q ->
  1000 <= retryDelay host <= 1499 /\ 1200 <= bundleDelay host <= 1799.
Proof.
  intros H0 H1. unfold retryDelay, bundleDelay.
  pose proof (scaled_draw (random host) 500 ltac:(lia) H0 H1).
  pose proof (scaled_draw (random host) 600 ltac:(lia) H0 H1). lia.
Qed.

(** X3: a request sleeps at most once.  When it does, the delay is
    1000..1499 ms (1200..1799 ms for a bundle) and the provider has been
    called exactly twice for each URL of the request. *)
Theorem at_most_one_backoff host request env w :
  (0 <= random host)%Q -> (random host < 1)%Q ->
  let run := onRequestGet host request env w in
  timers (world_of run) = timers w \/
  exists ms,
    timers (world_of run) = timers w ++ [ms] /\
    (if is_one (q_bundle request) then 1200 <= ms <= 1799 else 1000 <= ms <= 1499) /\
    fetched (world_of run) =
      fetched w ++ request_urls request env ++ request_urls request env.
Proof.
  intros H0 H1 run. subst run.
  destruct (onRequestGet_dealt host request env w)
    as [r Hinv Hst Hc Hj Hx Hr | hit Hv Hnc Hhit | Hv Hmiss Hin | x Hv Hmiss Hfree Htidy];
    cbn [world_of snd flown]; try (left; reflexivity).
  destruct Htidy as (_ & [[_ Ht] | [Hf Ht]] & _); [left; exact Ht|].
  right. eexists. split; [exact Ht|]. split; [|exact Hf].
  destruct (delay_windows host H0 H1).
  destruct (is_one (q_bundle request)); assumption.
Qed.

Lemma at_most_one_backoff_witness :
  let run := onRequestGet (always throttle_reply) (overview_request None) demo_env fresh_world in
  exists ms, timers (world_of run) = [ms] /\ 1000 <= ms <= 1499.
Proof.
  intros run.
  destruct (at_most_one_backoff (always throttle_reply) (overview_request None) demo_env
              fresh_world) as [Hnone | (ms & Ht & Hms & _)].
  - discriminate.
  - reflexivity.
  - discriminate Hnone.
  - exists ms. split; [exact Ht | exact Hms].
Defined.

(** X5: a request that finds no flight pending under its key, and so
    waits on no other request, rejects only when the provider rejects a
    call to one of the request's own addresses, and then it has written
    nothing to the cache. *)
Theorem rejects_only_with_provider host request env w :
  flight_of request ∉ inflight w ->
  fst (onRequestGet host request env w) = Thrown ->
  cache (world_of (onRequestGet host request env w)) = cache w /\
  exists u n, In u (request_urls request env) /\ provider host u n = None.
Proof.
  intros _.
  destruct (onRequestGet_dealt host request env w)
    as [r Hinv Hst Hc Hj Hx Hr | hit Hv Hnc Hhit | Hv Hmiss Hin | x Hv Hmiss Hfree Htidy];
    cbn [world_of fst snd flown]; try discriminate.
  unfold tidy_outcome in Htidy. destruct x as [[out|] w1];
    cbn [fst snd flown] in *; [discriminate|].
  intros _. exact (proj2 (proj2 Htidy)).
Qed.

Lemma rejects_only_with_provider_witness :
  let host := mkHost (fun _ _ => None) (1 # 2) in
  cache (world_of (onRequestGet host (bundle_request None) demo_env fresh_world)) = ∅.
Proof.
  intros host.
  exact (proj1 (rejects_only_with_provider host (bundle_request None) demo_env fresh_world
                  (not_elem_of_empty _) eq_refl)).
Defined.

Lemma cache_after_run host request env w :
  cache (world_of (onRequestGet host request env w)) = cache w \/
  exists out,
    resp_status out = 200 /\
    cache (world_of (onRequestGet host request env w)) = <[own_key request := out]> (cache w).
Proof.
  destruct (onRequestGet_dealt host request env w)
    as [r Hinv Hst Hc Hj Hx Hr | hit Hv Hnc Hhit | Hv Hmiss Hin | x Hv Hmiss Hfree Htidy];
    cbn [world_of snd flown]; try (left; reflexivity).
  unfold tidy_outcome in Htidy.
  destruct x as [[out|] w1]; cbn [fst snd flown] in *;
    destruct Htidy as (_ & _ & Hres); [|left; exact (proj1 Hres)].
  destruct Hres as [_ Hc]. rewrite Hc.
  destruct (resp_status out =? 200) eqn:Hst; [|left; reflexivity].
  destruct (negb (nocache_of request)); [|left; reflexivity].
  right. exists out. apply Z.eqb_eq in Hst. split; [exact Hst | reflexivity].
Qed.

Lemma cache_put_is_answer host request env w :
  let run := onRequestGet host request env w in
  cache (world_of run) = cache w \/
  (nocache_of request = false /\
   exists out,
     response_of run = Some out /\ resp_status out = 200 /\
     cache w !! own_key request = None /\
     cache (world_of run) = <[own_key request := out]> (cache w)).
Proof.
  intros run. subst run.
  destruct (onRequestGet_dealt host request env w)
    as [r Hinv Hst Hc Hj Hx Hr | hit Hv Hnc Hhit | Hv Hmiss Hin | x Hv Hmiss Hfree Htidy];
    cbn [world_of response_of fst snd flown]; try (left; reflexivity).
  unfold tidy_outcome in Htidy.
  destruct x as [[out|] w1]; unfold response_of; cbn [fst snd flown] in *;
    destruct Htidy as (_ & _ & Hres); [|left; exact (proj1 Hres)].
  destruct Hres as [_ Hc]. rewrite Hc.
  destruct (resp_status out =? 200) eqn:Hst; [|left; reflexivity].
  destruct (nocache_of request) eqn:Hnc; [left; reflexivity|].
  right. split; [reflexivity|]. exists out. apply Z.eqb_eq in Hst.
  destruct Hmiss as [?|Hnone]; [discriminate|]. repeat split; auto.
Qed.

(** X8: a run of the handler, taken on its own, changes the cache at most
    by one put, of the 200 response that it returns, and only without
    [nocache=1]; it never deletes an entry. *)
Theorem writes_own_answer_only host request env w :
  let run := onRequestGet host request env w in
  cache (world_of run) = cache w \/
  (nocache_of request = false /\
   exists key out,
     response_of run = Some out /\ resp_status out = 200 /\
     cache (world_of run) = <[key := out]> (cache w)).
Proof.
  intros run. subst run.
  destruct (cache_put_is_answer host request env w)
    as [H | (Hnc & out & Hout & Hst & _ & Hc)]; [left; exact H|].
  right. split; [exact Hnc|]. exists (own_key request), out. auto.
Qed.

Lemma other_keys_untouched host request env w key :
  key <> own_key request ->
  cache (world_of (onRequestGet host request env w)) !! key = cache w !! key.
Proof.
  intros Hne.
  destruct (cache_after_run host request env w) as [-> | (out & _ & ->)];
    [reflexivity|].
  apply lookup_insert_ne. congruence.
Qed.

(** X4: if every cached entry has status 200, a request answers 200, 400,
    429 or 500 and nothing else, and every entry of the cache it leaves has
    status 200 again. *)
Theorem answers_200_400_429_500 host request env w :
  all_200 (cache w) ->
  all_200 (cache (world_of (onRequestGet host request env w))) /\
  forall r, response_of (onRequestGet host request env w) = Some r ->
            resp_status r = 200 \/ resp_status r = 400 \/
            resp_status r = 429 \/ resp_status r = 500.
Proof.
  intros Hall. split.
  - destruct (cache_after_run host request env w)
      as [-> | (out & Hst & ->)]; [exact Hall|].
    intros key e Hl. destruct (decide (own_key request = key)) as [Heq|Hne].
    + subst key. rewrite lookup_insert_eq in Hl. injection Hl as <-. exact Hst.
    + rewrite lookup_insert_ne in Hl by exact Hne. eapply Hall, Hl.
  - destruct (onRequestGet_dealt host request env w)
      as [r Hinv Hst Hc Hj Hx Hr | hit Hv Hnc Hhit | Hv Hmiss Hin | x Hv Hmiss Hfree Htidy];
      cbn [response_of fst flown]; intros r0 Hr0; try discriminate.
    + injection Hr0 as <-. tauto.
    + injection Hr0 as <-. cbn. left. eapply Hall, Hhit.
    + unfold tidy_outcome in Htidy. destruct x as [[out|] w1];
        cbn [fst snd flown] in *; [|discriminate].
      injection Hr0 as <-. destruct Htidy as (_ & _ & (_ & _ & [[H _]|[H _]]) & _); auto.
Qed.

Lemma answers_200_400_429_500_witness :
  all_200 (cache (world_of (onRequestGet (always good_reply) (overview_request None)
                              demo_env fresh_world))).
Proof.
  apply (answers_200_400_429_500 (always good_reply) (overview_request None) demo_env
           fresh_world).
  intros key e H. cbn [fresh_world cache] in H. rewrite lookup_empty in H. discriminate H.
Defined.



Lemma hit_served host request env w hit :
  per_function request env || bundled request env = true ->
  nocache_of request = false ->
  cache w !! own_key request = Some hit ->
  onRequestGet host request env w = (Ok (Responded (serveHit hit DEFAULT_TTL)), w).
Proof.
  intros Hvalid Hnc Hhit.
  destruct (onRequestGet_dealt host request env w)
    as [r Hinv Hst Hc Hj Hx Hr | hit' Hv Hnc' Hhit' | Hv Hmiss Hin | x Hv Hmiss Hfree Htidy].
  - congruence.
  - congruence.
  - destruct Hmiss; congruence.
  - destruct Hmiss; congruence.
Qed.

(** X10: a valid request without [nocache=1] whose key is cached is
    answered from the cache without a provider call: status and body of the
    entry, [x-proxy-cache: HIT], the current [cache-control], and every
    other header as stored. *)
Theorem cached_entry_served host request env w hit :
  per_function request env || bundled request env = true ->
  nocache_of request = false ->
  cache w !! own_key request = Some hit ->
  exists r,
    onRequestGet host request env w = (Ok (Responded r), w) /\
    resp_status r = resp_status hit /\
    resp_body r = resp_body hit /\
    hget "x-proxy-cache" (resp_headers r) = Some "HIT" /\
    hget "cache-control" (resp_headers r) = Some (cacheControl DEFAULT_TTL) /\
    forall k, k <> "x-proxy-cache" -> k <> "cache-control" ->
              hget k (resp_headers r) = hget k (resp_headers hit).
Proof.
  intros Hvalid Hnc Hhit. exists (serveHit hit DEFAULT_TTL).
  split; [apply hit_served; assumption|].
  unfold serveHit. cbn [resp_status resp_body resp_headers].
  split; [reflexivity|]. split; [reflexivity|].
  split; [apply hget_hset_eq|].
  split; [rewrite hget_hset_ne by discriminate; apply hget_hset_eq|].
  intros k H1 H2. rewrite !hget_hset_ne by assumption. reflexivity.
Qed.

Lemma cached_entry_served_witness :
  let key := cacheKeyStr ["OVERVIEW"; "IBM"] in
  let w := with_cache {[ key := old_entry ]} fresh_world in
  exists r,
    onRequestGet (always throttle_reply) (overview_request None) demo_env w
      = (Ok (Responded r), w) /\
    resp_body r = resp_body old_entry /\
    hget "x-proxy-cache" (resp_headers r) = Some "HIT".
Proof.
  intros key w.
  destruct (cached_entry_served (always throttle_reply) (overview_request None) demo_env w
              old_entry eq_refl eq_refl eq_refl) as (r & Hrun & _ & Hbody & Hx & _).
  exists r. split; [exact Hrun|]. split; [exact Hbody | exact Hx].
Defined.

Lemma served_again host host' request env w r w1 :
  nocache_of request = false ->
  onRequestGet host request env w = (Ok (Responded r), w1) ->
  resp_status r = 200 ->
  onRequestGet host' request env w1 =
  (Ok (Responded (mkResponse 200 (resp_body r)
                             (hset "x-proxy-cache" "HIT" (resp_headers r)))), w1).
Proof.
  intros Hnc Hrun Hst.
  destruct (onRequestGet_dealt host request env w)
    as [r' Hinv Hst' Hc Hj Hx Hr | hit Hv Hnc' Hhit | Hv Hmiss Hin | x Hv Hmiss Hfree Htidy].
  - injection Hrun as <- <-. destruct Hst'; congruence.
  - injection Hrun as <- <-. rewrite (hit_served host' request env w hit) by assumption.
    unfold serveHit in *. cbn [resp_status resp_body resp_headers] in *.
    rewrite Hst, hset_hset. reflexivity.
  - discriminate.
  - unfold tidy_outcome in Htidy. destruct x as [[out|] w2]; cbn [fst snd flown] in *;
      [|discriminate].
    injection Hrun as -> ->.
    destruct Htidy as (_ & _ & (_ & _ & Hshape) & Hcache).
    rewrite Hst, Hnc in Hcache. cbn in Hcache.
    rewrite (hit_served host' request env w1 r Hv Hnc)
      by (rewrite Hcache; apply lookup_insert_eq).
    destruct Hshape as [(_ & _ & Hcc & _) | (H429 & _)]; [|congruence].
    unfold serveHit. rewrite (hset_same _ _ _ Hcc), Hst. reflexivity.
Qed.

(** X6: round trip through the cache.  After a request without
    [nocache=1] was answered 200 by a run of its own, the same request is
    answered 200 with the same body, marked HIT, whatever the provider
    would say now: no call is made and nothing is written. *)
Theorem answered_200_then_served_from_cache host host' request env w r w1 :
  nocache_of request = false ->
  onRequestGet host request env w = (Ok (Responded r), w1) ->
  resp_status r = 200 ->
  exists r',
    onRequestGet host' request env w1 = (Ok (Responded r'), w1) /\
    resp_status r' = 200 /\
    resp_body r' = resp_body r /\
    hget "x-proxy-cache" (resp_headers r') = Some "HIT".
Proof.
  intros Hnc Hrun Hst. eexists. split.
  - exact (served_again host host' request env w r w1 Hnc Hrun Hst).
  - cbn [resp_status resp_body resp_headers]. split; [reflexivity|].
    split; [reflexivity | apply hget_hset_eq].
Qed.

Lemma answered_200_then_served_from_cache_witness :
  let first := onRequestGet (always good_reply) (overview_request None) demo_env fresh_world in
  let again := onRequestGet (always throttle_reply) (overview_request None) demo_env
                 (world_of first) in
  status_of again = Some 200 /\ world_of again = world_of first /\
  fetched (world_of again) = [upstreamFor "IBM" demo_env "OVERVIEW"].
Proof.
  intros first again. subst again.
  destruct (answered_200_then_served_from_cache (always good_reply) (always throttle_reply)
              (overview_request None) demo_env fresh_world
              (wrapOk (JObj [("Symbol", JStr "IBM"); ("PERatio", JStr "21.5")]) DEFAULT_TTL
                      "https://ratios.example" [("x-proxy-cache", "MISS")])
              (world_of first) eq_refl eq_refl eq_refl) as (r' & Hrun & Hst & _).
  rewrite Hrun. unfold status_of, response_of, world_of. cbn [fst snd fmap option_fmap option_map].
  rewrite Hst. split; [reflexivity|]. split; reflexivity.
Defined.

(** *** Keys *)

Lemma ALLOWED_cases fn :
  ALLOWED_has fn = true ->
  fn = "INCOME_STATEMENT" \/ fn = "BALANCE_SHEET" \/ fn = "CASH_FLOW" \/ fn = "OVERVIEW".
Proof.
  unfold ALLOWED_has, ALLOWED. cbn [existsb].
  destruct (String.eqb_spec fn "INCOME_STATEMENT"); [auto|].
  destruct (String.eqb_spec fn "BALANCE_SHEET"); [auto|].
  destruct (String.eqb_spec fn "CASH_FLOW"); [auto|].
  destruct (String.eqb_spec fn "OVERVIEW"); [auto|]. discriminate.
Qed.

Lemma function_keys_injective fn fn' s s' :
  ALLOWED_has fn = true -> ALLOWED_has fn' = true ->
  cacheKeyStr [fn; s] = cacheKeyStr [fn'; s'] -> fn = fn' /\ s = s'.
Proof.
  intros Ha Ha' Heq.
  destruct (ALLOWED_cases _ Ha) as [-> | [-> | [-> | ->]]];
    destruct (ALLOWED_cases _ Ha') as [-> | [-> | [-> | ->]]];
    cbn in Heq; simplify_eq; auto.
Qed.

Lemma bundle_key_not_function_key fn s s' :
  ALLOWED_has fn = true -> cacheKeyStr ["BUNDLE"; s] <> cacheKeyStr [fn; s'].
Proof.
  intros Ha Heq.
  destruct (ALLOWED_cases _ Ha) as [-> | [-> | [-> | ->]]]; cbn in Heq; simplify_eq.
Qed.

Lemma bundle_keys_injective s s' :
  cacheKeyStr ["BUNDLE"; s] = cacheKeyStr ["BUNDLE"; s'] -> s = s'.
Proof. intros Heq. cbn in Heq. simplify_eq. reflexivity. Qed.

Lemma v2_keys_apart fn s parts : Rev2.cacheKey fn s <> cacheKeyStr parts.
Proof. unfold Rev2.cacheKey, cacheKeyStr. cbn. intros Heq. simplify_eq. Qed.

Lemma valid_per_function request env :
  per_function request env || bundled request env = true ->
  is_one (q_bundle request) = false -> ALLOWED_has (fn_of request) = true.
Proof.
  unfold per_function, bundled. intros Hv Hb. rewrite Hb in Hv.
  rewrite !andb_false_r, orb_false_r in Hv. apply andb_prop in Hv as [_ Ha]. exact Ha.
Qed.

(** X7: two valid requests with ASCII function names and plain symbols
    share a cache key only if both are bundles or both are not, they name
    the same symbol up to case and, when they are not bundles, the same
    function. *)
Theorem own_keys_separate request env request' env' :
  plainly_asked request = true -> plainly_asked request' = true ->
  per_function request env || bundled request env = true ->
  per_function request' env' || bundled request' env' = true ->
  own_key request = own_key request' ->
  is_one (q_bundle request) = is_one (q_bundle request') /\
  symbol_of request = symbol_of request' /\
  (is_one (q_bundle request) = false -> fn_of request = fn_of request').
Proof.
  intros _ _ Hv Hv' Heq. unfold own_key, bundleKey_of, cacheKey_of in Heq.
  destruct (is_one (q_bundle request)) eqn:Hb;
    destruct (is_one (q_bundle request')) eqn:Hb'.
  - apply bundle_keys_injective in Heq. split; [reflexivity|]. split; [exact Heq|discriminate].
  - exfalso. eapply bundle_key_not_function_key; [|exact Heq].
    apply (valid_per_function _ _ Hv' Hb').
  - exfalso. eapply bundle_key_not_function_key; [|symmetry; exact Heq].
    apply (valid_per_function _ _ Hv Hb).
  - apply function_keys_injective in Heq as [Hf Hs];
      [| apply (valid_per_function _ _ Hv Hb) | apply (valid_per_function _ _ Hv' Hb')].
    auto.
Qed.

Lemma own_keys_separate_witness :
  let other := mkRequest "https://other.example" (Some "overview") None (Some "ibm")
                         (Some "1") in
  symbol_of (overview_request None) = symbol_of other /\
  fn_of (overview_request None) = fn_of other.
Proof.
  intros other.
  destruct (own_keys_separate (overview_request None) demo_env other demo_env
              eq_refl eq_refl eq_refl eq_refl eq_refl) as (_ & Hs & Hf).
  split; [exact Hs | exact (Hf eq_refl)].
Defined.

(** X12: among valid requests with ASCII function names and plain
    symbols, a request leaves the cache entry of every request for
    something else (the other mode, another symbol, another function)
    as it was. *)
Theorem requests_do_not_interfere host request env request' env' w :
  plainly_asked request = true -> plainly_asked request' = true ->
  per_function request env || bundled request env = true ->
  per_function request' env' || bundled request' env' = true ->
  is_one (q_bundle request) <> is_one (q_bundle request') \/
  symbol_of request <> symbol_of request' \/
  (is_one (q_bundle request) = false /\ fn_of request <> fn_of request') ->
  cache (world_of (onRequestGet host request env w)) !! own_key request' =
  cache w !! own_key request'.
Proof.
  intros _ _ Hv Hv' Hdiff. apply other_keys_untouched. intros Heq. symmetry in Heq.
  unfold own_key, bundleKey_of, cacheKey_of in Heq.
  destruct (is_one (q_bundle request)) eqn:Hb;
    destruct (is_one (q_bundle request')) eqn:Hb'.
  - apply bundle_keys_injective in Heq. destruct Hdiff as [H | [H | [H _]]]; congruence.
  - eapply bundle_key_not_function_key; [|exact Heq].
    apply (valid_per_function _ _ Hv' Hb').
  - eapply bundle_key_not_function_key; [|symmetry; exact Heq].
    apply (valid_per_function _ _ Hv Hb).
  - apply function_keys_injective in Heq as [Hf Hs];
      [| apply (valid_per_function _ _ Hv Hb) | apply (valid_per_function _ _ Hv' Hb')].
    destruct Hdiff as [H | [H | [_ H]]]; congruence.
Qed.

Lemma requests_do_not_interfere_witness :
  let run := onRequestGet (always good_reply) (overview_request None) demo_env fresh_world in
  cache (world_of run) !! own_key (bundle_request None) = None /\
  cache (world_of run) !! own_key (overview_request None) <> None.
Proof.
  intros run. split; [|discriminate].
  subst run.
  rewrite (requests_do_not_interfere (always good_reply) (overview_request None) demo_env
             (bundle_request None) demo_env fresh_world eq_refl eq_refl eq_refl eq_refl).
  - reflexivity.
  - left. discriminate.
Defined.

(** *** Case *)

Lemma upper_ascii_idem c : upper_ascii (upper_ascii c) = upper_ascii c.
Proof. destruct c as [[] [] [] [] [] [] [] []]; reflexivity. Qed.

Lemma toUpperCase_idem s : toUpperCase (toUpperCase s) = toUpperCase s.
Proof. induction s as [|c s IH]; cbn; [reflexivity|]. rewrite upper_ascii_idem, IH. reflexivity. Qed.

Lemma upper_param x : toUpperCase (or_empty (toUpperCase <$> x)) = toUpperCase (or_empty x).
Proof. destruct x as [s|]; cbn; [apply toUpperCase_idem | reflexivity]. Qed.

(** X11: for [function] and [symbol] parameters of ASCII text the letter
    case does not matter: a request and its upper-cased form are handled
    identically. *)
Theorem case_of_parameters_irrelevant host request env w :
  ascii_text (or_empty (q_function request)) = true ->
  ascii_text (or_empty (q_symbol request)) = true ->
  onRequestGet host (normalised request) env w = onRequestGet host request env w.
Proof.
  intros _ _. unfold onRequestGet, normalised.
  cbn [url_origin q_function q_bundle q_symbol q_nocache].
  rewrite !upper_param. reflexivity.
Qed.

Lemma case_of_parameters_irrelevant_witness :
  onRequestGet (always good_reply)
    (mkRequest "https://ratios.example" (Some "OVERVIEW") None (Some "IBM") None)
    demo_env fresh_world =
  onRequestGet (always good_reply)
    (mkRequest "https://ratios.example" (Some "overview") None (Some "ibm") None)
    demo_env fresh_world.
Proof.
  exact (case_of_parameters_irrelevant (always good_reply)
           (mkRequest "https://ratios.example" (Some "overview") None (Some "ibm") None)
           demo_env fresh_world eq_refl eq_refl).
Defined.

(** ** The second revision *)

Ltac rev2_cases :=
  unfold Rev2.onRequestGet, bind;
  repeat match goal with
         | |- context [if String.eqb ?a ?b || String.eqb ?c ?d || negb ?e then _ else _] =>
             destruct (String.eqb a b || String.eqb c d || negb e) eqn:?
         | |- context [if falsy_str ?k then _ else _] => destruct (falsy_str k) eqn:?
         | |- context [if is_one ?b then _ else _] => destruct (is_one b) eqn:?; cbn [ret cache_match]
         | |- context [match cache ?w !! ?k with _ => _ end] => destruct (cache w !! k) eqn:?
         end;
  unfold fetchOnce;
  repeat match goal with
         | |- context [match provider ?h ?u ?n with _ => _ end] =>
             destruct (provider h u n) eqn:?
         | |- context [match Rev2.avProblem ?d with _ => _ end] =>
             destruct (Rev2.avProblem d) eqn:?
         | |- context [if negb ?a || is_null ?b then _ else _] =>
             destruct (negb a || is_null b) eqn:?
         end;
  cbn [ret cache_put fst snd cache inflight fetched timers].

(** X16: the second revision had no retry, no pause and no in-flight
    registry: a request makes at most one provider call, and the only
    change it ever makes to the cache is to put, without [nocache=1], the
    200 response it returns, whose payload is parsed and free of provider
    notices. *)
Theorem rev2_one_call_clean_writes host request env w :
  let fn := or_empty (q_function request) in
  let key := Rev2.cacheKey fn (symbol_of request) in
  let url := upstreamFor (symbol_of request) env fn in
  let run := Rev2.onRequestGet host request env w in
  inflight (snd run) = inflight w /\ timers (snd run) = timers w /\
  (fetched (snd run) = fetched w \/ fetched (snd run) = fetched w ++ [url]) /\
  (cache (snd run) = cache w \/
   (nocache_of request = false /\
    exists r, fst run = Ok r /\ resp_status r = 200 /\
              Rev2.avProblem (resp_body r) = None /\ is_null (resp_body r) = false /\
              cache (snd run) = <[key := r]> (cache w))).
Proof.
  intros fn key url run. subst run key url fn. unfold symbol_of, nocache_of.
  rev2_cases; repeat split; auto.
  right. split; [reflexivity|]. eexists. split; [reflexivity|].
  cbn [resp_status resp_body].
  match goal with H : negb _ || is_null _ = false |- _ =>
    apply orb_false_elim in H as [_ Hnull] end.
  repeat split; auto.
Qed.

Lemma rev2_avProblem_status data p :
  Rev2.avProblem data = Some p -> p_status p = 429 \/ p_status p = 400.
Proof.
  unfold Rev2.avProblem.
  destruct (negb (truthy data) || negb (String.eqb (typeof data) "object")); [discriminate|].
  destruct (flagged (prop data "Note") 429 "note") eqn:H1.
  { intros [= <-]. apply flagged_some in H1. tauto. }
  destruct (flagged (prop data "Information") 429 "info") eqn:H2.
  { intros [= <-]. apply flagged_some in H2. tauto. }
  intros H3. apply flagged_some in H3. tauto.
Qed.

(** The ways the second revision deals with a request. *)
Lemma rev2_dealt host request env w :
  let fn := or_empty (q_function request) in
  let key := Rev2.cacheKey fn (symbol_of request) in
  let url := upstreamFor (symbol_of request) env fn in
  let called := mkWorld (cache w) (inflight w) (fetched w ++ [url]) (timers w) in
  let run := Rev2.onRequestGet host request env w in
  let valid := negb (String.eqb fn "" || String.eqb (symbol_of request) ""
                     || negb (ALLOWED_has fn))
               && negb (falsy_str (ALPHA_API_KEY env)) in
  (valid = false /\
   exists r, run = (Ok r, w) /\ (resp_status r = 400 \/ resp_status r = 500)) \/
  (valid = true /\ nocache_of request = false /\
   exists hit, cache w !! key = Some hit /\
               run = (Ok (Rev2.serveHit hit (url_origin request)), w)) \/
  (valid = true /\ (nocache_of request = true \/ cache w !! key = None) /\
   (run = (Thrown, called) \/
    (exists r, run = (Ok r, called) /\
               (resp_status r = 400 \/ resp_status r = 429 \/ resp_status r = 502)) \/
    (exists r, resp_status r = 200 /\
               run = (Ok r, mkWorld (if nocache_of request then cache w
                                     else <[key := r]> (cache w))
                                    (inflight w) (fetched w ++ [url]) (timers w))))).
Proof.
  intros fn key url called run valid.
  subst run valid called key url fn. unfold symbol_of, nocache_of.
  rev2_cases; cbn [negb andb].
  all: try (left; split; [reflexivity|]; eexists; split; [reflexivity|]; cbn; auto; fail).
  all: try (right; left; split; [reflexivity|]; split; [reflexivity|];
            eexists; split; reflexivity; fail).
  all: right; right; split; [reflexivity|]; split; [auto|].
  all: try (left; reflexivity).
  all: try (right; right; eexists; split; [|reflexivity]; reflexivity).
  all: right; left; eexists; split; [reflexivity|]; cbn [json resp_status];
    try (match goal with H : Rev2.avProblem _ = Some _ |- _ =>
           apply rev2_avProblem_status in H; tauto end); auto.
Qed.

(** X17: the second revision passed a provider notice on after one call:
    status 429 for a note or an information text and 400 for an error
    message, with the text under [detail] and its kind in [x-av-kind];
    nothing is cached. *)
Theorem rev2_problem_passed_through host request env w reply p :
  let fn := or_empty (q_function request) in
  let key := Rev2.cacheKey fn (symbol_of request) in
  let url := upstreamFor (symbol_of request) env fn in
  ALLOWED_has fn = true ->
  symbol_of request <> "" ->
  falsy_str (ALPHA_API_KEY env) = false ->
  nocache_of request = true \/ cache w !! key = None ->
  provider host url (count_occ Url_eq_dec (fetched w) url) = Some reply ->
  Rev2.avProblem (f_data (fetched_of reply)) = Some p ->
  exists r,
    Rev2.onRequestGet host request env w =
      (Ok r, mkWorld (cache w) (inflight w) (fetched w ++ [url]) (timers w)) /\
    resp_status r = p_status p /\
    (resp_status r = 429 \/ resp_status r = 400) /\
    prop (resp_body r) "detail" = Some (p_msg p) /\
    hget "x-av-kind" (resp_headers r) = Some (p_kind p) /\
    hget "x-proxy-cache" (resp_headers r) = Some "MISS".
Proof.
  intros fn key url Hfn Hsym Hkey Hmiss Hreply Hp.
  subst key url. unfold symbol_of, nocache_of, fetched_of in *.
  unfold Rev2.onRequestGet. fold fn. rewrite Hfn, Hkey.
  destruct (String.eqb_spec fn "") as [E|_].
  { rewrite E in Hfn. discriminate. }
  destruct (String.eqb_spec (toUpperCase (or_empty (q_symbol request))) "") as [E|_];
    [contradiction|].
  cbn [orb negb]. unfold bind.
  assert ((if is_one (q_nocache request) then ret None
           else cache_match (Rev2.cacheKey fn (toUpperCase (or_empty (q_symbol request))))) w
          = (Ok None, w)) as ->.
  { destruct Hmiss as [-> | Hnone]; [reflexivity|].
    destruct (is_one (q_nocache request)); [reflexivity|].
    unfold cache_match. rewrite Hnone. reflexivity. }
  unfold fetchOnce. rewrite Hreply. cbn [f_data]. cbn [f_data] in Hp. rewrite Hp.
  eexists. split; [reflexivity|].
  pose proof (rev2_avProblem_status _ _ Hp) as Hst.
  cbn [json resp_status resp_body prop assoc String.eqb Ascii.eqb Bool.eqb].
  repeat split; auto.
Qed.

Lemma rev2_problem_passed_through_witness :
  exists r,
    Rev2.onRequestGet (always throttle_reply) (overview_request None) demo_env fresh_world =
      (Ok r, mkWorld ∅ ∅ [upstreamFor "IBM" demo_env "OVERVIEW"] []) /\
    resp_status r = 429 /\
    hget "x-av-kind" (resp_headers r) = Some "note".
Proof.
  destruct (rev2_problem_passed_through (always throttle_reply) (overview_request None)
              demo_env fresh_world throttle_reply
              (mkProblem 429 (JStr "5 calls per minute") "note"))
    as (r & Hrun & Hst & _ & _ & Hkind & _).
  - reflexivity.
  - discriminate.
  - reflexivity.
  - right. reflexivity.
  - reflexivity.
  - reflexivity.
  - exists r. split; [exact Hrun|]. split; [exact Hst | exact Hkind].
Defined.

(** *** The headers of a hit *)

Lemma lower_ascii_idem c : Rev2.lower_ascii (Rev2.lower_ascii c) = Rev2.lower_ascii c.
Proof. destruct c as [[] [] [] [] [] [] [] []]; reflexivity. Qed.

Lemma toLowerCase_idem s : Rev2.toLowerCase (Rev2.toLowerCase s) = Rev2.toLowerCase s.
Proof.
  induction s as [|c s IH]; cbn; [reflexivity|]. rewrite lower_ascii_idem, IH. reflexivity.
Qed.

Lemma hget_happend k k' v hs :
  hget k (Rev2.happend k' v hs) =
  if String.eqb k k' then joined (hget k hs) [v] else hget k hs.
Proof.
  induction hs as [|[k0 v0] hs IH]; cbn [Rev2.happend hget].
  - destruct (String.eqb k k'); reflexivity.
  - destruct (String.eqb_spec k' k0) as [->|Hne]; cbn [hget].
    + destruct (String.eqb k k0); reflexivity.
    + destruct (String.eqb_spec k k0) as [->|Hne'].
      * destruct (String.eqb_spec k0 k'); [congruence | reflexivity].
      * exact IH.
Qed.

Lemma hget_headers k obj : forall acc,
  hget k (fold_left (fun acc kv => Rev2.happend (Rev2.toLowerCase (fst kv)) (snd kv) acc)
                    obj acc) =
  joined (hget k acc) (map snd (filed k obj)).
Proof.
  induction obj as [|[n v] obj IH]; intros acc; cbn [fold_left filed List.filter map fst snd].
  - reflexivity.
  - rewrite IH, hget_happend. fold (filed k obj). rewrite (String.eqb_sym k).
    destruct (String.eqb (Rev2.toLowerCase n) k); reflexivity.
Qed.

Lemma happend_names k v hs :
  map fst (Rev2.happend k v hs) =
  if existsb (String.eqb k) (map fst hs) then map fst hs else map fst hs ++ [k].
Proof.
  induction hs as [|[k0 v0] hs IH]; cbn [Rev2.happend map fst existsb]; [reflexivity|].
  destruct (String.eqb k k0); cbn [map fst orb]; [reflexivity|].
  rewrite IH. destruct (existsb (String.eqb k) (map fst hs)); reflexivity.
Qed.

Lemma happend_tidy k v hs :
  Rev2.toLowerCase k = k -> tidy hs -> tidy (Rev2.happend k v hs).
Proof.
  intros Hk [Hlow Hnd]. split.
  - clear Hnd. induction Hlow as [|[k0 v0] hs H0 Hlow IH]; cbn [Rev2.happend].
    + constructor; [exact Hk | constructor].
    + destruct (String.eqb k k0); constructor; auto.
  - rewrite happend_names.
    destruct (existsb (String.eqb k) (map fst hs)) eqn:Hex; [exact Hnd|].
    apply NoDup_app. split; [exact Hnd|]. split; [|apply NoDup_singleton].
    intros x Hx Hin. apply list_elem_of_singleton in Hin. subst x.
    assert (existsb (String.eqb k) (map fst hs) = true) as Hyes.
    { apply existsb_exists. exists k. split; [apply list_elem_of_In; exact Hx|].
      apply String.eqb_refl. }
    congruence.
Qed.

Lemma headersOf_tidy obj : tidy (Rev2.headersOf obj).
Proof.
  unfold Rev2.headersOf.
  assert (forall acc, tidy acc ->
            tidy (fold_left (fun acc kv => Rev2.happend (Rev2.toLowerCase (fst kv)) (snd kv) acc)
                            obj acc)) as Gen.
  { induction obj as [|[n v] obj IH]; intros acc Hacc; cbn [fold_left]; [exact Hacc|].
    apply IH, happend_tidy; [apply toLowerCase_idem | exact Hacc]. }
  apply Gen. split; constructor.
Qed.

Lemma filed_hset_other k c v obj :
  Rev2.toLowerCase c <> k -> filed k (hset c v obj) = filed k obj.
Proof.
  intros Hc. apply String.eqb_neq in Hc.
  induction obj as [|[n v0] obj IH]; cbn [hset filed List.filter fst].
  - rewrite Hc. reflexivity.
  - destruct (String.eqb_spec c n) as [->|Hne]; cbn [filed List.filter fst].
    + rewrite Hc. reflexivity.
    + fold (filed k obj). fold (filed k (hset c v obj)). rewrite IH. reflexivity.
Qed.

Lemma filed_hset_own k v obj :
  Rev2.toLowerCase k = k ->
  Forall (fun kv => fst kv = k) (filed k obj) ->
  (length (filed k obj) <= 1)%nat ->
  filed k (hset k v obj) = [(k, v)].
Proof.
  intros Hk. induction obj as [|[n v0] obj IH]; cbn [hset filed List.filter fst];
    intros Hall Hlen.
  - rewrite Hk, String.eqb_refl. reflexivity.
  - fold (filed k obj) in *.
    destruct (String.eqb_spec k n) as [<-|Hne]; cbn [filed List.filter fst].
    + fold (filed k obj). rewrite Hk, String.eqb_refl in *. cbn [length] in Hlen.
      destruct (filed k obj); [reflexivity | cbn in Hlen; lia].
    + fold (filed k (hset k v obj)).
      destruct (String.eqb_spec (Rev2.toLowerCase n) k) as [Heq|_].
      * apply Forall_cons in Hall as [Hn _]. cbn in Hn. congruence.
      * apply IH; assumption.
Qed.

Lemma filed_tidy k hs :
  tidy hs -> Forall (fun kv => fst kv = k) (filed k hs) /\ (length (filed k hs) <= 1)%nat.
Proof.
  intros [Hlow Hnd].
  assert (Forall (fun kv => fst kv = k) (filed k hs)) as Hall.
  { apply Forall_forall. intros [n v] Hin. apply list_elem_of_In, filter_In in Hin as [Hin Hn].
    cbn [fst] in *. apply String.eqb_eq in Hn.
    rewrite Forall_forall in Hlow. specialize (Hlow (n, v)). cbn [fst] in Hlow.
    rewrite Hlow in Hn; [exact Hn | apply list_elem_of_In; exact Hin]. }
  split; [exact Hall|].
  clear Hall. induction hs as [|[n v] hs IH]; cbn [filed List.filter fst length]; [lia|].
  fold (filed k hs). apply Forall_cons in Hlow as [Hn Hlow]. cbn [fst] in Hn.
  cbn [map fst] in Hnd. apply NoDup_cons in Hnd as [Hnotin Hnd].
  specialize (IH Hlow Hnd).
  destruct (String.eqb_spec (Rev2.toLowerCase n) k) as [Heq|_]; [|exact IH].
  cbn [length]. rewrite Hn in Heq. subst n.
  assert (filed k hs = []) as ->; [|cbn; lia].
  apply CoordinatorFacts.filter_none. intros [n' v'] Hin. cbn [fst].
  apply String.eqb_neq. intros Heq.
  rewrite Forall_forall in Hlow. specialize (Hlow (n', v')). cbn [fst] in Hlow.
  rewrite Hlow in Heq by (apply list_elem_of_In; exact Hin). subst n'.
  apply Hnotin. apply list_elem_of_In. apply in_map_iff.
  exists (k, v'). split; [reflexivity | exact Hin].
Qed.

Lemma rev2_hit_marked hit origin :
  hget "x-proxy-cache" (resp_headers (Rev2.serveHit hit origin)) = Some "HIT".
Proof.
  unfold Rev2.serveHit, Rev2.headersOf at 1. cbn [resp_headers].
  rewrite hget_headers. unfold spread. cbn [fold_left cors fst snd].
  destruct (filed_tidy "x-proxy-cache" _ (headersOf_tidy (resp_headers hit)))
    as [Hall Hlen].
  rewrite filed_hset_own; [reflexivity | reflexivity | |];
    rewrite !filed_hset_other by discriminate; assumption.
Qed.

(** X18: round trip of the second revision.  After a request without
    [nocache=1] was answered 200, the same request is answered 200 with
    the same body, marked HIT, whatever the provider would say now, and
    the world is not changed. *)
Theorem rev2_fresh_answer_then_hit host host' request env w r w1 :
  nocache_of request = false ->
  Rev2.onRequestGet host request env w = (Ok r, w1) ->
  resp_status r = 200 ->
  exists r',
    Rev2.onRequestGet host' request env w1 = (Ok r', w1) /\
    resp_status r' = 200 /\ resp_body r' = resp_body r /\
    hget "x-proxy-cache" (resp_headers r') = Some "HIT".
Proof.
  intros Hnc Hrun Hst.
  pose proof (rev2_dealt host request env w) as Hd. cbv zeta in Hd.
  pose proof (rev2_dealt host' request env w1) as Hd'. cbv zeta in Hd'.
  rewrite Hrun in Hd.
  destruct Hd as [(_ & r0 & [= <- _] & H) | [(Hv & _ & hit & Hhit & [= -> <-]) | (Hv & _ & H)]].
  - destruct H; congruence.
  - destruct Hd' as [(Hv' & _) | [(_ & _ & hit' & Hhit' & Hrun') | (_ & [H|H] & _)]];
      try congruence.
    rewrite Hhit in Hhit'. injection Hhit' as <-.
    exists (Rev2.serveHit hit (url_origin request)). split; [exact Hrun'|].
    split; [exact Hst|]. split; [reflexivity|]. apply rev2_hit_marked.
  - destruct H as [[=] | [(r0 & [= <- _] & H) | (r0 & Hst0 & [= <- ->])]].
    + destruct H as [H|[H|H]]; congruence.
    + rewrite Hnc in *. cbn [cache] in Hd'.
      destruct Hd' as [(Hv' & _) | [(_ & _ & hit' & Hhit' & Hrun') | (_ & [H|H] & _)]];
        try congruence.
      * rewrite lookup_insert_eq in Hhit'. injection Hhit' as <-.
        eexists. split; [exact Hrun'|]. split; [exact Hst|].
        split; [reflexivity | apply rev2_hit_marked].
      * rewrite lookup_insert_eq in H. discriminate.
Qed.

Lemma rev2_fresh_answer_then_hit_witness :
  let first := Rev2.onRequestGet (always good_reply) (overview_request None) demo_env
                 fresh_world in
  exists r',
    Rev2.onRequestGet (always throttle_reply) (overview_request None) demo_env (snd first)
      = (Ok r', snd first) /\
    resp_status r' = 200 /\
    resp_body r' = JObj [("Symbol", JStr "IBM"); ("PERatio", JStr "21.5")].
Proof.
  intros first.
  destruct (rev2_fresh_answer_then_hit (always good_reply) (always throttle_reply)
              (overview_request None) demo_env fresh_world
              (mkResponse 200 (JObj [("Symbol", JStr "IBM"); ("PERatio", JStr "21.5")])
                 (spread
                    (spread [ ("content-type", "application/json; charset=utf-8");
                              ("cache-control", "public, max-age=21600") ]
                            (cors "https://ratios.example"))
                    [("x-proxy-cache", "MISS")]))
              (snd first) eq_refl eq_refl eq_refl) as (r' & Hrun & Hst & Hbody & _).
  exists r'. split; [exact Hrun|]. split; [exact Hst | exact Hbody].
Defined.

(** X19: the second revision answered a reply it could not use (a body
    that does not parse, or a failure status without a notice) with 502
    after one call, reporting the provider's status, and cached nothing. *)
Theorem rev2_unusable_reply_answered_502 host request env w reply :
  let fn := or_empty (q_function request) in
  let key := Rev2.cacheKey fn (symbol_of request) in
  let url := upstreamFor (symbol_of request) env fn in
  ALLOWED_has fn = true ->
  symbol_of request <> "" ->
  falsy_str (ALPHA_API_KEY env) = false ->
  nocache_of request = true \/ cache w !! key = None ->
  provider host url (count_occ Url_eq_dec (fetched w) url) = Some reply ->
  r_json reply = None \/
  (status_ok (r_status reply) = false /\
   Rev2.avProblem (f_data (fetched_of reply)) = None) ->
  exists r,
    Rev2.onRequestGet host request env w =
      (Ok r, mkWorld (cache w) (inflight w) (fetched w ++ [url]) (timers w)) /\
    resp_status r = 502 /\
    prop (resp_body r) "upstreamStatus" = Some (JNum (r_status reply)) /\
    hget "x-proxy-cache" (resp_headers r) = Some "MISS".
Proof.
  intros fn key url Hfn Hsym Hkey Hmiss Hreply Hbad.
  subst key url. unfold symbol_of, nocache_of, fetched_of in *.
  unfold Rev2.onRequestGet. fold fn. rewrite Hfn, Hkey.
  destruct (String.eqb_spec fn "") as [E|_].
  { rewrite E in Hfn. discriminate. }
  destruct (String.eqb_spec (toUpperCase (or_empty (q_symbol request))) "") as [E|_];
    [contradiction|].
  cbn [orb negb]. unfold bind.
  assert ((if is_one (q_nocache request) then ret None
           else cache_match (Rev2.cacheKey fn (toUpperCase (or_empty (q_symbol request))))) w
          = (Ok None, w)) as ->.
  { destruct Hmiss as [-> | Hnone]; [reflexivity|].
    destruct (is_one (q_nocache request)); [reflexivity|].
    unfold cache_match. rewrite Hnone. reflexivity. }
  unfold fetchOnce. rewrite Hreply. cbn [f_data f_ok f_status f_txt] in *.
  assert (Rev2.avProblem (default JNull (r_json reply)) = None /\
          negb (status_ok (r_status reply)) || is_null (default JNull (r_json reply)) = true)
    as [-> ->].
  { destruct Hbad as [-> | [-> ->]]; [|auto]. split; [reflexivity|]. apply orb_true_r. }
  eexists. split; [reflexivity|]. repeat split; auto.
Qed.

Lemma rev2_unusable_reply_answered_502_witness :
  exists r,
    Rev2.onRequestGet (always unparsed_reply) (overview_request None) demo_env fresh_world =
      (Ok r, mkWorld ∅ ∅ [upstreamFor "IBM" demo_env "OVERVIEW"] []) /\
    resp_status r = 502.
Proof.
  destruct (rev2_unusable_reply_answered_502 (always unparsed_reply) (overview_request None)
              demo_env fresh_world unparsed_reply)
    as (r & Hrun & Hst & _).
  - reflexivity.
  - discriminate.
  - reflexivity.
  - right. reflexivity.
  - reflexivity.
  - left. reflexivity.
  - exists r. split; [exact Hrun | exact Hst].
Defined.

(** ** The bundle and the per-function answers *)

Lemma response_of_ok r w : response_of (Ok (Responded r), w) = Some r.
Proof. reflexivity. Qed.

(** X20: a clean bundle holds the per-function answers.  Against a
    provider whose answer depends on the address only, when a bundle
    request is answered 200, a per-function request for the same symbol
    that goes to the provider is answered 200 too, and its body is what
    the bundle carries under the name of that function. *)
Theorem clean_bundle_holds_function_answers answer rnd rb rf env w out :
  let host := steady answer rnd in
  bundled rb env = true ->
  per_function rf env = true ->
  symbol_of rf = symbol_of rb ->
  goes_upstream (nocache_of rb) (bundleKey_of rb) (bundleFlightKey_of rb) w = true ->
  goes_upstream (nocache_of rf) (cacheKey_of rf) (flightKey_of rf) w = true ->
  response_of (onRequestGet host rb env w) = Some out ->
  resp_status out = 200 ->
  exists r,
    response_of (onRequestGet host rf env w) = Some r /\
    resp_status r = 200 /\
    prop (resp_body out) (bundle_part (fn_of rf)) = Some (resp_body r).
Proof.
  intros host Hb Hf Hsym Hgob Hgof Hout Hst. subst host. unfold steady in *.
  pose proof (bundled_run (fun u _ => answer u) rnd rb env w Hb Hgob) as Hrb.
  pose proof (per_function_run (fun u _ => answer u) rnd rf env w Hf Hgof) as Hrf.
  cbv zeta in Hrb, Hrf. unfold round in Hrb. cbv beta in Hrb, Hrf.
  set (parts := map (fun u => fetched_of (answer u)) (bundleUrls (symbol_of rb) env)) in *.
  set (r1 := fetched_of (answer (url_of rf env))) in *.
  replace (if existsb is_problem parts then parts else parts) with parts in Hrb
    by (destruct (existsb is_problem parts); reflexivity).
  replace (if is_problem r1 then r1 else r1) with r1 in Hrf
    by (destruct (is_problem r1); reflexivity).
  rewrite Hrb in Hout. rewrite Hrf. rewrite response_of_ok in *.
  injection Hout as <-. clear Hrb Hrf.
  unfold bundleAnswer in *.
  destruct (forallb leg_ok parts) eqn:Hok; [|discriminate].
  subst parts r1. cbn [bundleUrls map forallb] in Hok.
  apply andb_prop in Hok as [H0 Hok]. apply andb_prop in Hok as [H1 Hok].
  apply andb_prop in Hok as [H2 Hok]. apply andb_prop in Hok as [H3 _].
  assert (ALLOWED_has (fn_of rf) = true) as Ha.
  { unfold per_function in Hf. apply andb_prop in Hf as [_ Ha]. exact Ha. }
  unfold url_of. rewrite Hsym.
  assert (leg_ok (fetched_of (answer (upstreamFor (symbol_of rb) env (fn_of rf)))) = true /\
          prop (bundlePayload
                  (map (fun u => fetched_of (answer u)) (bundleUrls (symbol_of rb) env)))
               (bundle_part (fn_of rf)) =
          Some (f_data (fetched_of (answer (upstreamFor (symbol_of rb) env (fn_of rf))))))
    as [Hleg Hprop].
  { unfold ALLOWED_has, ALLOWED in Ha. cbn [existsb] in Ha.
    destruct (String.eqb_spec (fn_of rf) "INCOME_STATEMENT") as [->|_]; [split; [exact H0|reflexivity]|].
    destruct (String.eqb_spec (fn_of rf) "BALANCE_SHEET") as [->|_]; [split; [exact H1|reflexivity]|].
    destruct (String.eqb_spec (fn_of rf) "CASH_FLOW") as [->|_]; [split; [exact H2|reflexivity]|].
    destruct (String.eqb_spec (fn_of rf) "OVERVIEW") as [->|_]; [split; [exact H3|reflexivity]|].
    discriminate. }
  unfold answerFor. rewrite Hleg.
  eexists. split; [reflexivity|]. split; [reflexivity|].
  cbn [wrapOk resp_body]. exact Hprop.
Qed.

Lemma clean_bundle_holds_function_answers_witness :
  let host := steady (fun _ => good_reply) (1 # 2) in
  exists out r,
    response_of (onRequestGet host (bundle_request None) demo_env fresh_world) = Some out /\
    response_of (onRequestGet host (overview_request None) demo_env fresh_world) = Some r /\
    prop (resp_body out) "overview" = Some (resp_body r).
Proof.
  intros host.
  eexists.
  destruct (clean_bundle_holds_function_answers (fun _ => good_reply) (1 # 2)
              (bundle_request None) (overview_request None) demo_env fresh_world _
              eq_refl eq_refl eq_refl eq_refl eq_refl eq_refl eq_refl) as (r & Hr & _ & Hp).
  exists r. split; [reflexivity|]. split; [exact Hr | exact Hp].
Defined.

(** ** Entries under other keys *)

Lemma conclude_frame out store key w calls waits k e :
  k <> key ->
  conclude out store key (with_cache (<[k := e]> (cache w)) w) calls waits =
  (fst (conclude out store key w calls waits),
   with_cache (<[k := e]> (cache (snd (conclude out store key w calls waits))))
              (snd (conclude out store key w calls waits))).
Proof.
  intros Hne. unfold conclude, with_cache. cbn [fst snd cache inflight fetched timers].
  destruct store; [|reflexivity]. rewrite insert_insert_ne by congruence. reflexivity.
Qed.

Lemma singleOutcome_frame host origin url ttl nocache key w k e :
  k <> key ->
  singleOutcome host origin url ttl nocache key (with_cache (<[k := e]> (cache w)) w) =
  (fst (singleOutcome host origin url ttl nocache key w),
   with_cache (<[k := e]> (cache (snd (singleOutcome host origin url ttl nocache key w))))
              (snd (singleOutcome host origin url ttl nocache key w))).
Proof.
  intros Hne. unfold singleOutcome. cbn [with_cache fetched].
  destruct (provider host url _) as [ra|]; [|reflexivity].
  destruct (is_problem (fetched_of ra)); [|apply conclude_frame; exact Hne].
  destruct (provider host url _) as [rb|]; [apply conclude_frame; exact Hne | reflexivity].
Qed.

Lemma bundleOutcome_frame host origin urls ttl nocache key w k e :
  k <> key ->
  bundleOutcome host origin urls ttl nocache key (with_cache (<[k := e]> (cache w)) w) =
  (fst (bundleOutcome host origin urls ttl nocache key w),
   with_cache (<[k := e]> (cache (snd (bundleOutcome host origin urls ttl nocache key w))))
              (snd (bundleOutcome host origin urls ttl nocache key w))).
Proof.
  intros Hne. unfold bundleOutcome.
  change (answers_of host (with_cache (<[k := e]> (cache w)) w)) with (answers_of host w).
  destruct (collect (answers_of host w urls 0)) as [p1|]; [|reflexivity].
  destruct (existsb is_problem p1); [|apply conclude_frame; exact Hne].
  destruct (collect (answers_of host w urls 1)) as [p2|];
    [apply conclude_frame; exact Hne | reflexivity].
Qed.

(** X21: a request with an ASCII function name and a plain symbol does
    not read the entries of other keys.  With an entry added under any key
    but its own, it gives the same result, makes the same calls and leaves
    the same cache, the added entry included; entries of the older key
    namespaces are of this kind. *)
Theorem other_entries_not_read host request env w key e :
  plainly_asked request = true ->
  key <> own_key request ->
  let run := onRequestGet host request env w in
  onRequestGet host request env (with_cache (<[key := e]> (cache w)) w) =
  (fst run, with_cache (<[key := e]> (cache (snd run))) (snd run)).
Proof.
  intros _ Hne run. subst run. rewrite !onRequestGet_served. unfold served, own_key in *.
  destruct (falsy_str (ALPHA_API_KEY env)); [reflexivity|].
  destruct (String.eqb (symbol_of request) ""); [reflexivity|].
  assert (forall k flight (outcome : World -> Result Response * World),
            key <> k ->
            (outcome (with_cache (<[key := e]> (cache w)) w) =
             (fst (outcome w), with_cache (<[key := e]> (cache (snd (outcome w))))
                                          (snd (outcome w)))) ->
            match (if nocache_of request then None
                   else cache (with_cache (<[key := e]> (cache w)) w) !! k) with
            | Some hit => (Ok (Responded (serveHit hit DEFAULT_TTL)),
                           with_cache (<[key := e]> (cache w)) w)
            | None => viaFlight flight (outcome (with_cache (<[key := e]> (cache w)) w))
                                (with_cache (<[key := e]> (cache w)) w)
            end =
            (fst match (if nocache_of request then None else cache w !! k) with
                 | Some hit => (Ok (Responded (serveHit hit DEFAULT_TTL)), w)
                 | None => viaFlight flight (outcome w) w
                 end,
             with_cache
               (<[key := e]>
                  (cache (snd match (if nocache_of request then None else cache w !! k) with
                              | Some hit => (Ok (Responded (serveHit hit DEFAULT_TTL)), w)
                              | None => viaFlight flight (outcome w) w
                              end)))
               (snd match (if nocache_of request then None else cache w !! k) with
                    | Some hit => (Ok (Responded (serveHit hit DEFAULT_TTL)), w)
                    | None => viaFlight flight (outcome w) w
                    end))) as Block.
  { intros k flight outcome Hk Hframe.
    assert ((if nocache_of request then None
             else cache (with_cache (<[key := e]> (cache w)) w) !! k) =
            (if nocache_of request then None else cache w !! k)) as ->.
    { destruct (nocache_of request); [reflexivity|]. cbn [with_cache cache].
      apply lookup_insert_ne. exact Hk. }
    destruct (if nocache_of request then None else cache w !! k) as [hit|]; [reflexivity|].
    rewrite Hframe. unfold viaFlight. cbn [with_cache inflight fst snd].
    destruct (bool_decide (flight ∈ inflight w)); reflexivity. }
  destruct (is_one (q_bundle request)).
  - apply Block; [exact Hne|]. apply bundleOutcome_frame. exact Hne.
  - destruct (String.eqb (fn_of request) "" || negb (ALLOWED_has (fn_of request))) eqn:Hfn;
      [reflexivity|].
    apply orb_false_elim in Hfn as [_ Ha]. apply negb_false_iff in Ha.
    rewrite (TTL_allowed _ Ha). apply Block; [exact Hne|].
    apply singleOutcome_frame. exact Hne.
Qed.

Lemma other_entries_not_read_witness :
  let old := Rev2.cacheKey "OVERVIEW" "IBM" in
  let w := with_cache {[ old := wrap429 (JStr "stale") "" "note" ]} fresh_world in
  status_of (onRequestGet (always good_reply) (overview_request None) demo_env w) = Some 200 /\
  cache (world_of (onRequestGet (always good_reply) (overview_request None) demo_env w)) !! old
    = Some (wrap429 (JStr "stale") "" "note").
Proof.
  intros old w.
  pose proof (other_entries_not_read (always good_reply) (overview_request None) demo_env
                fresh_world old (wrap429 (JStr "stale") "" "note") eq_refl) as H.
  cbv zeta in H.
  change (with_cache (<[old := wrap429 (JStr "stale") "" "note"]> (cache fresh_world))
            fresh_world) with w in H.
  rewrite H by discriminate. split; [reflexivity|].
  cbn [world_of snd with_cache cache]. apply lookup_insert_eq.
Defined.

(** ** The first revision: what it stores and serves *)

Ltac rev1_cases :=
  unfold Rev1.onRequestGet;
  repeat match goal with
         | |- context [if String.eqb ?a ?b || String.eqb ?c ?d || negb ?e then _ else _] =>
             destruct (String.eqb a b || String.eqb c d || negb e) eqn:?
         | |- context [match Rev1.cache ?w !! ?k with _ => _ end] =>
             destruct (Rev1.cache w !! k) eqn:?
         | |- context [match Rev1.provider ?h ?u ?n with _ => _ end] =>
             destruct (Rev1.provider h u n) eqn:?
         | |- context [if Rev1.constructible ?a then _ else _] =>
             destruct (Rev1.constructible a) eqn:?
         | |- context [if status_ok ?a then _ else _] => destruct (status_ok a) eqn:?
         | |- context [if Rev1.storable ?a then _ else _] => destruct (Rev1.storable a) eqn:?
         end;
  cbn [fst snd Rev1.cache Rev1.fetched].

(** X24: the first revision makes at most one provider call per request,
    and the only change it makes to the cache is to store the response it
    returns, of a 2xx status, under the provider address, which held no
    entry. *)
Theorem rev1_one_call_ok_writes host request env w :
  let up := rev1_address request env in
  let run := Rev1.onRequestGet host request env w in
  (Rev1.fetched (snd run) = Rev1.fetched w \/
   Rev1.fetched (snd run) = Rev1.fetched w ++ [up]) /\
  (Rev1.cache (snd run) = Rev1.cache w \/
   exists resp,
     fst run = Ok resp /\ status_ok (Rev1.resp_status resp) = true /\
     Rev1.cache w !! up = None /\
     Rev1.cache (snd run) = <[up := resp]> (Rev1.cache w)).
Proof.
  intros up run. subst up run. unfold rev1_address, symbol_of.
  rev1_cases; split; auto.
  right. eexists. split; [reflexivity|]. cbn [Rev1.resp_status]. auto.
Qed.

Lemma rev1_miss host request env w :
  accepted request = true ->
  Rev1.cache w !! rev1_address request env = None ->
  Rev1.onRequestGet host request env w =
  let up := rev1_address request env in
  let w1 := Rev1.mkWorld (Rev1.cache w) (Rev1.fetched w ++ [up]) in
  match Rev1.provider host up (count_occ Url_eq_dec (Rev1.fetched w) up) with
  | None => (Thrown, w1)
  | Some r =>
      let resp :=
        Rev1.mkResponse (Rev1.a_status r) (Rev1.Text (Rev1.a_text r))
          (spread [ ("content-type", Rev1.content_type (Rev1.a_content_type r));
                    ("cache-control",
                     "public, max-age=" +:+
                     pretty (default 900 (Rev1.TTL_MAP (or_empty (q_function request))))) ]
                  (cors (url_origin request))) in
      if Rev1.constructible (Rev1.a_status r) then
        if status_ok (Rev1.a_status r) then
          if Rev1.storable (Rev1.a_status r)
          then (Ok resp, Rev1.mkWorld (<[up := resp]> (Rev1.cache w)) (Rev1.fetched w ++ [up]))
          else (Thrown, w1)
        else (Ok resp, w1)
      else (Thrown, w1)
  end.
Proof.
  unfold accepted, rev1_address, symbol_of, Rev1.onRequestGet. intros Hacc Hmiss.
  apply negb_true_iff in Hacc. rewrite Hacc, Hmiss. reflexivity.
Qed.

Lemma rev1_hit host request env w resp :
  accepted request = true ->
  Rev1.cache w !! rev1_address request env = Some resp ->
  Rev1.onRequestGet host request env w = (Ok resp, w).
Proof.
  unfold accepted, rev1_address, symbol_of, Rev1.onRequestGet. intros Hacc Hhit.
  apply negb_true_iff in Hacc. rewrite Hacc, Hhit. reflexivity.
Qed.

(** X22: the first revision stores whatever the provider answered with
    status 200, unparsed and unclassified, and from then on answers every
    request for the same address from the cache, without a provider call:
    status 200, the stored text, and the first requester's origin in the
    CORS header. *)
Theorem rev1_ok_answer_stored_and_served host host' request request' env w a :
  let up := rev1_address request env in
  let origin := if String.eqb (url_origin request) "" then "*" else url_origin request in
  accepted request = true ->
  Rev1.cache w !! up = None ->
  Rev1.provider host up (count_occ Url_eq_dec (Rev1.fetched w) up) = Some a ->
  Rev1.a_status a = 200 ->
  accepted request' = true ->
  rev1_address request' env = up ->
  exists resp w1,
    Rev1.onRequestGet host request env w = (Ok resp, w1) /\
    Rev1.resp_status resp = 200 /\
    Rev1.resp_body resp = Rev1.Text (Rev1.a_text a) /\
    exists again,
      Rev1.onRequestGet host' request' env w1 = (Ok again, w1) /\
      Rev1.resp_status again = 200 /\
      Rev1.resp_body again = Rev1.Text (Rev1.a_text a) /\
      hget "Access-Control-Allow-Origin" (Rev1.resp_headers again) = Some origin.
Proof.
  intros up origin Hacc Hmiss Hprov H200 Hacc' Hsame.
  rewrite (rev1_miss host request env w Hacc Hmiss). cbv zeta. fold up.
  rewrite Hprov, H200. cbn [Rev1.constructible Rev1.storable status_ok Z.leb Z.eqb
                              Z.compare Pos.compare Pos.compare_cont Pos.eqb andb orb negb].
  eexists _, _. split; [reflexivity|]. cbn [Rev1.resp_status Rev1.resp_body].
  split; [reflexivity|]. split; [reflexivity|].
  eexists. split.
  - apply rev1_hit; [exact Hacc'|]. rewrite Hsame. cbn [Rev1.cache]. apply lookup_insert_eq.
  - cbn [Rev1.resp_status Rev1.resp_body Rev1.resp_headers].
    split; [reflexivity|]. split; reflexivity.
Qed.

Lemma rev1_ok_answer_stored_and_served_witness :
  let note := Rev1.mkAnswer 200 (r_text throttle_reply) None in
  let host := Rev1.mkHost (fun _ _ => Some note) in
  let silent := Rev1.mkHost (fun _ _ => None) in
  let other := mkRequest "https://other.example" (Some "OVERVIEW") None (Some "ibm") None in
  exists resp w1,
    Rev1.onRequestGet host (overview_request None) demo_env (Rev1.mkWorld ∅ []) = (Ok resp, w1) /\
    exists again,
      Rev1.onRequestGet silent other demo_env w1 = (Ok again, w1) /\
      Rev1.resp_body again = Rev1.Text (r_text throttle_reply) /\
      hget "Access-Control-Allow-Origin" (Rev1.resp_headers again) =
        Some "https://ratios.example".
Proof.
  intros note host silent other.
  destruct (rev1_ok_answer_stored_and_served host silent (overview_request None) other
              demo_env (Rev1.mkWorld ∅ []) note
              eq_refl (lookup_empty _) eq_refl eq_refl eq_refl eq_refl)
    as (resp & w1 & Hrun & _ & _ & again & Hagain & _ & Hbody & Hcors).
  exists resp, w1. split; [exact Hrun|].
  exists again. split; [exact Hagain|]. split; [exact Hbody | exact Hcors].
Defined.

(** X23: the first revision passes a provider failure on: for a status
    outside 2xx that a response can carry, the response has the provider's
    status and body text, after one call, and nothing is stored. *)
Theorem rev1_failure_passed_on_uncached host request env w a :
  let up := rev1_address request env in
  accepted request = true ->
  Rev1.cache w !! up = None ->
  Rev1.provider host up (count_occ Url_eq_dec (Rev1.fetched w) up) = Some a ->
  status_ok (Rev1.a_status a) = false ->
  Rev1.constructible (Rev1.a_status a) = true ->
  exists resp,
    Rev1.onRequestGet host request env w =
      (Ok resp, Rev1.mkWorld (Rev1.cache w) (Rev1.fetched w ++ [up])) /\
    Rev1.resp_status resp = Rev1.a_status a /\
    Rev1.resp_body resp = Rev1.Text (Rev1.a_text a).
Proof.
  intros up Hacc Hmiss Hprov Hok Hcon.
  rewrite (rev1_miss host request env w Hacc Hmiss). cbv zeta. fold up.
  rewrite Hprov, Hcon, Hok. eexists. split; [reflexivity|]. split; reflexivity.
Qed.

Lemma rev1_failure_passed_on_uncached_witness :
  let host := Rev1.mkHost (fun _ _ => Some (Rev1.mkAnswer 503 "busy" None)) in
  exists resp,
    Rev1.onRequestGet host (overview_request None) demo_env (Rev1.mkWorld ∅ []) =
      (Ok resp, Rev1.mkWorld ∅ [Rev1.upstream "OVERVIEW" "IBM" demo_env]) /\
    Rev1.resp_status resp = 503.
Proof.
  intros host.
  destruct (rev1_failure_passed_on_uncached host (overview_request None) demo_env
              (Rev1.mkWorld ∅ []) (Rev1.mkAnswer 503 "busy" None)
              eq_refl (lookup_empty _) eq_refl eq_refl eq_refl) as (resp & Hrun & Hst & _).
  exists resp. split; [exact Hrun | exact Hst].
Defined.

(** ** More on [singleFlight] under interleaving *)

Module CoordinatorMore.
Import Coordinator CoordinatorFacts.

#[local] Arguments invocations : simpl never.







Lemma owned_by_waiter p k c (l : list Waiter) :
  In (mkWaiter c p k) l ->
  existsb (owns k) (List.filter (waits_on p) l) = true.
Proof.
  intros Hin. apply existsb_exists. exists (mkWaiter c p k). split.
  - apply filter_In. split; [exact Hin|]. unfold waits_on. cbn. apply Nat.eqb_refl.
  - unfold owns. cbn. apply String.eqb_refl.
Qed.

Lemma registered_init : registered_pending init.
Proof.
  split; cbn; intros; try contradiction. rewrite lookup_empty in *. discriminate.
Qed.

Lemma registered_step s e : registered_pending s -> registered_pending (step s e).
Proof.
  intros [R1 R2 R3]. destruct e as [c k | p out]; cbn [step].
  - destruct (registry s !! k) as [p|] eqn:Hk.
    + destruct (R1 k p Hk) as [Hp Hown]. rewrite Hp. split; assumption.
    + split; cbn.
      * intros k' p' Hl. destruct (decide (k = k')) as [<-|Hne].
        -- rewrite lookup_insert_eq in Hl. injection Hl as <-.
           split; [apply list_lookup_middle; reflexivity|].
           exists c. apply in_or_app. right. left. reflexivity.
        -- rewrite lookup_insert_ne in Hl by exact Hne.
           destruct (R1 k' p' Hl) as [Hp' [c' Hin]].
           split; [apply lookup_app_l_Some; exact Hp'|].
           exists c'. apply in_or_app. left. exact Hin.
      * intros wt Hin. apply in_app_or in Hin as [Hin | [<- | []]].
        -- specialize (R2 wt Hin). rewrite lookup_insert_ne; [exact R2 | congruence].
        -- cbn. apply lookup_insert_eq.
      * intros wt Hin. apply in_app_or in Hin as [Hin | [<- | []]].
        -- apply lookup_app_l_Some. eauto.
        -- cbn. apply list_lookup_middle. reflexivity.
  - destruct (promises s !! p) as [[|o|e]|] eqn:Hp; try (split; assumption).
    set (st := match out with
               | Fulfilled _ => Resolved (length (objects s))
               | Rejected e => Errored e
               end).
    match goal with |- registered_pending (fold_left _ ?ws ?s0) =>
      destruct (resume_all_frame st ws s0) as (Hr & Hpr & _ & Hw)
    end.
    cbn zeta in Hr, Hpr, Hw. cbn [registry promises waiting] in Hr, Hpr, Hw.
    split; rewrite ?Hr, ?Hpr, ?Hw.
    + intros k q Hl. rewrite release_all_lookup in Hl.
      destruct (existsb (owns k) (List.filter (waits_on p) (waiting s))) eqn:Hex;
        [discriminate|].
      destruct (R1 k q Hl) as [Hq [c Hin]].
      assert (q <> p) as Hne.
      { intros ->. rewrite (owned_by_waiter p k c _ Hin) in Hex. discriminate. }
      split; [rewrite list_lookup_insert_ne by congruence; exact Hq|].
      exists c. apply filter_In. split; [exact Hin|].
      unfold waits_on. cbn. apply negb_true_iff, Nat.eqb_neq. exact Hne.
    + intros wt Hin. apply filter_In in Hin as [Hin Hoff].
      rewrite release_all_lookup.
      rewrite (not_owned_by s _ (w_key wt) (w_promise wt) p R2 eq_refl); [eauto | eauto |].
      unfold waits_on in Hoff. apply negb_true_iff, Nat.eqb_neq in Hoff. exact Hoff.
    + intros wt Hin. apply filter_In in Hin as [Hin Hoff].
      unfold waits_on in Hoff. apply negb_true_iff, Nat.eqb_neq in Hoff.
      rewrite list_lookup_insert_ne by congruence. eauto.
Qed.

Lemma registered_run tr : forall s, registered_pending s -> registered_pending (run s tr).
Proof.
  induction tr as [|e tr IH]; intros s Hs; [exact Hs|].
  apply IH, registered_step, Hs.
Qed.

(** X14: the registry holds only pending flights.  After any sequence of
    calls and settlements, a registered key points to a promise that has
    not settled, every waiting caller waits on such a promise, and once no
    promise is pending the registry is empty and nobody waits. *)
Theorem registry_holds_only_pending tr :
  let s := run init tr in
  (forall k p, registry s !! k = Some p -> promises s !! p = Some Pending) /\
  (forall wt, In wt (waiting s) -> promises s !! w_promise wt = Some Pending) /\
  ((forall p, promises s !! p <> Some Pending) -> registry s = ∅ /\ waiting s = []).
Proof.
  cbn zeta. destruct (registered_run tr init registered_init) as [R1 R2 R3].
  split; [intros k p Hl; apply (R1 k p Hl)|]. split; [exact R3|].
  intros Hnone. split.
  - apply map_eq. intros k. rewrite lookup_empty.
    destruct (registry (run init tr) !! k) as [p|] eqn:Hk; [|reflexivity].
    destruct (R1 k p Hk) as [Hp _]. exfalso. exact (Hnone p Hp).
  - destruct (waiting (run init tr)) as [|wt l] eqn:Hw; [reflexivity|].
    exfalso. apply (Hnone (w_promise wt)). apply R3. rewrite ?Hw. left. reflexivity.
Qed.

(** The flight of [k] on promise [p] completes: the key is free again and
    the producer has still run once. *)
Lemma flight_completes k p c0 n s out :
  pending_flight k p [mkWaiter c0 p k] n s ->
  let s' := step s (Settle p out) in
  registry s' !! k = None /\ invocations k s' = n.
Proof.
  intros [P1 P2 P3 P4 P5 P6] s'. subst s'. cbn [step]. rewrite P2, P4.
  match goal with |- context [fold_left (fun acc wt => resume ?st wt acc) ?l ?z] =>
    destruct (resume_all_frame st l z) as (Hr & _ & Hi & _)
  end.
  cbn zeta in Hr, Hi. split.
  - rewrite Hr, release_all_lookup. unfold owns. cbn [existsb w_key].
    rewrite String.eqb_refl. reflexivity.
  - unfold invocations in *. rewrite Hi. exact P6.
Qed.

(** X15: a completed flight is not remembered.  Once the flight of a key
    has settled, with a value or with an error, the next call for that key
    does not join it and is not answered from it: the producer is invoked
    again, under a new promise. *)
Theorem completed_flight_is_not_remembered pre k c0 tr out c1 :
  let s := run init pre in
  let p := length (promises s) in
  let s2 := step (run s (Call c0 k :: tr)) (Settle p out) in
  let s3 := step s2 (Call c1 k) in
  registry s !! k = None ->
  forallb (fun e => negb (settles p e)) tr = true ->
  invocations k s3 = S (S (invocations k s)) /\
  registry s3 !! k = Some (length (promises s2)) /\
  delivered s3 = delivered s2.
Proof.
  intros s p s2 s3 Hfree Hns.
  assert (wf s) as Hwf by (apply wf_run, wf_init).
  pose proof (flight_begins s k c0 Hwf Hfree) as Hbegin. cbn zeta in Hbegin. fold p in Hbegin.
  pose proof (flight_pending tr _ _ _ _ _ Hbegin Hns) as Hpend.
  change (run (step s (Call c0 k)) tr) with (run s (Call c0 k :: tr)) in Hpend.
  destruct (flight_completes _ _ _ _ _ out Hpend) as [Hnone Hinv]. fold s2 in Hnone, Hinv.
  subst s3. cbn [step]. rewrite Hnone. cbn [registry delivered].
  split; [|split; [apply lookup_insert_eq | reflexivity]].
  rewrite invocations_snoc, String.eqb_refl, Hinv. lia.
Qed.

Lemma completed_flight_is_not_remembered_witness :
  let out := Rejected "fetch failed" in
  let s3 := run init [Call 1 "IBM"; Call 2 "IBM"; Settle 0 out; Call 3 "IBM"] in
  invocations "IBM" s3 = 2%nat /\ registry s3 !! "IBM" = Some 1%nat.
Proof.
  intros out s3.
  destruct (completed_flight_is_not_remembered [] "IBM" 1%nat [Call 2%nat "IBM"] out 3%nat
              eq_refl eq_refl) as (Hinv & Hreg & _).
  split; [exact Hinv | exact Hreg].
Defined.

End CoordinatorMore.
